(** * web-xr-ogl-js: the XR session state, the logical layers and the
      renderer's loop scheduler

    A shallow embedding of [src/xr/XRRenderer.ts] (classes [XRState] and
    [XRRenderer]) and of the layer classes [OGLXRLayer] / [OGLQuadLayer].

    JavaScript objects are identified by natural numbers handed out by an
    allocation counter; [null] and [undefined] are both [None].  All state
    lives in one [World] record that the methods thread through a small
    state-and-exception monad, so that aliasing (the renderer, the session
    state and the layers all point at each other) is explicit.  Every call
    into the host (XR device API, window, console) is recorded in a
    chronological trace. *)

From Stdlib Require Import List Arith Bool Lia String PeanoNat NArith
  Permutation.
Import ListNotations.

(** ** Object identities *)

Definition Session := nat.   (* an XRSession created by the host *)
Definition Space := nat.     (* an XRReferenceSpace *)
Definition Frame := nat.     (* an XRFrame *)
Definition Binding := nat.   (* an XRWebGLBinding *)
Definition Target := nat.    (* an XRRenderTarget *)
Definition Mesh := nat.      (* a QuadPrimitive used as fallback geometry *)
Definition LayerId := nat.   (* a logical layer object (OGLXRLayer) *)
Definition Pose := nat.      (* opaque snapshot of position and quaternion *)

(** The [type] strings: "base" | "cube" | "quad" | "sphere" and the layer
    tag "none". *)
Inductive LayerType := TBase | TCube | TQuad | TSphere | TNone.

(** The string a [type] is. *)
Definition type_name (t : LayerType) : string :=
  match t with
  | TBase => "base"
  | TCube => "cube"
  | TQuad => "quad"
  | TSphere => "sphere"
  | TNone => "none"
  end.

(** What kind of host object a native layer is.  [XRWebGLLayer] has no
    [destroy] method, composition layers have one. *)
Inductive NativeKind := KWebGLLayer | KProjectionLayer | KQuadLayer.

Record Native := mkNative { n_id : nat; n_kind : NativeKind }.

Definition has_destroy (n : Native) : bool :=
  match n_kind n with KWebGLLayer => false | _ => true end.

Lemma NativeKind_eq_dec (a b : NativeKind) : {a = b} + {a <> b}.
Proof. decide equality. Defined.

Lemma Native_eq_dec (a b : Native) : {a = b} + {a <> b}.
Proof. decide equality; [apply NativeKind_eq_dec | apply Nat.eq_dec]. Defined.

(** [a !== b] on (possibly null) layer references. *)
Definition same_native (a : Native) (b : option Native) : bool :=
  match b with
  | Some b' => if Native_eq_dec a b' then true else false
  | None => false
  end.

(** The XRLayerLayout strings. *)
Inductive Layout :=
  LDefault | LMono | LStereo | LStereoLeftRight | LStereoTopBottom.

(** [layout.includes("stereo")] *)
Definition includes_stereo (l : Layout) : bool :=
  match l with
  | LStereo | LStereoLeftRight | LStereoTopBottom => true
  | _ => false
  end.

(** The part of the layer init dictionary the code reads or writes; a field
    that is absent from the JS object is [None]. *)
Record Options := mkOptions {
  o_space : option Space;
  o_viewPixelWidth : option nat;
  o_viewPixelHeight : option nat;
  o_layout : option Layout }.

Definition or_else {A} (a b : option A) : option A :=
  match a with Some _ => a | None => b end.

(** [Object.assign({}, defaults, options)] *)
Definition assign (defaults options : Options) : Options :=
  {| o_space := or_else (o_space options) (o_space defaults);
     o_viewPixelWidth :=
       or_else (o_viewPixelWidth options) (o_viewPixelWidth defaults);
     o_viewPixelHeight :=
       or_else (o_viewPixelHeight options) (o_viewPixelHeight defaults);
     o_layout := or_else (o_layout options) (o_layout defaults) |}.

(** A new [XRRigidTransform]: a fresh object holding a copy of the pose. *)
Record Transform := mkTransform { t_id : nat; t_pose : Pose }.

(** ** Bound functions and session listeners

    [f.bind(x)] always returns a new function object, and the host compares
    listeners by identity, so a bound function carries an identity next to
    the method it forwards to. *)
Inductive Method := MOnEnd | MOnInputChanged.
Record Fn := mkFn { fn_id : nat; fn_target : Method }.
Inductive SessionEvent := SEnd | SInputSourcesChange.

Lemma Fn_eq_dec (a b : Fn) : {a = b} + {a <> b}.
Proof. repeat decide equality. Defined.

Lemma SessionEvent_eq_dec (a b : SessionEvent) : {a = b} + {a <> b}.
Proof. decide equality. Defined.

Definition Listener := (Session * SessionEvent * Fn)%type.

Definition same_listener (a b : Listener) : bool :=
  match a, b with
  | (s, e, f), (s', e', f') =>
      (s =? s')%nat
      && (if SessionEvent_eq_dec e e' then true else false)
      && (if Fn_eq_dec f f' then true else false)
  end.

(** ** One-shot frame callbacks

    A callback handed to [XRRenderer.requestAnimationFrame] is application
    code.  What matters to the scheduler is which scheduler methods it calls
    when it runs and whether it throws, so a callback is a name and the
    list of steps it takes; a [throw] ends it. *)
#[warnings="-register-all"] Inductive Action :=
| ARequest (name : nat) (body : list Action)
    (* renderer.requestAnimationFrame(callback) *)
| ACancel (id : nat)
    (* renderer.cancelAnimationFrame(id) *)
| AThrow.
    (* throw new Error(...) *)

Record Callback := mkCallback { cb_name : nat; cb_body : list Action }.

(** [n++] on a field that holds a JS number.  Integers are exact in a
    double up to 2^53; 2^53 + 1 is not a double and the sum rounds back to
    2^53, so a counter that starts at 0 counts up to 2^53 and stays
    there.  A counter never holds more than 2^53, and the statements about
    the counter are made for values up to 2^53. *)
Definition js_limit : N := 2 ^ 53.

Definition js_exact (n : nat) : bool := (N.of_nat n <? js_limit)%N.

Definition js_succ (n : nat) : nat := if js_exact n then S n else n.

(** A JS [Map] with numeric keys: iteration follows insertion order, [set]
    on a present key keeps its place. *)
Definition JSMap (V : Type) := list (nat * V).

Definition map_has {V} (k : nat) (m : JSMap V) : bool :=
  existsb (fun p => fst p =? k) m.

Definition map_set {V} (k : nat) (v : V) (m : JSMap V) : JSMap V :=
  if map_has k m
  then map (fun p => if fst p =? k then (k, v) else p) m
  else m ++ [(k, v)].

Definition map_delete {V} (k : nat) (m : JSMap V) : JSMap V :=
  filter (fun p => negb (fst p =? k)) m.

Definition map_values {V} (m : JSMap V) : list V := map snd m.

(** ** Frame clock sources *)
Inductive Source := Display | OfSession (s : Session).

Lemma Source_eq_dec (a b : Source) : {a = b} + {a <> b}.
Proof. decide equality; apply Nat.eq_dec. Defined.

Definition same_request (a b : Source * nat) : bool :=
  (if Source_eq_dec (fst a) (fst b) then true else false)
  && (snd a =? snd b).

(** The cancellation closure stored in [_clearLoopDel].  The session variant
    closes over [loopid] only: it reads [this.session] when it is called. *)
Inductive LoopDel := DelSession (loopid : nat) | DelDisplay (id : nat).

(** ** The trace *)
Inductive RenderState :=
| RSLayers (ls : list Native)
| RSBaseLayer (b : option Native).

Inductive XREvent := XRStart | XREnd | XRInputSourcesChange.

Inductive Event :=
| CWarn (msg : string)                       (* console.warn *)
| CError (msg : string)                      (* console.error *)
| CDebug (msg : string)                      (* console.debug *)
| HNewLayer (n : Native)
| HNewBinding (b : Binding)
| HNewTarget (t : Target)
| HNewMesh (m : Mesh)
| HNewTransform (t : Transform)
| HUpdateRenderState (s : Session) (r : RenderState)
| HDestroyLayer (n : Native)
| HDestroyTarget (t : Target)
| HSetTransform (n : Native) (t : option Transform)
    (* nativeLayer.transform = nativeTransform *)
| HAddListener (l : Listener)
| HRemoveListener (l : Listener)
| HRequestFrame (src : Source) (id : nat)
| HCancelFrame (src : Source) (id : nat)
| HEndSession (s : Session)
| XDispatch (e : XREvent)                    (* XRState.dispatchEvent *)
| AInvoke (name : nat) (time : nat) (frame : option Frame)
| ARegistered (id : nat) (c : Callback)
| AUnregistered (id : nat).

(** ** The logical layer object *)
Inductive LayerClass := COGLXRLayer | COGLQuadLayer.

(** The value of the [onLayerDestroy] field: the no-op installed by the
    constructor, or [XRRenderer._onLayerDestroy] installed by
    [registerLayer]. *)
Inductive DestroyCb := CbDefault | CbRenderer.

Record OGLXRLayer := mkLayer {
  l_class : LayerClass;
  l_options : Options;
  nativeLayer : option Native;
  nativeTransform : option Transform;
  emulatedLayers : option (list Mesh);
  onLayerDestroy_cb : DestroyCb;
  transformDirty : bool;
  l_children : list Mesh;
  l_pose : Pose }.

(** [readonly type]: "none" on the base class, "quad" on OGLQuadLayer. *)
Definition l_type (l : OGLXRLayer) : LayerType :=
  match l_class l with COGLXRLayer => TNone | COGLQuadLayer => TQuad end.

(** The constructor, called as its signature says, with an options object:
    [new OGLQuadLayer(context, options)].  A layer whose [options] field is
    undefined (the deprecated [createLayer] passes its options in the place
    of the context) is not modelled: for such a layer
    [bindNativeLayerTo] and [_createFallbackLayers], which read
    [this.options], throw a [TypeError]. *)
Definition new_layer (c : LayerClass) (o : Options) (p : Pose) : OGLXRLayer :=
  {| l_class := c; l_options := o; nativeLayer := None;
     nativeTransform := None; emulatedLayers := None;
     onLayerDestroy_cb := CbDefault; transformDirty := true;
     l_children := []; l_pose := p |}.

(** ** XRState, XRRenderer, the host *)
Record XRState := mkXRState {
  session : option Session;
  space : option Space;
  layers : list Native;
  baseLayer : option Native;
  baseLayerTarget : option Target;
  lastXRFrame : option Frame;
  glBinding : option Binding;
  onEnd_fn : Fn;             (* this.onEnd, bound in the constructor *)
  onInputChanged_fn : Fn }.  (* this.onInputChanged, likewise *)

Record XRRenderer := mkXRRenderer {
  r_layers : list LayerId;           (* XRRenderer.layers, the registry *)
  _rafCallbacks : JSMap Callback;
  _calbackID : nat;
  _clearLoopDel : option LoopDel }.

Record Host := mkHost {
  h_fresh : nat;                     (* next object identity *)
  h_rafid : nat;                     (* next frame-request id *)
  h_live : option Session;           (* the session the host is running *)
  h_listeners : list Listener;       (* listeners attached to sessions *)
  h_outstanding : list (Source * nat) }.
    (* frame requests issued and neither fired nor cancelled *)

Record World := mkWorld {
  layersSupport : bool;              (* static XRState.layersSupport *)
  xr : XRState;
  renderer : XRRenderer;
  heap : LayerId -> OGLXRLayer;
  host : Host;
  log : list Event }.

(** *** Field updates *)
Definition set_layersSupport (b : bool) (w : World) : World :=
  mkWorld b (xr w) (renderer w) (heap w) (host w) (log w).
Definition set_xr (f : XRState -> XRState) (w : World) : World :=
  mkWorld (layersSupport w) (f (xr w)) (renderer w) (heap w) (host w) (log w).
Definition set_renderer (f : XRRenderer -> XRRenderer) (w : World) : World :=
  mkWorld (layersSupport w) (xr w) (f (renderer w)) (heap w) (host w) (log w).
Definition set_heap (f : (LayerId -> OGLXRLayer) -> LayerId -> OGLXRLayer)
    (w : World) : World :=
  mkWorld (layersSupport w) (xr w) (renderer w) (f (heap w)) (host w) (log w).
Definition set_host (f : Host -> Host) (w : World) : World :=
  mkWorld (layersSupport w) (xr w) (renderer w) (heap w) (f (host w)) (log w).
Definition emit (e : Event) (w : World) : World :=
  mkWorld (layersSupport w) (xr w) (renderer w) (heap w) (host w)
          (log w ++ [e]).

Definition with_session v (x : XRState) :=
  mkXRState v (space x) (layers x) (baseLayer x) (baseLayerTarget x)
            (lastXRFrame x) (glBinding x) (onEnd_fn x) (onInputChanged_fn x).
Definition with_space v (x : XRState) :=
  mkXRState (session x) v (layers x) (baseLayer x) (baseLayerTarget x)
            (lastXRFrame x) (glBinding x) (onEnd_fn x) (onInputChanged_fn x).
Definition with_layers v (x : XRState) :=
  mkXRState (session x) (space x) v (baseLayer x) (baseLayerTarget x)
            (lastXRFrame x) (glBinding x) (onEnd_fn x) (onInputChanged_fn x).
Definition with_baseLayer v (x : XRState) :=
  mkXRState (session x) (space x) (layers x) v (baseLayerTarget x)
            (lastXRFrame x) (glBinding x) (onEnd_fn x) (onInputChanged_fn x).
Definition with_baseLayerTarget v (x : XRState) :=
  mkXRState (session x) (space x) (layers x) (baseLayer x) v
            (lastXRFrame x) (glBinding x) (onEnd_fn x) (onInputChanged_fn x).
Definition with_lastXRFrame v (x : XRState) :=
  mkXRState (session x) (space x) (layers x) (baseLayer x) (baseLayerTarget x)
            v (glBinding x) (onEnd_fn x) (onInputChanged_fn x).
Definition with_glBinding v (x : XRState) :=
  mkXRState (session x) (space x) (layers x) (baseLayer x) (baseLayerTarget x)
            (lastXRFrame x) v (onEnd_fn x) (onInputChanged_fn x).

Definition with_r_layers v (r : XRRenderer) :=
  mkXRRenderer v (_rafCallbacks r) (_calbackID r) (_clearLoopDel r).
Definition with_rafCallbacks v (r : XRRenderer) :=
  mkXRRenderer (r_layers r) v (_calbackID r) (_clearLoopDel r).
Definition with_calbackID v (r : XRRenderer) :=
  mkXRRenderer (r_layers r) (_rafCallbacks r) v (_clearLoopDel r).
Definition with_clearLoopDel v (r : XRRenderer) :=
  mkXRRenderer (r_layers r) (_rafCallbacks r) (_calbackID r) v.

Definition with_fresh v (h : Host) :=
  mkHost v (h_rafid h) (h_live h) (h_listeners h) (h_outstanding h).
Definition with_rafid v (h : Host) :=
  mkHost (h_fresh h) v (h_live h) (h_listeners h) (h_outstanding h).
Definition with_live v (h : Host) :=
  mkHost (h_fresh h) (h_rafid h) v (h_listeners h) (h_outstanding h).
Definition with_listeners v (h : Host) :=
  mkHost (h_fresh h) (h_rafid h) (h_live h) v (h_outstanding h).
Definition with_outstanding v (h : Host) :=
  mkHost (h_fresh h) (h_rafid h) (h_live h) (h_listeners h) v.

Definition upd (l : LayerId) (v : OGLXRLayer) (h : LayerId -> OGLXRLayer)
    : LayerId -> OGLXRLayer :=
  fun x => if x =? l then v else h x.

Definition with_nativeLayer v (l : OGLXRLayer) :=
  mkLayer (l_class l) (l_options l) v (nativeTransform l) (emulatedLayers l)
          (onLayerDestroy_cb l) (transformDirty l) (l_children l) (l_pose l).
Definition with_nativeTransform v (l : OGLXRLayer) :=
  mkLayer (l_class l) (l_options l) (nativeLayer l) v (emulatedLayers l)
          (onLayerDestroy_cb l) (transformDirty l) (l_children l) (l_pose l).
Definition with_emulatedLayers v (l : OGLXRLayer) :=
  mkLayer (l_class l) (l_options l) (nativeLayer l) (nativeTransform l) v
          (onLayerDestroy_cb l) (transformDirty l) (l_children l) (l_pose l).
Definition with_onLayerDestroy v (l : OGLXRLayer) :=
  mkLayer (l_class l) (l_options l) (nativeLayer l) (nativeTransform l)
          (emulatedLayers l) v (transformDirty l) (l_children l) (l_pose l).
Definition with_transformDirty v (l : OGLXRLayer) :=
  mkLayer (l_class l) (l_options l) (nativeLayer l) (nativeTransform l)
          (emulatedLayers l) (onLayerDestroy_cb l) v (l_children l) (l_pose l).
Definition with_children v (l : OGLXRLayer) :=
  mkLayer (l_class l) (l_options l) (nativeLayer l) (nativeTransform l)
          (emulatedLayers l) (onLayerDestroy_cb l) (transformDirty l) v
          (l_pose l).
Definition with_options v (l : OGLXRLayer) :=
  mkLayer (l_class l) v (nativeLayer l) (nativeTransform l)
          (emulatedLayers l) (onLayerDestroy_cb l) (transformDirty l)
          (l_children l) (l_pose l).
Definition with_pose v (l : OGLXRLayer) :=
  mkLayer (l_class l) (l_options l) (nativeLayer l) (nativeTransform l)
          (emulatedLayers l) (onLayerDestroy_cb l) (transformDirty l)
          (l_children l) v.

Definition set_layer (l : LayerId) (f : OGLXRLayer -> OGLXRLayer) (w : World)
    : World :=
  set_heap (fun h => upd l (f (h l)) h) w.

(** ** The state-and-exception monad *)
Inductive Error :=
| JSError (msg : string)       (* throw new Error(msg) *)
| TypeError (msg : string).    (* raised by the engine or the host *)

Inductive Res (A : Type) :=
| Ok (a : A) (w : World)
| Throw (e : Error) (w : World).
Arguments Ok {A} a w.
Arguments Throw {A} e w.

Definition M (A : Type) := World -> Res A.

Definition ret {A} (a : A) : M A := fun w => Ok a w.
Definition throw {A} (e : Error) : M A := fun w => Throw e w.
Definition bind {A B} (m : M A) (k : A -> M B) : M B :=
  fun w => match m w with
           | Ok a w' => k a w'
           | Throw e w' => Throw e w'
           end.
Definition lift (f : World -> World) : M unit := fun w => Ok tt (f w).
Definition gets {A} (f : World -> A) : M A := fun w => Ok (f w) w.

(** [try { m } catch (e) { h e }] *)
Definition try_catch {A} (m : M A) (h : Error -> M A) : M A :=
  fun w => match m w with
           | Ok a w' => Ok a w'
           | Throw e w' => h e w'
           end.

(** The world a call leaves behind, whether it returned or threw. *)
Definition world_of {A} (r : Res A) : World :=
  match r with Ok _ w => w | Throw _ w => w end.

Definition returned {A} (r : Res A) : bool :=
  match r with Ok _ _ => true | Throw _ _ => false end.

Declare Scope m_scope.
Delimit Scope m_scope with m.
Notation "x <- m ;; k" := (bind m (fun x => k))
  (at level 61, m at next level, right associativity) : m_scope.
Notation "m ;;; k" := (bind m (fun _ => k))
  (at level 61, right associativity) : m_scope.
Open Scope m_scope.

(** [for (const x of xs) body(x)] and [xs.forEach(body)] over a snapshot. *)
Fixpoint for_each {A} (body : A -> M unit) (xs : list A) : M unit :=
  match xs with
  | [] => ret tt
  | x :: xs' => body x ;;; for_each body xs'
  end.

(** ** Host primitives *)

(** A fresh object identity. *)
Definition fresh : M nat := fun w =>
  Ok (h_fresh (host w)) (set_host (fun h => with_fresh (S (h_fresh h)) h) w).

(** [source.requestAnimationFrame(cb)]: the host hands out an id and keeps
    the request until it fires or is cancelled. *)
Definition host_requestFrame (src : Source) : M nat := fun w =>
  let id := h_rafid (host w) in
  Ok id
     (emit (HRequestFrame src id)
        (set_host (fun h =>
           with_outstanding (h_outstanding h ++ [(src, id)])
             (with_rafid (S id) h)) w)).

(** Taking a request off the host's list. *)
Definition drop_request (src : Source) (id : nat) (w : World) : World :=
  set_host (fun h =>
    with_outstanding
      (filter (fun r => negb (same_request r (src, id))) (h_outstanding h)) h) w.

(** [source.cancelAnimationFrame(id)] *)
Definition host_cancelFrame (src : Source) (id : nat) (w : World) : World :=
  emit (HCancelFrame src id) (drop_request src id w).

Definition host_addEventListener (l : Listener) (w : World) : World :=
  emit (HAddListener l)
    (set_host (fun h => with_listeners (h_listeners h ++ [l]) h) w).

(** Removes the listener that is the same (session, type, function object);
    a function that was never added removes nothing. *)
Definition host_removeEventListener (l : Listener) (w : World) : World :=
  emit (HRemoveListener l)
    (set_host (fun h =>
       with_listeners
         (filter (fun l' => negb (same_listener l' l)) (h_listeners h)) h) w).

Definition is_some {A} (o : option A) : bool :=
  match o with Some _ => true | None => false end.

(** ** XRState: the session state *)
Module XRState.

(** [get active()] *)
Definition active (w : World) : bool := is_some (session (xr w)).

(** A host call on [this.session]; the engine or the host raises a
    TypeError when the session is null. *)
Definition need_session : M Session :=
  s <- gets (fun w => session (xr w)) ;;
  match s with
  | Some s => ret s
  | None => throw (TypeError "this.session is null")
  end.

(** [updateRenderState()] *)
Definition updateRenderState : M unit :=
  s <- need_session ;;
  lift (fun w =>
    if layersSupport w
    then emit (HUpdateRenderState s (RSLayers (layers (xr w)))) w
    else emit (HUpdateRenderState s (RSBaseLayer (baseLayer (xr w)))) w).

(** [onLayerDestroy(layer)], called from the layer binding to drop a
    native layer from the state. *)
Definition onLayerDestroy (layer : Native) : M unit :=
  skip <- gets (fun w => negb (layersSupport w) || negb (active w)) ;;
  if skip then ret tt
  else
    lift (set_xr (fun x =>
      with_layers
        (filter (fun l => if Native_eq_dec l layer then false else true)
                (layers x)) x)) ;;;
    updateRenderState.

(** [new self.XRWebGLLayer(this.session, gl)] *)
Definition new_XRWebGLLayer : M Native :=
  _ <- need_session ;;
  i <- fresh ;;
  lift (emit (HNewLayer (mkNative i KWebGLLayer))) ;;;
  ret (mkNative i KWebGLLayer).

(** [new self.XRWebGLBinding(this.session, gl)] *)
Definition new_XRWebGLBinding : M Binding :=
  _ <- need_session ;;
  i <- fresh ;;
  lift (emit (HNewBinding i)) ;;; ret i.

(** [this.glBinding.createProjectionLayer({})] and
    [this.glBinding.createQuadLayer(options)] *)
Definition createLayer (k : NativeKind) : M Native :=
  i <- fresh ;;
  lift (emit (HNewLayer (mkNative i k))) ;;;
  ret (mkNative i k).

(** [new XRRenderTarget(this.context)] *)
Definition new_XRRenderTarget : M Target :=
  i <- fresh ;;
  lift (emit (HNewTarget i)) ;;; ret i.

Definition is_base (t : LayerType) : bool :=
  match t with TBase => true | _ => false end.

(** [{ space: this.space, viewPixelHeight: 100, viewPixelWidth: 100 }] *)
Definition default_options (w : World) : Options :=
  {| o_space := space (xr w); o_viewPixelWidth := Some 100;
     o_viewPixelHeight := Some 100; o_layout := None |}.

(** [this.glBinding || new self.XRWebGLBinding(this.session, gl)] *)
Definition binding_or_new : M Binding :=
  cur <- gets (fun w => glBinding (xr w)) ;;
  match cur with
  | Some b => ret b
  | None => new_XRWebGLBinding
  end.

(** [getLayer(gl, type = "base", options = {...})].  A missing [options]
    argument is [None].  After [Object.assign] the options are always an
    object, so the branch that throws "Only base layer can miss options!"
    is never taken and is left out; the merged options only reach the
    host's [createQuadLayer]. *)
Definition getLayer (type : LayerType) (options : option Options)
    : M (option Native) :=
  defaults <- gets default_options ;;
  let options :=
    assign defaults (match options with Some o => o | None => defaults end) in
  legacy <- gets (fun w => negb (layersSupport w)) ;;
  count <- gets (fun w => List.length (layers (xr w))) ;;
  if legacy && (negb (is_base type) || (1 <? count))
  then
    lift (emit (CWarn "[XR] Only single base layer is supported!")) ;;;
    ret None
  else
    layer <-
      (if legacy
       then
         layer <- new_XRWebGLLayer ;;
         lift (set_xr (with_baseLayer (Some layer))) ;;;
         ret layer
       else
         b <- binding_or_new ;;
         lift (set_xr (with_glBinding (Some b))) ;;;
         match type with
         | TBase =>
             layer <- createLayer KProjectionLayer ;;
             lift (set_xr (with_baseLayer (Some layer))) ;;;
             t <- new_XRRenderTarget ;;
             lift (set_xr (with_baseLayerTarget (Some t))) ;;;
             lift (emit (CDebug "Occure presentation layer")) ;;;
             ret layer
         | TQuad => createLayer KQuadLayer
         | _ => throw (JSError ("Unsuppoted yet:" ++ type_name type))
         end) ;;
    (* push front *)
    lift (set_xr (fun x => with_layers (layer :: layers x) x)) ;;;
    updateRenderState ;;;
    ret (Some layer).

(** [requestAnimationFrame(callback)]: the request at the host and the
    cancellation closure it returns. *)
Definition requestAnimationFrame : M LoopDel :=
  s <- gets (fun w => session (xr w)) ;;
  match s with
  | None =>
      throw (JSError "Try to requiest anima frame on disabled XRState")
  | Some s =>
      loopid <- host_requestFrame (OfSession s) ;;
      ret (DelSession loopid)
  end.

(** The function handed to [session.requestAnimationFrame]: what runs when
    the host fires the request with [(time, frame)]. *)
Definition frameCallback (callback : nat -> option Frame -> M unit)
    (time : nat) (frame : Frame) : M unit :=
  lift (set_xr (with_lastXRFrame (Some frame))) ;;;
  callback time (Some frame) ;;;
  lift (set_xr (with_lastXRFrame None)).

(** Calling the closure returned by [requestAnimationFrame]:
    [this.session?.cancelAnimationFrame(loopid)]. *)
Definition cancelFrame (loopid : nat) (w : World) : World :=
  match session (xr w) with
  | Some s => host_cancelFrame (OfSession s) loopid w
  | None => w
  end.

(** [layer.destroy && layer.destroy()] *)
Definition destroy_if_able (n : Native) (w : World) : World :=
  if has_destroy n then emit (HDestroyLayer n) w else w.

(** [clear()] *)
Definition clear (w : World) : World :=
  match session (xr w) with
  | None => w
  | Some s =>
      let w := host_removeEventListener (s, SEnd, onEnd_fn (xr w)) w in
      let w := host_removeEventListener
                 (s, SInputSourcesChange, onInputChanged_fn (xr w)) w in
      let w := fold_left (fun w n => destroy_if_able n w) (layers (xr w)) w in
      let w := set_xr (with_layers []) w in
      let w := set_xr (with_session None) w in
      let w := set_xr (with_space None) w in
      let w := match baseLayerTarget (xr w) with
               | Some t => emit (HDestroyTarget t) w
               | None => w
               end in
      let w := match baseLayer (xr w) with
               | Some b => destroy_if_able b w
               | None => w
               end in
      let w := set_xr (with_baseLayerTarget None) w in
      let w := set_xr (with_baseLayer None) w in
      set_xr (with_glBinding None) w
  end.

(** [onInputChanged(event)]: re-dispatched as "xrinputsourceschange"; the
    renderer has no listener for it. *)
Definition onInputChanged (w : World) : World :=
  emit (XDispatch XRInputSourcesChange) w.

(** How the host answers [requestSession] and [requestReferenceSpace];
    the flag is [!!session.renderState.layers]. *)
Inductive Negotiation :=
| SessionRejected
| SpaceRejected (layersFlag : bool)
| Granted (layersFlag : bool).

(** The host creates and starts a session. *)
Definition host_grantSession : M Session :=
  s <- fresh ;;
  lift (set_host (with_live (Some s))) ;;;
  ret s.

(** *** Session life cycle

    [XRState] is an [EventTarget]; the renderer's constructor registers
    [onSessionStart] for "xrstart" and [onSessionLost] for "xrend".  The
    two listeners are parameters here and are supplied once the renderer
    is defined.  [dispatchEvent] reports an exception of a listener
    instead of propagating it. *)
Section Listeners.
Variables on_xrstart on_xrend : M unit.

Definition dispatchEvent (e : XREvent) (w : World) : World :=
  match e with
  | XRStart => world_of (on_xrstart (emit (XDispatch e) w))
  | XREnd => world_of (on_xrend (emit (XDispatch e) w))
  | XRInputSourcesChange => emit (XDispatch e) w
  end.

(** [onEnd()] *)
Definition onEnd (w : World) : World :=
  dispatchEvent XREnd (onInputChanged (clear w)).

(** Calling a bound function. *)
Definition call_fn (f : Fn) (w : World) : World :=
  match fn_target f with
  | MOnEnd => onEnd w
  | MOnInputChanged => onInputChanged w
  end.

(** The "end" listeners attached to session [s], in the order they were
    added. *)
Definition end_listeners (s : Session) (w : World) : list Fn :=
  flat_map (fun l : Listener =>
              match l with
              | (s', SEnd, f) => if s' =? s then [f] else []
              | _ => []
              end)
           (h_listeners (host w)).

(** The host shuts a session down and fires its "end" event at the
    listeners attached to it.  A session that is not running is left
    alone. *)
Definition host_endSession (s : Session) (w : World) : World :=
  match h_live (host w) with
  | Some s' =>
      if s' =? s then
        fold_left (fun w f => call_fn f w) (end_listeners s w)
                  (emit (HEndSession s) (set_host (with_live None) w))
      else w
  | None => w
  end.

(** [end()] *)
Definition end_ (w : World) : World :=
  match session (xr w) with
  | None => w
  | Some s => host_endSession s (onInputChanged (clear w))
  end.

(** [init(session, space)].  Each [bind] makes a new function object. *)
Definition init (s : Session) (sp : Space) : M unit :=
  lift (fun w => if active w then clear w else w) ;;;
  lift (set_xr (with_space (Some sp))) ;;;
  lift (set_xr (with_session (Some s))) ;;;
  i <- fresh ;;
  lift (host_addEventListener (s, SEnd, mkFn i MOnEnd)) ;;;
  j <- fresh ;;
  lift (host_addEventListener
          (s, SInputSourcesChange, mkFn j MOnInputChanged)) ;;;
  lift (dispatchEvent XRStart).

(** [requestSession(...)] up to its first [await]. *)
Definition requestSession_begin (w : World) : World :=
  if active w then end_ w else w.

(** [requestSession(...)] from the host's answer on; a rejection is a
    [Throw]. *)
Definition requestSession_settle (o : Negotiation) : M unit :=
  match o with
  | SessionRejected => throw (JSError "session request rejected")
  | SpaceRejected b =>
      _ <- host_grantSession ;;
      lift (set_layersSupport b) ;;;
      throw (JSError "reference space request rejected")
  | Granted b =>
      s <- host_grantSession ;;
      lift (set_layersSupport b) ;;;
      sp <- fresh ;;
      init s sp
  end.
End Listeners.

End XRState.

(** ** OGLXRLayer and OGLQuadLayer: the logical layers

    A method takes the identity of the layer it is called on.  Virtual
    methods dispatch on the class of the object. *)
Module OGLXRLayer.

(** [get isNative()] *)
Definition isNative (l : OGLXRLayer) : bool :=
  is_some (nativeLayer l) && negb (is_some (emulatedLayers l)).

(** [new QuadPrimitive(this.context.gl, this.options)] *)
Definition new_QuadPrimitive : M Mesh :=
  i <- fresh ;;
  lift (emit (HNewMesh i)) ;;; ret i.

(** [this.options.layout?.includes("stereo")] *)
Definition wants_stereo (o : Options) : bool :=
  match o_layout o with
  | Some lay => includes_stereo lay
  | None => false
  end.

(** [_createFallbackLayers()] *)
Definition _createFallbackLayers (l : LayerId) : M (list Mesh) :=
  L <- gets (fun w => heap w l) ;;
  match l_class L with
  | COGLXRLayer => throw (JSError "Not implemented")
  | COGLQuadLayer =>
      m <- new_QuadPrimitive ;;
      if wants_stereo (l_options L)
      then m' <- new_QuadPrimitive ;; ret [m; m']
      else ret [m]
  end.

(** [_removeFallbackLayers(layers)]: empty in both classes. *)
Definition _removeFallbackLayers (l : LayerId) (ms : list Mesh)
    (w : World) : World := w.

(** [Transform.addChild] / [Transform.removeChild] of the scene graph. *)
Definition addChild (l : LayerId) (m : Mesh) (w : World) : World :=
  set_layer l (fun L =>
    if existsb (Nat.eqb m) (l_children L) then L
    else with_children (l_children L ++ [m]) L) w.

Fixpoint remove_first (x : nat) (xs : list nat) : list nat :=
  match xs with
  | [] => []
  | y :: ys => if y =? x then ys else y :: remove_first x ys
  end.

Definition removeChild (l : LayerId) (m : Mesh) (w : World) : World :=
  set_layer l (fun L => with_children (remove_first m (l_children L)) L) w.

(** [OGLXRLayer._updateNative()] *)
Definition super_updateNative (l : LayerId) : M unit :=
  L <- gets (fun w => heap w l) ;;
  if transformDirty L || negb (is_some (nativeTransform L))
  then
    i <- fresh ;;
    lift (emit (HNewTransform (mkTransform i (l_pose L)))) ;;;
    lift (set_layer l (with_nativeTransform
                         (Some (mkTransform i (l_pose L)))))
  else ret tt.

(** [OGLQuadLayer._updateNative()] after the call to [super]:
    [this.nativeLayer.transform = this.nativeTransform] *)
Definition push_transform (l : LayerId) : M unit :=
  L <- gets (fun w => heap w l) ;;
  match nativeLayer L with
  | Some n => lift (emit (HSetTransform n (nativeTransform L)))
  | None => throw (TypeError "this.nativeLayer is null")
  end.

(** [_updateNative()] *)
Definition _updateNative (l : LayerId) : M unit :=
  c <- gets (fun w => l_class (heap w l)) ;;
  match c with
  | COGLXRLayer => super_updateNative l
  | COGLQuadLayer => super_updateNative l ;;; push_transform l
  end.

(** [update()] *)
Definition update (l : LayerId) : M unit :=
  n <- gets (fun w => nativeLayer (heap w l)) ;;
  if is_some n then _updateNative l else ret tt.

(** [needUpdateTransform()] *)
Definition needUpdateTransform (l : LayerId) (w : World) : World :=
  set_layer l (with_transformDirty true) w.

(** [destroyNative()] *)
Definition destroyNative (l : LayerId) (w : World) : World :=
  let w := match nativeLayer (heap w l) with
           | Some n => emit (HDestroyLayer n) w
           | None => w
           end in
  let w := set_layer l (with_nativeLayer None) w in
  set_layer l (with_nativeTransform None) w.

(** [createFallback()] *)
Definition createFallback (l : LayerId) : M unit :=
  cur <- gets (fun w => emulatedLayers (heap w l)) ;;
  if is_some cur then ret tt
  else
    ms <- _createFallbackLayers l ;;
    lift (set_layer l (with_emulatedLayers (Some ms))) ;;;
    lift (fun w => fold_left (fun w m => addChild l m w) ms w).

(** [destroyFallback()] *)
Definition destroyFallback (l : LayerId) (w : World) : World :=
  match emulatedLayers (heap w l) with
  | None => w
  | Some ms =>
      let w := _removeFallbackLayers l ms w in
      let w := fold_left (fun w m => removeChild l m w) ms w in
      set_layer l (with_emulatedLayers None) w
  end.

Section Owner.
(** [XRRenderer._onLayerDestroy], the function [registerLayer] stores
    in the [onLayerDestroy] field. *)
Variable renderer_onLayerDestroy : LayerId -> bool -> M unit.

(** [this.onLayerDestroy?.(this, nativeOnly)] *)
Definition call_onLayerDestroy (l : LayerId) (nativeOnly : bool)
    : M unit :=
  cb <- gets (fun w => onLayerDestroy_cb (heap w l)) ;;
  match cb with
  | CbDefault => ret tt
  | CbRenderer => renderer_onLayerDestroy l nativeOnly
  end.

(** [bindLayer(layer)]: if [layer] is null the native layer is unbound
    and dropped. *)
Definition bindLayer (l : LayerId) (layer : option Native) : M unit :=
  cur <- gets (fun w => nativeLayer (heap w l)) ;;
  match cur with
  | Some n =>
      if negb (same_native n layer)
      then call_onLayerDestroy l true ;;; lift (destroyNative l)
      else ret tt
  | None => ret tt
  end ;;;
  match layer with
  | Some n =>
      lift (destroyFallback l) ;;;
      lift (set_layer l (with_nativeLayer (Some n))) ;;;
      _updateNative l
  | None =>
      (* add virtual layer *)
      createFallback l
  end.

(** [destroy()] *)
Definition destroy (l : LayerId) : M unit :=
  call_onLayerDestroy l false ;;; lift (destroyNative l).
End Owner.

End OGLXRLayer.

(** ** XRRenderer: the layer registry and the loop scheduler *)
Module XRRenderer.

(** [_onLayerDestroy(layer, nativeOnly)], called by the layer. *)
Definition _onLayerDestroy (l : LayerId) (nativeOnly : bool) : M unit :=
  (if negb nativeOnly
   then lift (set_renderer (fun r =>
          with_r_layers (filter (fun e => negb (l =? e)) (r_layers r)) r))
   else ret tt) ;;;
  n <- gets (fun w => nativeLayer (heap w l)) ;;
  match n with
  | Some n => XRState.onLayerDestroy n
  | None => ret tt
  end.

Definition bindLayer := OGLXRLayer.bindLayer _onLayerDestroy.
Definition destroy := OGLXRLayer.destroy _onLayerDestroy.

Definition with_o_space v (o : Options) :=
  mkOptions v (o_viewPixelWidth o) (o_viewPixelHeight o) (o_layout o).

(** [bindNativeLayerTo(layer)]: try to bind the logical layer to a native
    layer when XR is enabled and layers are supported. *)
Definition bindNativeLayerTo (l : LayerId) : M bool :=
  supported <- gets layersSupport ;;
  nativeLayer <-
    (if supported then
       lift (fun w => set_layer l (fun L =>
         with_options (with_o_space (space (xr w)) (l_options L)) L) w) ;;;
       L <- gets (fun w => heap w l) ;;
       try_catch
         (XRState.getLayer (l_type L) (Some (l_options L)))
         (fun e => lift (emit (CError "[LAYER Binding Error]")) ;;;
                   ret None)
     else ret None) ;;
  bindLayer l nativeLayer ;;;
  ret (is_some nativeLayer).

(** [registerLayer(layer)] *)
Definition registerLayer (l : LayerId) : M nat :=
  lift (set_renderer (fun r =>
    if existsb (Nat.eqb l) (r_layers r)
    then with_r_layers (OGLXRLayer.remove_first l (r_layers r)) r
    else r)) ;;;
  bindNativeLayerTo l ;;;
  lift (set_layer l (with_onLayerDestroy CbRenderer)) ;;;
  lift (set_renderer (fun r => with_r_layers (l :: r_layers r) r)) ;;;
  gets (fun w => List.length (r_layers (renderer w))).

(** *** The loop *)

(** [_clearLoop()] *)
Definition _clearLoop (w : World) : World :=
  set_renderer (with_clearLoopDel None)
    match _clearLoopDel (renderer w) with
    | Some (DelSession loopid) => XRState.cancelFrame loopid w
    | Some (DelDisplay id) => host_cancelFrame Display id w
    | None => w
    end.

(** [_attachLoop()] *)
Definition _attachLoop : M unit :=
  lift _clearLoop ;;;
  a <- gets XRState.active ;;
  if a then
    d <- XRState.requestAnimationFrame ;;
    lift (set_renderer (with_clearLoopDel (Some d)))
  else
    id <- host_requestFrame Display ;;
    lift (set_renderer (with_clearLoopDel (Some (DelDisplay id)))).

(** [requestAnimationFrame(callback)] *)
Definition requestAnimationFrame (callback : Callback) : M nat :=
  id <- gets (fun w => _calbackID (renderer w)) ;;
  lift (set_renderer (with_calbackID (js_succ id))) ;;;
  lift (set_renderer (fun r =>
    with_rafCallbacks (map_set id callback (_rafCallbacks r)) r)) ;;;
  lift (emit (ARegistered id callback)) ;;;
  d <- gets (fun w => _clearLoopDel (renderer w)) ;;
  (if is_some d then ret tt else _attachLoop) ;;;
  ret id.

(** [cancelAnimationFrame(id)] *)
Definition cancelAnimationFrame (id : nat) (w : World) : World :=
  emit (AUnregistered id)
    (set_renderer (fun r =>
       with_rafCallbacks (map_delete id (_rafCallbacks r)) r) w).

(** What a one-shot callback does when it is called. *)
Definition run_action (a : Action) : M unit :=
  match a with
  | ARequest name body =>
      requestAnimationFrame (mkCallback name body) ;;; ret tt
  | ACancel id => lift (cancelAnimationFrame id)
  | AThrow => throw (JSError "thrown by a callback")
  end.

Definition call (time : nat) (frame : option Frame) (c : Callback)
    : M unit :=
  lift (emit (AInvoke (cb_name c) time frame)) ;;;
  for_each run_action (cb_body c).

(** [_internalLoop(time, frame)] *)
Definition _internalLoop (time : nat) (frame : option Frame) : M unit :=
  callbacks <- gets (fun w => map_values (_rafCallbacks (renderer w))) ;;
  lift (set_renderer (with_rafCallbacks [])) ;;;
  for_each (call time frame) callbacks ;;;
  _attachLoop.

(** *** Session events *)

(** [onSessionLost()] *)
Definition onSessionLost : M unit :=
  lift _clearLoop ;;;
  ls <- gets (fun w => r_layers (renderer w)) ;;
  (* clear refs to native *)
  for_each (fun l => bindLayer l None) ls ;;;
  (* rerun render loop *)
  _attachLoop ;;;
  lift (emit (CWarn "XR Session end")).

(** [onSessionStart()] *)
Definition onSessionStart : M unit :=
  _attachLoop ;;;
  (* must be, because we should render *)
  XRState.getLayer TBase None ;;;
  ls <- gets (fun w => r_layers (renderer w)) ;;
  for_each (fun l => bindNativeLayerTo l ;;; ret tt) ls.

(** The session life cycle with the renderer's two listeners attached. *)
Definition xr_end := XRState.end_ onSessionStart onSessionLost.
Definition host_endSession :=
  XRState.host_endSession onSessionStart onSessionLost.
Definition xr_init := XRState.init onSessionStart onSessionLost.

(** *** requestXR

    An [async] function runs in pieces.  [requestXR_guard] is the test on
    entry ([true]: return [Promise.resolve()] at once).  Then the call
    waits for [this.gl.makeXRCompatible()]; when that rejects the call ends
    there, rejected.  When it resolves, [requestXR_negotiate] runs up to
    the [await] inside [requestSession]; [requestXR_settle] runs from the
    host's answer to the end, [Throw] being a rejected promise. *)
Definition requestXR_guard (w : World) : bool := XRState.active w.

Definition requestXR_negotiate (w : World) : World :=
  XRState.requestSession_begin onSessionStart onSessionLost (_clearLoop w).

(** [try { m } finally { f }] *)
Definition try_finally {A} (m : M A) (f : M unit) : M A := fun w =>
  match m w with
  | Ok a w' =>
      match f w' with Ok _ w'' => Ok a w'' | Throw e w'' => Throw e w'' end
  | Throw e w' =>
      match f w' with Ok _ w'' => Throw e w'' | Throw e' w'' => Throw e' w'' end
  end.

Definition requestXR_settle (o : XRState.Negotiation) : M unit :=
  try_finally (XRState.requestSession_settle onSessionStart onSessionLost o)
              _attachLoop.

(** What the host answers to one call of [requestXR]:
    [makeXRCompatible()] rejects, or it resolves and the negotiation ends
    as [o]. *)
Inductive XRAnswer :=
| CompatibleRejected
| Negotiated (o : XRState.Negotiation).

(** [requestXR(options)] from the call to the end, when nothing else runs
    while it waits. *)
Definition requestXR (a : XRAnswer) : M unit :=
  active <- gets requestXR_guard ;;
  if active then ret tt
  else
    match a with
    | CompatibleRejected => throw (TypeError "makeXRCompatible() rejected")
    | Negotiated o => lift requestXR_negotiate ;;; requestXR_settle o
    end.

(** *** The host fires a frame request *)
Definition live (w : World) (src : Source) : bool :=
  match src, h_live (host w) with
  | Display, _ => true
  | OfSession s, Some s' => s =? s'
  | OfSession _, None => false
  end.

Definition fire (src : Source) (id : nat) (time : nat) (frame : Frame)
    : M unit :=
  lift (drop_request src id) ;;;
  match src with
  | Display => _internalLoop time None
  | OfSession _ => XRState.frameCallback _internalLoop time frame
  end.

(** *** The constructor

    A renderer with its session state; the logical layers the application
    will create are in their constructor state. *)
Definition new_XRRenderer (classes : LayerId -> LayerClass)
    (options : LayerId -> Options) : World :=
  {| layersSupport := false;
     xr := {| session := None; space := None; layers := [];
              baseLayer := None; baseLayerTarget := None;
              lastXRFrame := None; glBinding := None;
              onEnd_fn := mkFn 0 MOnEnd;
              onInputChanged_fn := mkFn 1 MOnInputChanged |};
     renderer := {| r_layers := []; _rafCallbacks := []; _calbackID := 0;
                    _clearLoopDel := None |};
     heap := fun l => new_layer (classes l) (options l) 0;
     host := {| h_fresh := 2; h_rafid := 0; h_live := None;
                h_listeners := []; h_outstanding := [] |};
     log := [] |}.

End XRRenderer.

(** ** Runs: what the application and the host can do to a renderer

    A call of [requestXR] is three events, between which anything else can
    happen: the call itself, which tests the guard and changes nothing;
    [makeXRCompatible()] settling; and the host's answer to the
    negotiation.  The world does not record which calls are waiting: any
    number of calls can have been made on the new renderer, where the
    guard lets them pass, so their later pieces can come at any time. *)
Inductive Ev :=
| EvRequestAnimationFrame (c : Callback)
| EvCancelAnimationFrame (id : nat)
| EvFrame (src : Source) (id : nat) (time : nat) (frame : Frame)
    (* the host fires an outstanding request of a running clock *)
| EvAttachLoop                         (* _attachLoop() *)
| EvRequestXR                          (* requestXR() is called *)
| EvXRCompatible (ok : bool)           (* makeXRCompatible() settles *)
| EvSettle (o : XRState.Negotiation)   (* the host answers the negotiation *)
| EvSessionEnd                         (* the host ends the running session *)
| EvEnd                                (* xr.end() *)
| EvRegisterLayer (l : LayerId)
| EvDestroyLayer (l : LayerId)
| EvBindLayer (l : LayerId) (n : option Native)
| EvUpdate (l : LayerId)
| EvNeedUpdateTransform (l : LayerId)
| EvMove (l : LayerId) (p : Pose).     (* the application moves a layer *)

(** A host runs one immersive session at a time: it grants a session only
    while none is running. *)
Definition grants (o : XRState.Negotiation) : bool :=
  match o with XRState.SessionRejected => false | _ => true end.

(** The argument of [bindLayer(layer: T | null)] is a composition layer
    ([T extends XRCompositionLayer]). *)
Definition composition_layer (n : option Native) : bool :=
  match n with Some n' => has_destroy n' | None => true end.

(** [step e w]: the world after [e], or [None] when [e] cannot happen in
    [w].  An exception the call throws goes to the caller; the world it
    leaves behind is the next world. *)
Definition step (e : Ev) (w : World) : option World :=
  match e with
  | EvRequestAnimationFrame c =>
      Some (world_of (XRRenderer.requestAnimationFrame c w))
  | EvCancelAnimationFrame id => Some (XRRenderer.cancelAnimationFrame id w)
  | EvFrame src id time frame =>
      if existsb (same_request (src, id)) (h_outstanding (host w))
         && XRRenderer.live w src
      then Some (world_of (XRRenderer.fire src id time frame w))
      else None
  | EvAttachLoop => Some (world_of (XRRenderer._attachLoop w))
  | EvRequestXR => Some w
  | EvXRCompatible ok =>
      if ok then Some (XRRenderer.requestXR_negotiate w) else Some w
  | EvSettle o =>
      if grants o && is_some (h_live (host w)) then None
      else Some (world_of (XRRenderer.requestXR_settle o w))
  | EvSessionEnd =>
      match h_live (host w) with
      | Some s => Some (XRRenderer.host_endSession s w)
      | None => None
      end
  | EvEnd => Some (XRRenderer.xr_end w)
  | EvRegisterLayer l => Some (world_of (XRRenderer.registerLayer l w))
  | EvDestroyLayer l => Some (world_of (XRRenderer.destroy l w))
  | EvBindLayer l n =>
      if composition_layer n
      then Some (world_of (XRRenderer.bindLayer l n w))
      else None
  | EvUpdate l => Some (world_of (OGLXRLayer.update l w))
  | EvNeedUpdateTransform l => Some (OGLXRLayer.needUpdateTransform l w)
  | EvMove l p => Some (set_layer l (with_pose p) w)
  end.

Fixpoint run (evs : list Ev) (w : World) : option World :=
  match evs with
  | [] => Some w
  | e :: evs' =>
      match step e w with
      | Some w' => run evs' w'
      | None => None
      end
  end.

(** The worlds a renderer can be in. *)
Definition reachable (w : World) : Prop :=
  exists classes options evs,
    run evs (XRRenderer.new_XRRenderer classes options) = Some w.


(** * Verification *)

(** ** Proof tools *)

Ltac break_match :=
  match goal with
  | |- context [match ?x with _ => _ end] =>
      first [is_var x; destruct x | destruct x eqn:?]
  end.

Ltac break_match_hyp :=
  match goal with
  | H : context [match ?x with _ => _ end] |- _ =>
      first [is_var x; destruct x | destruct x eqn:?]
  end.

Ltac unfold_m :=
  unfold bind, ret, throw, lift, gets, try_catch, world_of in *.

(** Projections of updated worlds. *)
Ltac wsimpl :=
  unfold set_layer, set_layersSupport, set_xr, set_renderer, set_heap,
    set_host, emit;
  simpl.

Ltac wsimpl_in H :=
  unfold set_layer, set_layersSupport, set_xr, set_renderer, set_heap,
    set_host, emit in H;
  simpl in H.

(** [m] keeps [P], whether it returns or throws. *)
Definition preserves {A} (P : World -> Prop) (m : M A) : Prop :=
  forall w, P w -> P (world_of (m w)).

Section Preserves.
Context {P : World -> Prop}.

Lemma preserves_ret {A} (a : A) : preserves P (ret a).
Proof. intros w H. exact H. Qed.

Lemma preserves_throw {A} (e : Error) : preserves P (@throw A e).
Proof. intros w H. exact H. Qed.

Lemma preserves_gets {A} (f : World -> A) : preserves P (gets f).
Proof. intros w H. exact H. Qed.

Lemma preserves_lift (f : World -> World) :
  (forall w, P w -> P (f w)) -> preserves P (lift f).
Proof. intros Hf w H. apply Hf, H. Qed.

Lemma preserves_bind {A B} (m : M A) (k : A -> M B) :
  preserves P m -> (forall a, preserves P (k a)) -> preserves P (bind m k).
Proof.
  intros Hm Hk w H. unfold bind. specialize (Hm w H).
  destruct (m w) as [a w'|e w']; simpl in *; [apply Hk, Hm | exact Hm].
Qed.

Lemma preserves_try_catch {A} (m : M A) (h : Error -> M A) :
  preserves P m -> (forall e, preserves P (h e)) ->
  preserves P (try_catch m h).
Proof.
  intros Hm Hh w H. unfold try_catch. specialize (Hm w H).
  destruct (m w) as [a w'|e w']; simpl in *; [exact Hm | apply Hh, Hm].
Qed.

Lemma preserves_for_each {A} (body : A -> M unit) (xs : list A) :
  (forall x, preserves P (body x)) -> preserves P (for_each body xs).
Proof.
  intros Hb. induction xs as [|x xs IH]; simpl.
  - apply preserves_ret.
  - apply preserves_bind; [apply Hb | intros _; exact IH].
Qed.

Lemma preserves_fold_left {A} (f : World -> A -> World) (xs : list A) :
  (forall x w, P w -> P (f w x)) ->
  forall w, P w -> P (fold_left f xs w).
Proof.
  intros Hf. induction xs as [|x xs IH]; simpl; intros w H;
    [exact H | apply IH, Hf, H].
Qed.

(** A computation that first reads the world. *)
Lemma preserves_read {A} (m : World -> M A) :
  (forall w0, preserves P (m w0)) -> preserves P (fun w => m w w).
Proof. intros Hm w H. apply (Hm w w H). Qed.
End Preserves.

(** A Hoare triple for the monad: from a world in [P], [m] returns [a] in a
    world in [Q a], or throws in a world in [E]. *)
Definition triple {A} (P : World -> Prop) (m : M A)
    (Q : A -> World -> Prop) (E : World -> Prop) : Prop :=
  forall w, P w ->
    match m w with
    | Ok a w' => Q a w'
    | Throw _ w' => E w'
    end.

Section Triples.
Context {A B : Type}.

Lemma triple_ret (P : World -> Prop) (a : A) Q E :
  (forall w, P w -> Q a w) -> triple P (ret a) Q E.
Proof. intros H w Hw. apply H, Hw. Qed.

Lemma triple_throw (P : World -> Prop) e (Q : A -> World -> Prop) E :
  (forall w, P w -> E w) -> triple P (throw e) Q E.
Proof. intros H w Hw. apply H, Hw. Qed.

Lemma triple_gets (P : World -> Prop) (f : World -> A) Q E :
  (forall w, P w -> Q (f w) w) -> triple P (gets f) Q E.
Proof. intros H w Hw. apply H, Hw. Qed.

Lemma triple_lift (P : World -> Prop) (f : World -> World) Q E :
  (forall w, P w -> Q tt (f w)) -> triple P (lift f) Q E.
Proof. intros H w Hw. apply H, Hw. Qed.

Lemma triple_bind (P : World -> Prop) (m : M A) (k : A -> M B) R Q E :
  triple P m R E -> (forall a, triple (R a) (k a) Q E) ->
  triple P (bind m k) Q E.
Proof.
  intros Hm Hk w Hw. unfold bind. specialize (Hm w Hw).
  destruct (m w) as [a w'|e w']; [apply Hk, Hm | exact Hm].
Qed.

(** Reading the world and going on with what was read. *)
Lemma triple_bind_gets (P : World -> Prop) (f : World -> A)
    (k : A -> M B) Q E :
  (forall a, triple (fun w => P w /\ f w = a) (k a) Q E) ->
  triple P (bind (gets f) k) Q E.
Proof. intros Hk w Hw. unfold bind, gets. apply Hk. auto. Qed.

Lemma triple_try_catch (P : World -> Prop) (m : M A) h Q E' E :
  triple P m Q E' -> (forall e, triple E' (h e) Q E) ->
  triple P (try_catch m h) Q E.
Proof.
  intros Hm Hh w Hw. unfold try_catch. specialize (Hm w Hw).
  destruct (m w) as [a w'|e w']; [exact Hm | apply Hh, Hm].
Qed.

Lemma triple_conseq (P P' : World -> Prop) (m : M A)
    (Q Q' : A -> World -> Prop) (E E' : World -> Prop) :
  triple P' m Q' E' ->
  (forall w, P w -> P' w) -> (forall a w, Q' a w -> Q a w) ->
  (forall w, E' w -> E w) ->
  triple P m Q E.
Proof.
  intros H HP HQ HE w Hw. specialize (H w (HP w Hw)).
  destruct (m w); auto.
Qed.

Lemma triple_conj (P P' : World -> Prop) (m : M A) Q Q' E E' :
  triple P m Q E -> triple P' m Q' E' ->
  triple (fun w => P w /\ P' w) m (fun a w => Q a w /\ Q' a w)
         (fun w => E w /\ E' w).
Proof.
  intros H H' w [Hw Hw']. specialize (H w Hw). specialize (H' w Hw').
  destruct (m w); auto.
Qed.

Lemma preserves_triple (P : World -> Prop) (m : M A) :
  preserves P m <-> triple P m (fun _ => P) P.
Proof.
  split; intros H w Hw; generalize (H w Hw);
    destruct (m w); simpl; auto.
Qed.
End Triples.

Lemma triple_for_each {A} (I : World -> Prop) (body : A -> M unit) xs E :
  (forall x, triple I (body x) (fun _ => I) E) ->
  triple I (for_each body xs) (fun _ => I) E.
Proof.
  intros Hb. induction xs as [|x xs IH]; simpl.
  - apply triple_ret. auto.
  - eapply triple_bind; [apply Hb | intros u; exact IH].
Qed.

(** The combinators, applied until only facts about pure functions are
    left; [leaf] handles those. *)
Ltac pres_with leaf :=
  repeat first
    [ solve [auto with pres]
    | match goal with
      | |- preserves _ (ret _) => apply preserves_ret
      | |- preserves _ (throw _) => apply preserves_throw
      | |- preserves _ (gets _) => apply preserves_gets
      | |- preserves _ (bind _ _) => apply preserves_bind; [| intros ?]
      | |- preserves _ (try_catch _ _) =>
          apply preserves_try_catch; [| intros ?]
      | |- preserves _ (for_each _ _) => apply preserves_for_each; intros ?
      | |- preserves _ (lift _) => apply preserves_lift; solve [leaf]
      | |- preserves _ (match ?x with _ => _ end) => destruct x
      end ].

(** ** Frames: what the layer methods leave alone

    The layer classes, the layer part of [XRState] and the renderer's layer
    methods never touch the scheduler or the session; of a logical layer
    they never change the class, never clear the dirty flag, and never give
    fallback geometry to an instance of the base class.  With [reg = true]
    the registry is kept as well. *)
Record layer_frame (reg : bool) (w0 w : World) : Prop := mk_layer_frame {
  lf_support : layersSupport w = layersSupport w0;
  lf_session : session (xr w) = session (xr w0);
  lf_space : space (xr w) = space (xr w0);
  lf_frame : lastXRFrame (xr w) = lastXRFrame (xr w0);
  lf_fns : onEnd_fn (xr w) = onEnd_fn (xr w0)
           /\ onInputChanged_fn (xr w) = onInputChanged_fn (xr w0);
  lf_registry : reg = true -> r_layers (renderer w) = r_layers (renderer w0);
  lf_callbacks : _rafCallbacks (renderer w) = _rafCallbacks (renderer w0);
  lf_calbackID : _calbackID (renderer w) = _calbackID (renderer w0);
  lf_del : _clearLoopDel (renderer w) = _clearLoopDel (renderer w0);
  lf_rafid : h_rafid (host w) = h_rafid (host w0);
  lf_live : h_live (host w) = h_live (host w0);
  lf_listeners : h_listeners (host w) = h_listeners (host w0);
  lf_outstanding : h_outstanding (host w) = h_outstanding (host w0);
  lf_fresh : h_fresh (host w0) <= h_fresh (host w);
  lf_class : forall l, l_class (heap w l) = l_class (heap w0 l);
  lf_dirty : forall l, transformDirty (heap w0 l) = true ->
                       transformDirty (heap w l) = true;
  lf_emulated : forall l, l_class (heap w0 l) = COGLXRLayer ->
      emulatedLayers (heap w l) = None
      \/ emulatedLayers (heap w l) = emulatedLayers (heap w0 l);
  lf_transform : forall l t, nativeTransform (heap w l) = Some t ->
      nativeTransform (heap w0 l) = Some t
      \/ h_fresh (host w0) <= t_id t < h_fresh (host w);
  lf_cb : forall l, onLayerDestroy_cb (heap w0 l) = CbRenderer ->
                    onLayerDestroy_cb (heap w l) = CbRenderer
}.

Lemma lf_refl reg w : layer_frame reg w w.
Proof. constructor; auto. Qed.

Lemma lf_trans reg w0 w1 w2 :
  layer_frame reg w0 w1 -> layer_frame reg w1 w2 -> layer_frame reg w0 w2.
Proof.
  intros H0 H1. destruct H0, H1.
  constructor; try congruence; try lia.
  - destruct lf_fns0, lf_fns1. split; congruence.
  - intros Hr. rewrite lf_registry1, lf_registry0; auto.
  - auto.
  - intros l Hl.
    destruct (lf_emulated1 l) as [H|H];
      [rewrite lf_class0; exact Hl | left; exact H |].
    rewrite H. apply lf_emulated0, Hl.
  - intros l t Ht.
    destruct (lf_transform1 l t Ht) as [H|H]; [|right; lia].
    destruct (lf_transform0 l t H) as [H'|H']; [left; exact H' | right; lia].
  - auto.
Qed.

Lemma lf_weaken reg w0 w : layer_frame true w0 w -> layer_frame reg w0 w.
Proof. intros []. constructor; auto. Qed.

(** One step of a pure function, chained onto what is known so far. *)
Lemma lf_step reg (f : World -> World) :
  (forall w, layer_frame reg w (f w)) ->
  forall w0 w, layer_frame reg w0 w -> layer_frame reg w0 (f w).
Proof. intros Hf w0 w H. eapply lf_trans; [exact H | apply Hf]. Qed.

Lemma lf_frames {A} reg (m : M A) :
  (forall w0, preserves (layer_frame reg w0) m) ->
  forall w, layer_frame reg w (world_of (m w)).
Proof. intros H w. apply H, lf_refl. Qed.

Lemma lf_fold_left {A} reg (f : World -> A -> World) :
  (forall x w, layer_frame reg w (f w x)) ->
  forall xs w, layer_frame reg w (fold_left f xs w).
Proof.
  intros Hf xs. induction xs as [|x xs IH]; simpl; intros w.
  - apply lf_refl.
  - eapply lf_trans; [apply Hf | apply IH].
Qed.

(** A field update of one layer that keeps class, dirty flag and fallback
    geometry. *)
Lemma lf_set_layer reg l (f : OGLXRLayer -> OGLXRLayer) :
  (forall L, l_class (f L) = l_class L) ->
  (forall L, transformDirty L = true -> transformDirty (f L) = true) ->
  (forall L, l_class L = COGLXRLayer ->
             emulatedLayers (f L) = None
             \/ emulatedLayers (f L) = emulatedLayers L) ->
  (forall L, nativeTransform (f L) = None
             \/ nativeTransform (f L) = nativeTransform L) ->
  (forall L, onLayerDestroy_cb L = CbRenderer ->
             onLayerDestroy_cb (f L) = CbRenderer) ->
  forall w, layer_frame reg w (set_layer l f w).
Proof.
  intros Hc Hd He Ht Hcb w. constructor; simpl; auto; intros l'; unfold upd;
    destruct (l' =? l) eqn:E; auto;
    apply Nat.eqb_eq in E; subst; auto.
  intros t H. destruct (Ht (heap w l)) as [H'|H']; [congruence|].
  left. congruence.
Qed.

Ltac lf_one :=
  first
    [ apply lf_set_layer; intros; simpl; auto
    | apply lf_refl
    | constructor; simpl; auto; try lia ].

Create HintDb pres.

Lemma lf_emit reg e w : layer_frame reg w (emit e w).
Proof. lf_one. Qed.

Lemma lf_addChild reg l m w : layer_frame reg w (OGLXRLayer.addChild l m w).
Proof.
  apply lf_set_layer; intros L; destruct (existsb (Nat.eqb m) (l_children L));
    simpl; auto.
Qed.

Lemma lf_removeChild reg l m w :
  layer_frame reg w (OGLXRLayer.removeChild l m w).
Proof. lf_one. Qed.

Lemma lf_destroyNative reg l w :
  layer_frame reg w (OGLXRLayer.destroyNative l w).
Proof.
  unfold OGLXRLayer.destroyNative. cbv zeta.
  apply lf_step; [intros; lf_one|]. apply lf_step; [intros; lf_one|].
  destruct (nativeLayer (heap w l)); lf_one.
Qed.

Lemma lf_destroyFallback reg l w :
  layer_frame reg w (OGLXRLayer.destroyFallback l w).
Proof.
  unfold OGLXRLayer.destroyFallback, OGLXRLayer._removeFallbackLayers.
  destruct (emulatedLayers (heap w l)); [|apply lf_refl]. cbv zeta.
  apply lf_step; [intros; lf_one|].
  apply lf_fold_left. intros. apply lf_removeChild.
Qed.

#[global] Hint Resolve lf_refl lf_emit lf_addChild lf_removeChild
  lf_destroyNative lf_destroyFallback : pres.

Ltac lf_leaf' :=
  let w := fresh "w" in
  let H := fresh "H" in
  intros w H; eapply lf_trans; [exact H|];
  first [ solve [auto with pres]
        | solve [apply lf_fold_left; intros; auto with pres]
        | lf_one ].

Ltac lf_pres := intros; pres_with lf_leaf'.

Section LayerFrames.
Variable reg : bool.
Variable w0 : World.
Local Abbreviation P := (layer_frame reg w0).

Lemma lf_fresh_m : preserves P fresh.
Proof.
  intros w H. simpl. eapply lf_trans; [exact H|].
  constructor; simpl; auto.
Qed.
Hint Resolve lf_fresh_m : pres.

Lemma lf_need_session : preserves P XRState.need_session.
Proof. unfold XRState.need_session. lf_pres. Qed.
Hint Resolve lf_need_session : pres.

Lemma lf_updateRenderState : preserves P XRState.updateRenderState.
Proof.
  unfold XRState.updateRenderState. lf_pres.
  apply preserves_lift. intros w H. eapply lf_trans; [exact H|].
  destruct (layersSupport w); apply lf_emit.
Qed.
Hint Resolve lf_updateRenderState : pres.

Lemma lf_onLayerDestroy n : preserves P (XRState.onLayerDestroy n).
Proof. unfold XRState.onLayerDestroy. lf_pres. Qed.
Hint Resolve lf_onLayerDestroy : pres.

Lemma lf_getLayer t o : preserves P (XRState.getLayer t o).
Proof.
  unfold XRState.getLayer, XRState.new_XRWebGLLayer,
    XRState.binding_or_new, XRState.new_XRWebGLBinding,
    XRState.createLayer, XRState.new_XRRenderTarget.
  lf_pres.
Qed.
Hint Resolve lf_getLayer : pres.

Lemma lf_createFallbackLayers l :
  preserves P (OGLXRLayer._createFallbackLayers l).
Proof.
  unfold OGLXRLayer._createFallbackLayers, OGLXRLayer.new_QuadPrimitive.
  lf_pres.
Qed.
Hint Resolve lf_createFallbackLayers : pres.

(** The one place where a transform object is made: it is new. *)
Lemma lf_super_updateNative l :
  preserves P (OGLXRLayer.super_updateNative l).
Proof.
  intros w H. eapply lf_trans; [exact H|].
  unfold OGLXRLayer.super_updateNative, bind, gets, fresh, lift.
  destruct (transformDirty (heap w l)
            || negb (is_some (nativeTransform (heap w l))));
    [|apply lf_refl].
  constructor; simpl; auto; intros l'; unfold upd;
    destruct (l' =? l) eqn:E; auto;
    apply Nat.eqb_eq in E; subst; simpl; auto.
  intros t [= <-]. right. simpl. lia.
Qed.
Hint Resolve lf_super_updateNative : pres.

Lemma lf_updateNative l : preserves P (OGLXRLayer._updateNative l).
Proof.
  unfold OGLXRLayer._updateNative, OGLXRLayer.push_transform.
  lf_pres.
Qed.
Hint Resolve lf_updateNative : pres.

Lemma lf_update l : preserves P (OGLXRLayer.update l).
Proof. unfold OGLXRLayer.update. lf_pres. Qed.
End LayerFrames.

#[global] Hint Resolve lf_fresh_m lf_need_session lf_updateRenderState
  lf_onLayerDestroy lf_getLayer lf_createFallbackLayers
  lf_super_updateNative lf_updateNative lf_update : pres.

(** Only a quad layer gets fallback geometry: the base class throws. *)
Lemma createFallbackLayers_ok l w ms w' :
  OGLXRLayer._createFallbackLayers l w = Ok ms w' ->
  l_class (heap w l) = COGLQuadLayer.
Proof.
  unfold OGLXRLayer._createFallbackLayers, bind, gets, throw.
  destruct (l_class (heap w l)); [discriminate | reflexivity].
Qed.

Lemma lf_set_emulated reg l v w :
  l_class (heap w l) = COGLQuadLayer ->
  layer_frame reg w (set_layer l (with_emulatedLayers v) w).
Proof.
  intros Hq. constructor; simpl; auto; intros l'; unfold upd;
    destruct (l' =? l) eqn:E; auto;
    apply Nat.eqb_eq in E; subst; simpl; auto.
  rewrite Hq. discriminate.
Qed.

Lemma lf_createFallback reg w0 l :
  preserves (layer_frame reg w0) (OGLXRLayer.createFallback l).
Proof.
  intros w H. unfold OGLXRLayer.createFallback, bind, gets, lift.
  destruct (is_some (emulatedLayers (heap w l))); [exact H|].
  pose proof (lf_frames reg (OGLXRLayer._createFallbackLayers l)
                (fun w0 => lf_createFallbackLayers reg w0 l) w) as Hf.
  destruct (OGLXRLayer._createFallbackLayers l w) as [ms w1|e w1] eqn:E;
    simpl in *; [|eapply lf_trans; eassumption].
  apply createFallbackLayers_ok in E.
  eapply lf_trans; [exact H|]. eapply lf_trans; [exact Hf|].
  eapply lf_trans; [apply lf_set_emulated|].
  - rewrite (lf_class _ _ _ Hf). exact E.
  - apply lf_fold_left. intros. apply lf_addChild.
Qed.
#[global] Hint Resolve lf_createFallback : pres.

Section RendererFrames.
Variable w0 : World.

(** The native-only notification keeps the registry. *)
Lemma lf_onLayerDestroy_native reg l :
  preserves (layer_frame reg w0) (XRRenderer._onLayerDestroy l true).
Proof. unfold XRRenderer._onLayerDestroy. simpl. lf_pres. Qed.

Lemma lf_onLayerDestroy_full l b :
  preserves (layer_frame false w0) (XRRenderer._onLayerDestroy l b).
Proof.
  unfold XRRenderer._onLayerDestroy. lf_pres.
Qed.

Lemma lf_bindLayer reg l n :
  preserves (layer_frame reg w0) (XRRenderer.bindLayer l n).
Proof.
  pose proof (lf_onLayerDestroy_native reg l).
  unfold XRRenderer.bindLayer, OGLXRLayer.bindLayer,
    OGLXRLayer.call_onLayerDestroy.
  lf_pres.
Qed.

Lemma lf_destroy l :
  preserves (layer_frame false w0) (XRRenderer.destroy l).
Proof.
  pose proof (lf_onLayerDestroy_full l false).
  unfold XRRenderer.destroy, OGLXRLayer.destroy,
    OGLXRLayer.call_onLayerDestroy.
  lf_pres.
Qed.

Lemma lf_bindNativeLayerTo reg l :
  preserves (layer_frame reg w0) (XRRenderer.bindNativeLayerTo l).
Proof.
  pose proof (lf_bindLayer reg l).
  unfold XRRenderer.bindNativeLayerTo. lf_pres.
Qed.

Lemma lf_registerLayer l :
  preserves (layer_frame false w0) (XRRenderer.registerLayer l).
Proof.
  pose proof (lf_bindNativeLayerTo false l).
  unfold XRRenderer.registerLayer.
  apply preserves_bind; [|lf_pres].
  apply preserves_lift. intros w H'. eapply lf_trans; [exact H'|].
  constructor; simpl; auto; try discriminate;
    destruct (existsb (Nat.eqb l) (r_layers (renderer w))); reflexivity.
Qed.
End RendererFrames.

(** ** The native / fallback representation of a layer (C2) *)

Lemma upd_same l v h : upd l v h l = v.
Proof. unfold upd. rewrite Nat.eqb_refl. reflexivity. Qed.

Lemma onLayerDestroy_returns n w :
  exists w', XRState.onLayerDestroy n w = Ok tt w' /\ heap w' = heap w.
Proof.
  unfold XRState.onLayerDestroy, XRState.updateRenderState,
    XRState.need_session, XRState.active, bind, gets, lift, ret.
  destruct (layersSupport w) eqn:Hs; simpl; [|eauto].
  destruct (session (xr w)) eqn:Hx; simpl; [|eauto].
  unfold set_xr at 1. simpl. rewrite Hx. simpl. rewrite Hs. eauto.
Qed.

Lemma renderer_onLayerDestroy_returns l b w :
  exists w', XRRenderer._onLayerDestroy l b w = Ok tt w' /\ heap w' = heap w.
Proof.
  unfold XRRenderer._onLayerDestroy, bind, gets, lift, ret.
  destruct b; simpl.
  - destruct (nativeLayer (heap w l)); [apply onLayerDestroy_returns | eauto].
  - destruct (nativeLayer (heap w l)) as [n|]; [|eauto].
    match goal with
    | |- context [XRState.onLayerDestroy n ?w1] =>
        destruct (onLayerDestroy_returns n w1) as (w' & E & Hh);
        rewrite E; eauto
    end.
Qed.

Lemma call_onLayerDestroy_returns l b w :
  exists w',
    OGLXRLayer.call_onLayerDestroy XRRenderer._onLayerDestroy l b w = Ok tt w'
    /\ heap w' = heap w.
Proof.
  unfold OGLXRLayer.call_onLayerDestroy, bind, gets, ret.
  destruct (onLayerDestroy_cb (heap w l)); [eauto|].
  apply renderer_onLayerDestroy_returns.
Qed.

Lemma bind_gets {A B} (f : World -> A) (k : A -> M B) w :
  bind (gets f) k w = k (f w) w.
Proof. reflexivity. Qed.

Lemma bind_lift {B} (f : World -> World) (k : unit -> M B) w :
  bind (lift f) k w = k tt (f w).
Proof. reflexivity. Qed.

Lemma bind_ret {A B} (a : A) (k : A -> M B) w : bind (ret a) k w = k a w.
Proof. reflexivity. Qed.

(** The two representation fields of layer [l]. *)
Definition repr (w : World) (l : LayerId) :=
  (nativeLayer (heap w l), emulatedLayers (heap w l)).

Lemma repr_fold_removeChild l ms w :
  repr (fold_left (fun w m => OGLXRLayer.removeChild l m w) ms w) l = repr w l.
Proof.
  revert w. induction ms as [|m ms IH]; simpl; intros w; [reflexivity|].
  rewrite IH. unfold repr. simpl. rewrite upd_same. reflexivity.
Qed.

Lemma repr_fold_addChild l ms w :
  repr (fold_left (fun w m => OGLXRLayer.addChild l m w) ms w) l = repr w l.
Proof.
  revert w. induction ms as [|m ms IH]; simpl; intros w; [reflexivity|].
  rewrite IH. unfold repr. simpl. rewrite upd_same.
  destruct (existsb (Nat.eqb m) (l_children (heap w l))); reflexivity.
Qed.

Lemma repr_destroyNative l w :
  repr (OGLXRLayer.destroyNative l w) l = (None, emulatedLayers (heap w l)).
Proof.
  unfold OGLXRLayer.destroyNative, repr. simpl. rewrite !upd_same. simpl.
  destruct (nativeLayer (heap w l)); reflexivity.
Qed.

Lemma repr_destroyFallback l w :
  repr (OGLXRLayer.destroyFallback l w) l = (nativeLayer (heap w l), None).
Proof.
  unfold OGLXRLayer.destroyFallback, OGLXRLayer._removeFallbackLayers.
  destruct (emulatedLayers (heap w l)) as [ms|] eqn:E.
  - pose proof (repr_fold_removeChild l ms w) as H. unfold repr in *.
    simpl. rewrite upd_same. simpl. congruence.
  - unfold repr. rewrite E. reflexivity.
Qed.

(** A property of one layer object that the scene graph's child list does
    not affect. *)
Section LayerLocal.
Variable Q : OGLXRLayer -> Prop.
Variable l : LayerId.
Hypothesis Q_children : forall L v, Q L -> Q (with_children v L).

Local Abbreviation P := (fun w : World => Q (heap w l)).

Lemma local_set_layer l' f w :
  (forall L, Q L -> Q (f L)) -> P w -> P (set_layer l' f w).
Proof.
  intros Hf H. simpl. unfold upd. destruct (l =? l') eqn:E; auto.
  apply Nat.eqb_eq in E. subst. auto.
Qed.

Lemma local_fresh : preserves P fresh.
Proof. intros w H. exact H. Qed.

Lemma local_addChild l' m w : P w -> P (OGLXRLayer.addChild l' m w).
Proof.
  apply local_set_layer. intros L HL.
  destruct (existsb (Nat.eqb m) (l_children L)); auto.
Qed.

Lemma local_removeChild l' m w : P w -> P (OGLXRLayer.removeChild l' m w).
Proof. apply local_set_layer. auto. Qed.

Lemma local_fold_addChild l' ms w :
  P w -> P (fold_left (fun w m => OGLXRLayer.addChild l' m w) ms w).
Proof.
  apply (preserves_fold_left (P := fun w => Q (heap w l))).
  intros. apply local_addChild. assumption.
Qed.

Lemma local_fold_removeChild l' ms w :
  P w -> P (fold_left (fun w m => OGLXRLayer.removeChild l' m w) ms w).
Proof.
  apply (preserves_fold_left (P := fun w => Q (heap w l))).
  intros. apply local_removeChild. assumption.
Qed.

Lemma local_updateNative l' :
  (forall L v, Q L -> Q (with_nativeTransform v L)) ->
  preserves P (OGLXRLayer._updateNative l').
Proof.
  intros Ht. pose proof local_fresh.
  unfold OGLXRLayer._updateNative, OGLXRLayer.super_updateNative,
    OGLXRLayer.push_transform.
  pres_with ltac:(intros w Hw; first [apply local_set_layer; auto | exact Hw]).
Qed.

Lemma local_createFallback l' :
  (forall L v, Q L -> Q (with_emulatedLayers v L)) ->
  preserves P (OGLXRLayer.createFallback l').
Proof.
  intros He. pose proof local_fresh.
  unfold OGLXRLayer.createFallback, OGLXRLayer._createFallbackLayers,
    OGLXRLayer.new_QuadPrimitive.
  pres_with ltac:(intros w Hw;
    first [ apply local_set_layer; auto
          | apply local_fold_addChild; exact Hw
          | exact Hw ]).
Qed.
End LayerLocal.

Lemma repr_updateNative l w :
  repr (world_of (OGLXRLayer._updateNative l w)) l = repr w l.
Proof.
  apply (local_updateNative
           (fun L => (nativeLayer L, emulatedLayers L) = repr w l) l);
    auto.
Qed.

Lemma native_createFallback l w :
  nativeLayer (heap (world_of (OGLXRLayer.createFallback l w)) l)
  = nativeLayer (heap w l).
Proof.
  apply (local_createFallback
           (fun L => nativeLayer L = nativeLayer (heap w l)) l); auto.
Qed.

(** After [bindLayer(layer)] with a handle, the layer holds exactly that
    handle and no fallback geometry; after [bindLayer(null)] it holds no
    handle.  This is so whether the call returns or throws (the base class
    throws "Not implemented" when asked for fallback geometry). *)
Lemma bindLayer_repr l layer w :
  let w' := world_of (XRRenderer.bindLayer l layer w) in
  match layer with
  | Some n => repr w' l = (Some n, None)
  | None => nativeLayer (heap w' l) = None
  end.
Proof.
  unfold XRRenderer.bindLayer, OGLXRLayer.bindLayer.
  rewrite bind_gets.
  assert (Hfirst : forall (k : M unit),
    exists w1,
      (match nativeLayer (heap w l) with
       | Some n =>
           if negb (same_native n layer)
           then OGLXRLayer.call_onLayerDestroy XRRenderer._onLayerDestroy l true
                  ;;; lift (OGLXRLayer.destroyNative l)
           else ret tt
       | None => ret tt
       end ;;; k) w = k w1
      /\ emulatedLayers (heap w1 l) = emulatedLayers (heap w l)
      /\ (layer = None -> nativeLayer (heap w1 l) = None)).
  { intros k. unfold bind at 1.
    destruct (nativeLayer (heap w l)) as [n|] eqn:En.
    - destruct (same_native n layer) eqn:Es; simpl.
      + exists w. repeat split; auto. intros ->. discriminate.
      + unfold bind, lift.
        destruct (call_onLayerDestroy_returns l true w) as (w1 & E1 & Hh).
        rewrite E1. eexists. split; [reflexivity|].
        pose proof (repr_destroyNative l w1) as Hr. unfold repr in Hr.
        rewrite Hh in Hr. split; congruence.
    - exists w. simpl. auto. }
  destruct layer as [n|].
  - destruct (Hfirst (lift (OGLXRLayer.destroyFallback l) ;;;
                      lift (set_layer l (with_nativeLayer (Some n))) ;;;
                      OGLXRLayer._updateNative l)) as (w1 & E & _ & _).
    cbv beta iota zeta. rewrite E, !bind_lift.
    rewrite repr_updateNative.
    pose proof (repr_destroyFallback l w1) as Hr. unfold repr in *.
    simpl. rewrite upd_same. simpl. congruence.
  - destruct (Hfirst (OGLXRLayer.createFallback l)) as (w1 & E & _ & Hn).
    cbv beta iota zeta. rewrite E, native_createFallback. auto.
Qed.

(** C2.  After any [bindLayer] call, with any argument and from any prior
    state of the layer (also one that held both representations), the
    layer does not hold a native handle and fallback primitives at the same
    time, and [isNative] holds exactly when a native handle is present and
    no fallback primitives are held. *)
Theorem bindLayer_never_native_and_fallback :
  forall (w : World) (l : LayerId) (layer : option Native),
    let L := heap (world_of (XRRenderer.bindLayer l layer w)) l in
    ~ (nativeLayer L <> None /\ emulatedLayers L <> None)
    /\ (OGLXRLayer.isNative L = true
        <-> nativeLayer L <> None /\ emulatedLayers L = None).
Proof.
  intros w l layer L. split.
  - pose proof (bindLayer_repr l layer w) as H. cbv zeta in H. fold L in H.
    unfold repr in H. fold L in H.
    destruct layer; intros [Hn He].
    + apply He. congruence.
    + apply Hn. exact H.
  - unfold OGLXRLayer.isNative.
    destruct (nativeLayer L), (emulatedLayers L); simpl; split;
      try discriminate; try (intros [? ?]; congruence); intros _;
      split; congruence.
Qed.

(** ** getLayer (C1, C9) *)

Ltac unfold_getLayer :=
  unfold XRState.getLayer, XRState.new_XRWebGLLayer, XRState.binding_or_new,
    XRState.new_XRWebGLBinding, XRState.createLayer,
    XRState.new_XRRenderTarget, XRState.updateRenderState,
    XRState.need_session, fresh, bind, gets, lift, ret, throw.

(** On a host without native layers a request for a type other than "base",
    or a request made when the list already holds two layers or more, is
    answered with a warning and [null]; nothing else changes. *)
Lemma getLayer_legacy_refused t o w :
  layersSupport w = false ->
  XRState.is_base t = false \/ 2 <= List.length (layers (xr w)) ->
  XRState.getLayer t o w
  = Ok None (emit (CWarn "[XR] Only single base layer is supported!") w).
Proof.
  intros Hs Hc. unfold_getLayer. rewrite Hs. simpl.
  replace (negb (XRState.is_base t) || (1 <? List.length (layers (xr w))))
    with true; [reflexivity|].
  symmetry. apply orb_true_iff.
  destruct Hc as [-> | Hc]; [left; reflexivity | right].
  apply Nat.ltb_lt. lia.
Qed.

(** With exactly one layer in the list the guard [length > 1] lets a
    request for "base" through: a second legacy layer is created. *)
Lemma getLayer_legacy_accepts_second o w s base :
  layersSupport w = false ->
  session (xr w) = Some s ->
  layers (xr w) = [base] ->
  exists w',
    XRState.getLayer TBase o w
    = Ok (Some (mkNative (h_fresh (host w)) KWebGLLayer)) w'
    /\ layers (xr w') = [mkNative (h_fresh (host w)) KWebGLLayer; base]
    /\ baseLayer (xr w') = Some (mkNative (h_fresh (host w)) KWebGLLayer)
    /\ log w'
       = log w ++ [HNewLayer (mkNative (h_fresh (host w)) KWebGLLayer);
                   HUpdateRenderState s
                     (RSBaseLayer
                        (Some (mkNative (h_fresh (host w)) KWebGLLayer)))].
Proof.
  destruct w as [ls [ses sp lys bl blt lf gb f1 f2] r hp ho lg].
  simpl. intros -> -> ->. cbv -[app]. eexists. split; [reflexivity|].
  cbv -[app]. repeat split. rewrite <- app_assoc. reflexivity.
Qed.

Definition no_options : Options := mkOptions None None None None.

(** The trace only grows. *)
Definition grows {A} (l0 l : list A) : Prop := exists suf, l = l0 ++ suf.

Lemma grows_refl {A} (l : list A) : grows l l.
Proof. exists []. symmetry. apply app_nil_r. Qed.

Lemma grows_snoc {A} (l0 l : list A) e : grows l0 l -> grows l0 (l ++ [e]).
Proof. intros [suf ->]. exists (suf ++ [e]). apply eq_sym, app_assoc. Qed.

Lemma grows_trans {A} (l0 l1 l2 : list A) :
  grows l0 l1 -> grows l1 l2 -> grows l0 l2.
Proof. intros [s1 ->] [s2 ->]. exists (s1 ++ s2). apply eq_sym, app_assoc. Qed.

Lemma grows_last {A} (l0 l : list A) e :
  grows l0 l -> exists pre, l ++ [e] = l0 ++ pre ++ [e].
Proof. intros [suf ->]. exists suf. apply eq_sym, app_assoc. Qed.

(** What a successful [getLayer] leaves behind. *)
Lemma getLayer_created t o w n w' :
  XRState.getLayer t o w = Ok (Some n) w' ->
  layers (xr w') = n :: layers (xr w)
  /\ layersSupport w' = layersSupport w
  /\ exists s,
       session (xr w) = Some s
       /\ exists pre,
            log w'
            = log w ++ pre
              ++ [HUpdateRenderState s
                    (if layersSupport w then RSLayers (n :: layers (xr w))
                     else RSBaseLayer (Some n))].
Proof.
  destruct w as [ls [ses sp lys bl blt lf gb f1 f2] r hp ho lg].
  destruct ls, ses as [s|], gb, t;
    try (intros H; discriminate H);
    cbv -[app Nat.ltb List.length];
    try (destruct (1 <? Datatypes.length lys); try (intros H; discriminate H));
    intros H; injection H as <- <-;
    (split; [reflexivity|]); (split; [reflexivity|]);
    exists s; (split; [reflexivity|]);
    apply grows_last; repeat apply grows_snoc; apply grows_refl.
Qed.

(** A host without native layers, right after the session has started:
    [onSessionStart] has allocated the legacy base layer. *)
Definition legacy_session_started : World :=
  world_of
    (XRRenderer.requestXR_settle (XRState.Granted false)
       (XRRenderer.requestXR_negotiate
          (XRRenderer.new_XRRenderer (fun _ => COGLQuadLayer)
                                     (fun _ => no_options)))).

(** C1 (the code at the failing input).  On a host without native layers
    the session start allocates the legacy base layer; a further
    [getLayer(gl, "base")] then finds one layer in the list, passes the
    guard [this.layers.length > 1], creates a second [XRWebGLLayer], puts
    it at the front of the list and returns it, without any warning. *)
Theorem getLayer_legacy_second_base_layer_is_created :
  let w := legacy_session_started in
  run [EvRequestXR; EvXRCompatible true; EvSettle (XRState.Granted false)]
      (XRRenderer.new_XRRenderer (fun _ => COGLQuadLayer)
                                 (fun _ => no_options)) = Some w
  /\ layersSupport w = false
  /\ XRState.active w = true
  /\ layers (xr w) = [mkNative 6 KWebGLLayer]
  /\ exists w',
       XRState.getLayer TBase None w = Ok (Some (mkNative 7 KWebGLLayer)) w'
       /\ layers (xr w') = [mkNative 7 KWebGLLayer; mkNative 6 KWebGLLayer]
       /\ ~ In (CWarn "[XR] Only single base layer is supported!") (log w').
Proof.
  cbv zeta.
  split; [vm_compute; reflexivity|].
  split; [vm_compute; reflexivity|].
  split; [vm_compute; reflexivity|].
  split; [vm_compute; reflexivity|].
  exists (world_of (XRState.getLayer TBase None legacy_session_started)).
  split; [vm_compute; reflexivity|].
  split; [vm_compute; reflexivity|].
  vm_compute. intros H.
  repeat (destruct H as [H|H]; [discriminate H|]). exact H.
Qed.

(** A host with native layers, right after the session has started:
    [onSessionStart] has allocated the projection layer. *)
Definition layers_session_started : World :=
  world_of
    (XRRenderer.requestXR_settle (XRState.Granted true)
       (XRRenderer.requestXR_negotiate
          (XRRenderer.new_XRRenderer (fun _ => COGLQuadLayer)
                                     (fun _ => no_options)))).

(** C9.  Whenever [getLayer] creates a layer (projection, quad or legacy),
    the new layer is at the front of the active-layer list, the rest of
    the list is as before, and the last thing the call does is the
    render-state sync: with the new list on a layer-capable host, with the
    new base layer on a legacy host.  In particular, on a layer-capable
    host, after the session start has allocated the base layer,
    [registerLayer(quadLayer)] binds a quad: the list then has length 2 and
    reads [quad; base] front to back. *)
Theorem getLayer_pushes_front_and_syncs :
  (forall t o w n w',
      XRState.getLayer t o w = Ok (Some n) w' ->
      layers (xr w') = n :: layers (xr w)
      /\ exists s,
           session (xr w) = Some s
           /\ exists pre,
                log w'
                = log w ++ pre
                  ++ [HUpdateRenderState s
                        (if layersSupport w
                         then RSLayers (n :: layers (xr w))
                         else RSBaseLayer (Some n))])
  /\ (forall classes options q,
         classes q = COGLQuadLayer ->
         exists w quad base,
           run [EvRequestXR; EvXRCompatible true; EvSettle (XRState.Granted true);
                EvRegisterLayer q]
               (XRRenderer.new_XRRenderer classes options) = Some w
           /\ layers (xr w) = [quad; base]
           /\ List.length (layers (xr w)) = 2
           /\ n_kind quad = KQuadLayer
           /\ nativeLayer (heap w q) = Some quad
           /\ OGLXRLayer.isNative (heap w q) = true
           /\ n_kind base = KProjectionLayer
           /\ baseLayer (xr w) = Some base).
Proof.
  split.
  - intros t o w n w' H. apply getLayer_created in H.
    destruct H as (Hl & _ & Hs). split; assumption.
  - intros classes options q Hq.
    cbv -[upd Nat.eqb app]. rewrite Hq.
    cbv -[upd Nat.eqb app]. rewrite !upd_same.
    cbv -[upd Nat.eqb app].
    eexists. exists (mkNative 9 KQuadLayer), (mkNative 7 KProjectionLayer).
    split; [reflexivity|].
    cbv -[upd Nat.eqb app]. rewrite ?upd_same. repeat split.
Qed.

Lemma getLayer_pushes_front_and_syncs_witness :
  (layers (xr (world_of (XRState.getLayer TQuad None layers_session_started)))
   = mkNative 9 KQuadLayer :: layers (xr layers_session_started))
  /\ exists w quad base,
       run [EvRequestXR; EvXRCompatible true;
            EvSettle (XRState.Granted true); EvRegisterLayer 0]
           (XRRenderer.new_XRRenderer (fun _ => COGLQuadLayer)
                                      (fun _ => no_options)) = Some w
       /\ layers (xr w) = [quad; base].
Proof.
  split.
  - apply (proj1 getLayer_pushes_front_and_syncs TQuad None
             layers_session_started (mkNative 9 KQuadLayer)
             (world_of (XRState.getLayer TQuad None layers_session_started))).
    vm_compute. reflexivity.
  - destruct (proj2 getLayer_pushes_front_and_syncs
                (fun _ => COGLQuadLayer) (fun _ => no_options) 0
                eq_refl) as (w & quad & base & Hr & Hl & _).
    exists w, quad, base. split; assumption.
Defined.

(** ** XRState.requestAnimationFrame (C7) *)

(** C7.  Without a session [requestAnimationFrame] throws and changes
    nothing.  With a session it places a request with the session and
    returns its cancellation closure; when the host fires the request, the
    wrapped callback runs in a world whose current frame is the frame the
    host passed, and once the callback has returned the current frame is
    null again. *)
Theorem xr_requestAnimationFrame_frame_window :
  (forall w,
      session (xr w) = None ->
      XRState.requestAnimationFrame w
      = Throw (JSError "Try to requiest anima frame on disabled XRState") w)
  /\ (forall w s,
         session (xr w) = Some s ->
         exists loopid w',
           XRState.requestAnimationFrame w = Ok (DelSession loopid) w'
           /\ In (OfSession s, loopid) (h_outstanding (host w'))
           /\ xr w' = xr w)
  /\ (forall callback time frame w,
         let w_in := set_xr (with_lastXRFrame (Some frame)) w in
         lastXRFrame (xr w_in) = Some frame
         /\ XRState.frameCallback callback time frame w
            = match callback time (Some frame) w_in with
              | Ok _ w_out => Ok tt (set_xr (with_lastXRFrame None) w_out)
              | Throw e w_out => Throw e w_out
              end)
  /\ (forall callback time frame w w',
         XRState.frameCallback callback time frame w = Ok tt w' ->
         lastXRFrame (xr w') = None).
Proof.
  split; [|split; [|split]].
  - intros w H. unfold XRState.requestAnimationFrame, bind, gets, throw.
    rewrite H. reflexivity.
  - intros w s H.
    unfold XRState.requestAnimationFrame, host_requestFrame, bind, gets, ret.
    rewrite H. eexists. eexists. split; [reflexivity|].
    split; [|reflexivity]. simpl. apply in_or_app. right. left. reflexivity.
  - intros callback time frame w w_in. split; [reflexivity|].
    unfold XRState.frameCallback, bind, lift. fold w_in.
    destruct (callback time (Some frame) w_in); reflexivity.
  - intros callback time frame w w'.
    unfold XRState.frameCallback, bind, lift.
    destruct (callback time (Some frame)
                (set_xr (with_lastXRFrame (Some frame)) w));
      [|discriminate].
    intros [= <-]. reflexivity.
Qed.

Lemma xr_requestAnimationFrame_frame_window_witness :
  XRState.requestAnimationFrame
    (XRRenderer.new_XRRenderer (fun _ => COGLQuadLayer) (fun _ => no_options))
  = Throw (JSError "Try to requiest anima frame on disabled XRState")
      (XRRenderer.new_XRRenderer (fun _ => COGLQuadLayer) (fun _ => no_options))
  /\ (exists loopid w',
        XRState.requestAnimationFrame layers_session_started
        = Ok (DelSession loopid) w')
  /\ lastXRFrame
       (xr (world_of
              (XRState.frameCallback XRRenderer._internalLoop 16 5
                 layers_session_started))) = None.
Proof.
  destruct xr_requestAnimationFrame_frame_window as (H1 & H2 & _ & H4).
  split; [apply H1; reflexivity|].
  split.
  - destruct (H2 layers_session_started 2) as (loopid & w' & E & _);
      [vm_compute; reflexivity|].
    exists loopid, w'. exact E.
  - apply (H4 XRRenderer._internalLoop 16 5 layers_session_started).
    vm_compute. reflexivity.
Defined.

(** ** XRState.clear (C4) *)

Lemma clear_without_session w : session (xr w) = None -> XRState.clear w = w.
Proof. intros H. unfold XRState.clear. rewrite H. reflexivity. Qed.

Definition destroy_events (ns : list Native) : list Event :=
  map HDestroyLayer (filter has_destroy ns).

Lemma fold_destroy ns : forall w,
  fold_left (fun w n => XRState.destroy_if_able n w) ns w
  = mkWorld (layersSupport w) (xr w) (renderer w) (heap w) (host w)
            (log w ++ destroy_events ns).
Proof.
  induction ns as [|n ns IH]; intros w; simpl.
  - unfold destroy_events. simpl. rewrite app_nil_r. destruct w; reflexivity.
  - rewrite IH. unfold XRState.destroy_if_able, destroy_events. simpl.
    destruct (has_destroy n); simpl; [|reflexivity].
    rewrite <- app_assoc. reflexivity.
Qed.

(** What [clear()] does to a world with a session: it calls
    [removeEventListener] with the two functions bound in the constructor,
    destroys every layer of the list that has a [destroy] method, the
    render target of the base layer and the base layer, and nulls the
    session, the reference space, the layer list, the base layer, its
    target and the binding. *)
Lemma clear_with_session w s :
  session (xr w) = Some s ->
  let w' := XRState.clear w in
  session (xr w') = None /\ space (xr w') = None /\ layers (xr w') = []
  /\ baseLayer (xr w') = None /\ baseLayerTarget (xr w') = None
  /\ glBinding (xr w') = None
  /\ lastXRFrame (xr w') = lastXRFrame (xr w)
  /\ renderer w' = renderer w /\ heap w' = heap w
  /\ layersSupport w' = layersSupport w
  /\ h_listeners (host w')
     = filter (fun l => negb (same_listener l
                                (s, SInputSourcesChange,
                                 onInputChanged_fn (xr w))))
         (filter (fun l => negb (same_listener l (s, SEnd, onEnd_fn (xr w))))
                 (h_listeners (host w)))
  /\ log w'
     = log w
       ++ [HRemoveListener (s, SEnd, onEnd_fn (xr w));
           HRemoveListener (s, SInputSourcesChange, onInputChanged_fn (xr w))]
       ++ destroy_events (layers (xr w))
       ++ match baseLayerTarget (xr w) with
          | Some t => [HDestroyTarget t]
          | None => []
          end
       ++ match baseLayer (xr w) with
          | Some b => destroy_events [b]
          | None => []
          end.
Proof.
  intros Hs. unfold XRState.clear. rewrite Hs. cbv zeta.
  rewrite fold_destroy.
  destruct w as [ls [ses sp lys bl blt lf gb f1 f2] r hp ho lg].
  simpl in Hs. subst ses.
  unfold destroy_events, XRState.destroy_if_able.
  destruct blt, bl as [b|]; try destruct (has_destroy b) eqn:Hb;
    cbv -[app filter map same_listener has_destroy negb];
    rewrite ?Hb; cbv -[app filter map same_listener has_destroy negb];
    repeat split; rewrite <- ?app_assoc; simpl; rewrite ?Hb, ?app_nil_r;
    reflexivity.
Qed.

(** A second [clear()] is a no-op: the world stays exactly as it is. *)
Lemma clear_idempotent w : XRState.clear (XRState.clear w) = XRState.clear w.
Proof.
  destruct (session (xr w)) as [s|] eqn:Hs.
  - apply clear_without_session.
    apply (clear_with_session w s Hs).
  - rewrite (clear_without_session w Hs). apply clear_without_session, Hs.
Qed.

(** Every native layer of the list that can be destroyed is destroyed, and
    so is the render target of the base layer. *)
Lemma clear_destroys w s :
  session (xr w) = Some s ->
  (forall n, In n (layers (xr w)) -> has_destroy n = true ->
             In (HDestroyLayer n) (log (XRState.clear w)))
  /\ (forall t, baseLayerTarget (xr w) = Some t ->
                In (HDestroyTarget t) (log (XRState.clear w))).
Proof.
  intros Hs. destruct (clear_with_session w s Hs)
    as (_ & _ & _ & _ & _ & _ & _ & _ & _ & _ & _ & Hl).
  rewrite Hl. split.
  - intros n Hn Hd. apply in_or_app. right. apply in_or_app. right.
    apply in_or_app. left. unfold destroy_events.
    apply in_map, filter_In. auto.
  - intros t Ht. rewrite Ht. apply in_or_app. right. apply in_or_app. right.
    apply in_or_app. right. apply in_or_app. left. left. reflexivity.
Qed.

(** C4 (the code at the failing input).  [init] attaches
    [this.onEnd.bind(this)] and [this.onInputChanged.bind(this)], two new
    function objects; [clear] calls [removeEventListener] with [this.onEnd]
    and [this.onInputChanged], the functions bound in the constructor.
    These were never added, so both listeners stay attached to the
    session.  The rest of the teardown happens, and a second [clear] changes
    nothing. *)
Theorem clear_leaves_session_listeners_attached :
  let w := layers_session_started in
  let w' := XRState.clear w in
  session (xr w) = Some 2
  /\ h_listeners (host w)
     = [(2, SEnd, mkFn 4 MOnEnd);
        (2, SInputSourcesChange, mkFn 5 MOnInputChanged)]
  /\ onEnd_fn (xr w) = mkFn 0 MOnEnd
  /\ onInputChanged_fn (xr w) = mkFn 1 MOnInputChanged
  /\ In (HRemoveListener (2, SEnd, mkFn 0 MOnEnd)) (log w')
  /\ In (HRemoveListener (2, SInputSourcesChange, mkFn 1 MOnInputChanged))
        (log w')
  /\ h_listeners (host w') = h_listeners (host w)
  /\ session (xr w') = None
  /\ XRState.clear w' = w'.
Proof.
  cbv zeta.
  split; [vm_compute; reflexivity|].
  split; [vm_compute; reflexivity|].
  split; [vm_compute; reflexivity|].
  split; [vm_compute; reflexivity|].
  split; [vm_compute; tauto|].
  split; [vm_compute; tauto|].
  split; [vm_compute; reflexivity|].
  split; [vm_compute; reflexivity|].
  apply clear_idempotent.
Qed.

(** ** The loop scheduler *)

(** The clock a new request goes to. *)
Definition clock (w : World) : Source :=
  match session (xr w) with
  | Some s => OfSession s
  | None => Display
  end.

(** The closure that cancels request [id] of [src]. *)
Definition del_of (src : Source) (id : nat) : LoopDel :=
  match src with
  | Display => DelDisplay id
  | OfSession _ => DelSession id
  end.

(** What calling the stored closure does at the host.  The session closure
    reads [this.session] when it is called: once the session is gone it
    cancels nothing. *)
Definition cancel_events (w : World) : list Event :=
  match _clearLoopDel (renderer w) with
  | Some (DelDisplay id) => [HCancelFrame Display id]
  | Some (DelSession id) =>
      match session (xr w) with
      | Some s => [HCancelFrame (OfSession s) id]
      | None => []
      end
  | None => []
  end.

(** The requests [_clearLoop] leaves with the host. *)
Definition after_cancel (w : World) : list (Source * nat) :=
  match _clearLoopDel (renderer w) with
  | Some (DelDisplay id) =>
      filter (fun r => negb (same_request r (Display, id)))
             (h_outstanding (host w))
  | Some (DelSession id) =>
      match session (xr w) with
      | Some s => filter (fun r => negb (same_request r (OfSession s, id)))
                         (h_outstanding (host w))
      | None => h_outstanding (host w)
      end
  | None => h_outstanding (host w)
  end.

Lemma clearLoop_spec w :
  XRRenderer._clearLoop w
  = mkWorld (layersSupport w) (xr w)
      (with_clearLoopDel None (renderer w)) (heap w)
      (with_outstanding (after_cancel w) (host w))
      (log w ++ cancel_events w).
Proof.
  destruct w as [ls [ses sp lys bl blt lf gb f1 f2] [rl cbs cid del]
                   hp [hf hr hl hls ho] lg].
  destruct del as [[id|id]|]; [destruct ses| |]; cbv -[app filter same_request negb];
    rewrite ?app_nil_r; reflexivity.
Qed.

(** [_attachLoop()] always returns.  It first calls the stored closure,
    then asks the current clock for the next frame and stores the new
    closure; nothing else changes. *)
Lemma attachLoop_spec w :
  XRRenderer._attachLoop w
  = Ok tt
      (mkWorld (layersSupport w) (xr w)
         (with_clearLoopDel (Some (del_of (clock w) (h_rafid (host w))))
                            (renderer w))
         (heap w)
         (with_outstanding (after_cancel w ++ [(clock w, h_rafid (host w))])
            (with_rafid (S (h_rafid (host w))) (host w)))
         (log w ++ cancel_events w
                ++ [HRequestFrame (clock w) (h_rafid (host w))])).
Proof.
  unfold XRRenderer._attachLoop. rewrite bind_lift, clearLoop_spec.
  destruct w as [ls [ses sp lys bl blt lf gb f1 f2] [rl cbs cid del]
                   hp [hf hr hl hls ho] lg].
  destruct ses; cbv -[app filter same_request negb after_cancel cancel_events];
    rewrite <- app_assoc; reflexivity.
Qed.

(** ** One tick of the loop (C5) *)

(** What a piece of trace says about callbacks: who was called and which
    frames were requested from the host. *)
Definition invocation (e : Event) : list (nat * nat * option Frame) :=
  match e with AInvoke n t f => [(n, t, f)] | _ => [] end.
Definition frame_request (e : Event) : list (Source * nat) :=
  match e with HRequestFrame s i => [(s, i)] | _ => [] end.

Definition invocations := flat_map invocation.
Definition frame_requests := flat_map frame_request.

(** The part of the trace that [w'] has and [w] has not. *)
Definition added (w w' : World) : list Event :=
  skipn (List.length (log w)) (log w').

(** *** Callbacks as data *)

Definition is_throw (a : Action) : bool :=
  match a with AThrow => true | _ => false end.

Definition is_request (a : Action) : bool :=
  match a with ARequest _ _ => true | _ => false end.

(** The steps of a body that run: those before its first [throw]. *)
Fixpoint executed (acts : list Action) : list Action :=
  match acts with
  | [] => []
  | AThrow :: _ => []
  | a :: rest => a :: executed rest
  end.

Definition throws (c : Callback) : bool := existsb is_throw (cb_body c).

(** How many calls of [requestAnimationFrame] there are in [acts]. *)
Definition requests (acts : list Action) : nat :=
  List.length (filter is_request acts).

(** The id counter and the callback map after the calls [acts], as
    [requestAnimationFrame] and [cancelAnimationFrame] leave them. *)
Fixpoint apply_acts (n : nat) (m : JSMap Callback) (acts : list Action)
    : nat * JSMap Callback :=
  match acts with
  | [] => (n, m)
  | ARequest name body :: rest =>
      apply_acts (js_succ n) (map_set n (mkCallback name body) m) rest
  | ACancel id :: rest => apply_acts n (map_delete id m) rest
  | AThrow :: _ => (n, m)
  end.

(** The claim's words.  [cancels_later id acts]: one of the calls [acts]
    cancels [id].  [waiting n acts]: the callbacks that the calls [acts]
    registered and did not cancel afterwards, in the order they were
    registered, the first registration getting the id [n]. *)
Definition cancels_later (id : nat) (acts : list Action) : bool :=
  existsb (fun a => match a with ACancel i => i =? id | _ => false end) acts.

Fixpoint waiting (n : nat) (acts : list Action) : JSMap Callback :=
  match acts with
  | [] => []
  | ARequest name body :: rest =>
      if cancels_later n rest then waiting (S n) rest
      else (n, mkCallback name body) :: waiting (S n) rest
  | _ :: rest => waiting n rest
  end.

(** A tick calls the callbacks in order and stops at the first one that
    throws.  [invoked cbs]: the callbacks that are called.  [drain_acts
    cbs]: the calls of [requestAnimationFrame] and [cancelAnimationFrame]
    made meanwhile.  [completes cbs]: none of them throws. *)
Fixpoint invoked (cbs : list Callback) : list Callback :=
  match cbs with
  | [] => []
  | c :: rest => c :: (if throws c then [] else invoked rest)
  end.

Fixpoint drain_acts (cbs : list Callback) : list Action :=
  match cbs with
  | [] => []
  | c :: rest =>
      executed (cb_body c) ++ (if throws c then [] else drain_acts rest)
  end.

Definition completes (cbs : list Callback) : bool :=
  forallb (fun c => negb (throws c)) cbs.

(** *** The counter *)

Lemma js_exact_below m n : m <= n -> js_exact n = true -> js_exact m = true.
Proof.
  unfold js_exact. rewrite !N.ltb_lt. lia.
Qed.

Lemma js_succ_exact n : js_exact n = true -> js_succ n = S n.
Proof. unfold js_succ. intros ->. reflexivity. Qed.

Lemma js_succ_stuck n : js_exact n = false -> js_succ n = n.
Proof. unfold js_succ. intros ->. reflexivity. Qed.

(** *** The map *)

Lemma in_map_set_same {V} k (v : V) m : In (k, v) (map_set k v m).
Proof.
  unfold map_set, map_has. destruct (existsb _ m) eqn:E.
  - apply existsb_exists in E. destruct E as ([k' v'] & Hin & Hk).
    simpl in Hk. apply Nat.eqb_eq in Hk. subst k'.
    apply in_map_iff. exists (k, v'). simpl. rewrite Nat.eqb_refl. auto.
  - apply in_or_app. right. left. reflexivity.
Qed.

Lemma in_map_set_other {V} k (v : V) k' v' m :
  k' <> k -> In (k', v') m -> In (k', v') (map_set k v m).
Proof.
  intros Hne Hin. unfold map_set. destruct (map_has k m).
  - apply in_map_iff. exists (k', v'). simpl.
    destruct (k' =? k) eqn:E; [apply Nat.eqb_eq in E; contradiction | auto].
  - apply in_or_app. left. exact Hin.
Qed.

Lemma in_map_set_inv {V} k (v : V) k' v' m :
  In (k', v') (map_set k v m) -> (k', v') = (k, v) \/ In (k', v') m.
Proof.
  unfold map_set. destruct (map_has k m).
  - intros H. apply in_map_iff in H. destruct H as ([k0 v0] & E & Hin).
    simpl in E. destruct (k0 =? k); [left; congruence | right; congruence].
  - intros H. apply in_app_or in H. destruct H as [H|[H|[]]]; auto.
Qed.

Lemma in_map_delete_other {V} k k' (v' : V) m :
  k' <> k -> In (k', v') m -> In (k', v') (map_delete k m).
Proof.
  intros Hne Hin. unfold map_delete. apply filter_In. split; [exact Hin|].
  simpl. destruct (k' =? k) eqn:E;
    [apply Nat.eqb_eq in E; contradiction | reflexivity].
Qed.

Lemma in_map_delete_inv {V} k k' (v' : V) m :
  In (k', v') (map_delete k m) -> In (k', v') m.
Proof. unfold map_delete. intros H. apply filter_In in H. tauto. Qed.

Lemma map_has_false {V} k (m : JSMap V) :
  (forall v, ~ In (k, v) m) -> map_has k m = false.
Proof.
  intros H. unfold map_has. destruct (existsb _ m) eqn:E; [|reflexivity].
  apply existsb_exists in E. destruct E as ([k' v] & Hin & Hk).
  simpl in Hk. apply Nat.eqb_eq in Hk. subst. destruct (H v Hin).
Qed.

Lemma map_delete_absent {V} k (m : JSMap V) :
  map_has k m = false -> map_delete k m = m.
Proof.
  unfold map_has, map_delete. induction m as [|[k' v] m IH]; simpl; [auto|].
  intros H. apply orb_false_iff in H. destruct H as [H1 H2].
  rewrite H1. simpl. rewrite IH; auto.
Qed.

Lemma map_set_fresh {V} k (v : V) m :
  (forall i c, In (i, c) m -> i < k) -> map_set k v m = m ++ [(k, v)].
Proof.
  intros H. unfold map_set. rewrite map_has_false; [reflexivity|].
  intros c Hin. apply H in Hin. lia.
Qed.

Lemma filter_filter {A} (f g : A -> bool) l :
  filter f (filter g l) = filter (fun x => g x && f x) l.
Proof.
  induction l as [|a l IH]; simpl; [reflexivity|].
  destruct (g a); simpl; [destruct (f a)|]; rewrite ?IH; reflexivity.
Qed.

(** *** The calls, as data *)

Lemma executed_throw_free acts : existsb is_throw (executed acts) = false.
Proof.
  induction acts as [|a acts IH]; simpl; [reflexivity|].
  destruct a; simpl; auto.
Qed.

Lemma executed_all acts :
  existsb is_throw acts = false -> executed acts = acts.
Proof.
  induction acts as [|a acts IH]; simpl; [reflexivity|].
  destruct a; simpl; intros H; try discriminate; rewrite IH; auto.
Qed.

Lemma executed_app a1 a2 :
  existsb is_throw a1 = false -> executed (a1 ++ a2) = a1 ++ executed a2.
Proof.
  induction a1 as [|a a1 IH]; simpl; [reflexivity|].
  destruct a; simpl; intros H; try discriminate; rewrite IH; auto.
Qed.

Lemma throw_free_app a1 a2 :
  existsb is_throw a1 = false -> existsb is_throw a2 = false ->
  existsb is_throw (a1 ++ a2) = false.
Proof. intros H1 H2. rewrite existsb_app, H1, H2. reflexivity. Qed.

Lemma drain_acts_throw_free cbs : existsb is_throw (drain_acts cbs) = false.
Proof.
  induction cbs as [|c cbs IH]; simpl; [reflexivity|].
  apply throw_free_app; [apply executed_throw_free|].
  destruct (throws c); [reflexivity | exact IH].
Qed.

Lemma requests_app a1 a2 : requests (a1 ++ a2) = requests a1 + requests a2.
Proof. unfold requests. rewrite filter_app, length_app. reflexivity. Qed.

Lemma apply_acts_app a1 : forall n m a2,
  existsb is_throw a1 = false ->
  apply_acts n m (a1 ++ a2)
  = apply_acts (fst (apply_acts n m a1)) (snd (apply_acts n m a1)) a2.
Proof.
  induction a1 as [|a a1 IH]; intros n m a2 H; simpl; [reflexivity|].
  destruct a; simpl in H; try discriminate; apply IH; exact H.
Qed.

Lemma waiting_requests acts : forall n,
  waiting n acts <> [] -> requests acts <> 0.
Proof.
  induction acts as [|a acts IH]; intros n H; simpl in *; [congruence|].
  destruct a; unfold requests in *; simpl; try (eapply IH; eassumption).
  discriminate.
Qed.

(** The calls [acts], made while the counter stays below 2^53 on a map
    whose ids are below the counter, leave the callbacks that were there
    and were not cancelled, followed by [waiting n acts]. *)
Lemma apply_acts_waiting acts : forall n m,
  existsb is_throw acts = false ->
  js_exact (n + requests acts) = true ->
  (forall i c, In (i, c) m -> i < n) ->
  apply_acts n m acts
  = (n + requests acts,
     filter (fun p => negb (cancels_later (fst p) acts)) m
     ++ waiting n acts).
Proof.
  induction acts as [|a acts IH]; intros n m Ht Hb Hm.
  - simpl. unfold requests. simpl. rewrite Nat.add_0_r, app_nil_r.
    f_equal. symmetry. clear. induction m as [|p m IH]; simpl; congruence.
  - destruct a as [name body|id|]; simpl in Ht; [| |discriminate].
    + assert (Hr : requests (ARequest name body :: acts) = S (requests acts))
        by reflexivity.
      rewrite Hr in *. simpl apply_acts.
      assert (Hn : js_exact n = true)
        by (apply (js_exact_below n (n + S (requests acts))); [lia | exact Hb]).
      rewrite (js_succ_exact n Hn), (map_set_fresh n _ m Hm).
      rewrite IH; [|exact Ht | |].
      * f_equal; [lia|]. rewrite filter_app. simpl.
        unfold cancels_later at 3. simpl. fold (cancels_later n acts).
        rewrite <- app_assoc.
        destruct (cancels_later n acts); simpl; reflexivity.
      * replace (S n + requests acts) with (n + S (requests acts)) by lia.
        exact Hb.
      * intros i c Hin. apply in_app_or in Hin.
        destruct Hin as [Hin|[[= <- <-]|[]]]; [apply Hm in Hin; lia | lia].
    + assert (Hr : requests (ACancel id :: acts) = requests acts)
        by reflexivity.
      rewrite Hr in *. simpl apply_acts.
      rewrite IH; [|exact Ht | exact Hb |].
      * f_equal. f_equal. unfold map_delete. rewrite filter_filter.
        apply filter_ext. intros [k v]. simpl.
        rewrite (Nat.eqb_sym k id), negb_orb. reflexivity.
      * intros i c Hin. apply in_map_delete_inv in Hin. eauto.
Qed.

Lemma apply_acts_empty acts n :
  existsb is_throw acts = false ->
  js_exact (n + requests acts) = true ->
  apply_acts n [] acts = (n + requests acts, waiting n acts).
Proof.
  intros Ht Hb. rewrite apply_acts_waiting; auto. intros i c [].
Qed.

(** *** The calls, as the renderer runs them *)

(** [ran acts w w' evs]: [w'] comes from [w] by the calls [acts], which
    left the trace [evs].  While a cancellation closure is stored the calls
    ask nothing of the host; after a call of [requestAnimationFrame] a
    closure is stored. *)
Record ran (acts : list Action) (w w' : World) (evs : list Event) : Prop :=
  mk_ran {
  rn_log : log w' = log w ++ evs;
  rn_state : (_calbackID (renderer w'), _rafCallbacks (renderer w'))
             = apply_acts (_calbackID (renderer w))
                          (_rafCallbacks (renderer w)) acts;
  rn_del : _clearLoopDel (renderer w) <> None ->
           _clearLoopDel (renderer w') = _clearLoopDel (renderer w)
           /\ frame_requests evs = []
           /\ h_outstanding (host w') = h_outstanding (host w);
  rn_attached : requests acts <> 0 -> _clearLoopDel (renderer w') <> None
}.

Lemma ran_nil w : ran [] w w [].
Proof.
  constructor; simpl; auto;
    try (symmetry; apply app_nil_r);
    try (intros H; destruct H; reflexivity).
Qed.

Lemma ran_app a1 a2 w w1 w2 e1 e2 :
  existsb is_throw a1 = false ->
  ran a1 w w1 e1 -> ran a2 w1 w2 e2 -> ran (a1 ++ a2) w w2 (e1 ++ e2).
Proof.
  intros Ht [L1 S1 D1 A1] [L2 S2 D2 A2]. constructor.
  - rewrite L2, L1. apply eq_sym, app_assoc.
  - rewrite (apply_acts_app a1 _ _ a2 Ht), <- S1. exact S2.
  - intros Hd. destruct (D1 Hd) as (Hd1 & Hr1 & Ho1).
    destruct D2 as (Hd2 & Hr2 & Ho2); [congruence|].
    split; [congruence|]. split; [|congruence].
    unfold frame_requests in *. rewrite flat_map_app, Hr1, Hr2. reflexivity.
  - rewrite requests_app. intros Hr.
    destruct (Nat.eq_dec (requests a2) 0) as [E|E]; [|apply A2, E].
    assert (H1 : _clearLoopDel (renderer w1) <> None) by (apply A1; lia).
    destruct (D2 H1) as (Hd2 & _). congruence.
Qed.

Lemma requestAnimationFrame_ran c w :
  exists w' evs,
    XRRenderer.requestAnimationFrame c w = Ok (_calbackID (renderer w)) w'
    /\ ran [ARequest (cb_name c) (cb_body c)] w w' evs
    /\ invocations evs = []
    /\ (forall e, In e evs ->
          e = ARegistered (_calbackID (renderer w)) c
          \/ exists s i, e = HRequestFrame s i).
Proof.
  unfold XRRenderer.requestAnimationFrame.
  rewrite bind_gets, !bind_lift, bind_gets.
  destruct c as [name body].
  destruct w as [ls x [rl cbs cid del] hp ho lg].
  destruct del as [d|].
  - eexists. exists [ARegistered cid (mkCallback name body)].
    split; [reflexivity|].
    split; [|split; [reflexivity | intros e [<-|[]]; auto]].
    constructor; simpl; auto. discriminate.
  - match goal with
    | |- context [is_some ?x] => change (is_some x) with false
    end.
    cbv iota. unfold bind at 1. rewrite attachLoop_spec. unfold ret.
    eexists. exists [ARegistered cid (mkCallback name body);
                     HRequestFrame
                       (clock (mkWorld ls x (mkXRRenderer rl cbs cid None)
                                       hp ho lg))
                       (h_rafid ho)].
    split; [reflexivity|].
    split; [|split; [reflexivity | intros e [<-|[<-|[]]]; eauto]].
    constructor; simpl; auto.
    + rewrite <- app_assoc. reflexivity.
    + intros H. exfalso. apply H. reflexivity.
    + discriminate.
Qed.

Lemma run_action_ran a w :
  is_throw a = false ->
  exists w' evs,
    XRRenderer.run_action a w = Ok tt w'
    /\ ran [a] w w' evs /\ invocations evs = [].
Proof.
  destruct a as [name body|id|]; simpl; intros Ht; [| |discriminate].
  - destruct (requestAnimationFrame_ran (mkCallback name body) w)
      as (w' & evs & E & Hd & Hi & _).
    unfold bind. rewrite E. eexists. eexists. split; [reflexivity|].
    split; [exact Hd | exact Hi].
  - eexists. exists [AUnregistered id]. split; [reflexivity|].
    split; [|reflexivity].
    constructor; simpl; auto.
Qed.

(** A body runs up to its first [throw]. *)
Lemma run_actions_ran acts : forall w,
  exists w' evs,
    for_each XRRenderer.run_action acts w
    = (if existsb is_throw acts
       then Throw (JSError "thrown by a callback") w'
       else Ok tt w')
    /\ ran (executed acts) w w' evs /\ invocations evs = [].
Proof.
  induction acts as [|a acts IH]; intros w.
  - exists w, []. split; [reflexivity|]. split; [apply ran_nil|reflexivity].
  - destruct (is_throw a) eqn:Ea.
    + destruct a; try discriminate. exists w, []. simpl.
      split; [reflexivity|]. split; [apply ran_nil|reflexivity].
    + destruct (run_action_ran a w Ea) as (w1 & e1 & E1 & D1 & I1).
      destruct (IH w1) as (w2 & e2 & E2 & D2 & I2).
      assert (Hex : executed (a :: acts) = [a] ++ executed acts)
        by (destruct a; try discriminate; reflexivity).
      exists w2, (e1 ++ e2). rewrite Hex.
      change (existsb is_throw (a :: acts))
        with (is_throw a || existsb is_throw acts).
      change (for_each XRRenderer.run_action (a :: acts) w)
        with (bind (XRRenderer.run_action a)
                (fun _ => for_each XRRenderer.run_action acts) w).
      rewrite Ea. unfold bind. rewrite E1. split; [exact E2|].
      split.
      * eapply ran_app; [|eassumption|eassumption].
        simpl. rewrite Ea. reflexivity.
      * unfold invocations in *. rewrite flat_map_app, I1, I2. reflexivity.
Qed.

Lemma call_ran time frame c w :
  exists w' evs,
    XRRenderer.call time frame c w
    = (if throws c
       then Throw (JSError "thrown by a callback") w'
       else Ok tt w')
    /\ ran (executed (cb_body c)) w w' evs
    /\ invocations evs = [(cb_name c, time, frame)].
Proof.
  unfold XRRenderer.call. rewrite bind_lift.
  destruct (run_actions_ran (cb_body c)
              (emit (AInvoke (cb_name c) time frame) w))
    as (w' & evs & E & D & I).
  exists w', (AInvoke (cb_name c) time frame :: evs).
  split; [exact E|]. split.
  - apply (ran_app [] (executed (cb_body c)) w
                   (emit (AInvoke (cb_name c) time frame) w) w'
                   [AInvoke (cb_name c) time frame] evs);
      [reflexivity | | exact D].
    constructor; simpl; auto; try (intros H; destruct H; reflexivity).
  - unfold invocations in *. simpl. rewrite I. reflexivity.
Qed.

(** The callbacks are called in order, up to the first one that throws. *)
Lemma calls_ran time frame cbs : forall w,
  exists w' evs,
    for_each (XRRenderer.call time frame) cbs w
    = (if completes cbs
       then Ok tt w'
       else Throw (JSError "thrown by a callback") w')
    /\ ran (drain_acts cbs) w w' evs
    /\ invocations evs = map (fun c => (cb_name c, time, frame)) (invoked cbs)
    /\ (cbs = [] -> evs = []).
Proof.
  induction cbs as [|c cbs IH]; intros w.
  - exists w, []. split; [reflexivity|]. split; [apply ran_nil|].
    split; reflexivity.
  - destruct (call_ran time frame c w) as (w1 & e1 & E1 & D1 & I1).
    simpl. unfold bind. rewrite E1.
    destruct (throws c) eqn:Et; simpl.
    + exists w1, e1. split; [reflexivity|]. rewrite app_nil_r.
      split; [exact D1|]. split; [exact I1 | discriminate].
    + destruct (IH w1) as (w2 & e2 & E2 & D2 & I2 & _).
      exists w2, (e1 ++ e2). split; [exact E2|].
      split; [|split; [|discriminate]].
      * eapply ran_app; [apply executed_throw_free | eassumption..].
      * unfold invocations in *. rewrite flat_map_app, I1, I2. reflexivity.
Qed.

Lemma cancel_events_quiet w :
  invocations (cancel_events w) = []
  /\ frame_requests (cancel_events w) = [].
Proof.
  unfold cancel_events.
  destruct (_clearLoopDel (renderer w)) as [[id|id]|];
    [destruct (session (xr w))| |]; auto.
Qed.

(** One tick, from any world. *)
Lemma internalLoop_spec time frame w :
  let cbs := map_values (_rafCallbacks (renderer w)) in
  let r := XRRenderer._internalLoop time frame w in
  exists evs tail,
    returned r = completes cbs
    /\ log (world_of r) = log w ++ evs ++ tail
    /\ invocations evs
       = map (fun c => (cb_name c, time, frame)) (invoked cbs)
    /\ invocations tail = []
    /\ (cbs = [] -> evs = [])
    /\ (_calbackID (renderer (world_of r)),
        _rafCallbacks (renderer (world_of r)))
       = apply_acts (_calbackID (renderer w)) [] (drain_acts cbs)
    /\ (_clearLoopDel (renderer w) <> None -> frame_requests evs = [])
    /\ (if completes cbs
        then exists src id, frame_requests tail = [(src, id)]
        else tail = []
             /\ (_clearLoopDel (renderer w) <> None ->
                 h_outstanding (host (world_of r)) = h_outstanding (host w)
                 /\ _clearLoopDel (renderer (world_of r))
                    = _clearLoopDel (renderer w))).
Proof.
  intros cbs r. subst r.
  unfold XRRenderer._internalLoop. rewrite bind_gets, bind_lift. cbv beta.
  fold cbs.
  set (w0 := set_renderer (with_rafCallbacks []) w).
  destruct (calls_ran time frame cbs w0)
    as (w1 & evs & E & [Dlog Dst Ddel Datt] & I & Hnil).
  unfold bind. rewrite E.
  destruct (completes cbs) eqn:Ec.
  - rewrite attachLoop_spec.
    exists evs, (cancel_events w1 ++ [HRequestFrame (clock w1)
                                        (h_rafid (host w1))]).
    destruct (cancel_events_quiet w1) as (Hc1 & Hc2).
    simpl. split; [reflexivity|].
    split; [rewrite Dlog; simpl; rewrite <- app_assoc; reflexivity|].
    split; [exact I|].
    split; [unfold invocations in *; rewrite flat_map_app, Hc1; reflexivity|].
    split; [exact Hnil|].
    split; [exact Dst|].
    split; [intros Hd; apply Ddel; exact Hd|].
    exists (clock w1), (h_rafid (host w1)).
    unfold frame_requests in *. rewrite flat_map_app, Hc2. reflexivity.
  - exists evs, []. simpl. split; [reflexivity|].
    split; [rewrite app_nil_r; exact Dlog|].
    split; [exact I|]. split; [reflexivity|].
    split; [exact Hnil|].
    split; [exact Dst|].
    split; [intros Hd; apply Ddel; exact Hd|].
    split; [reflexivity|].
    intros Hd. destruct (Ddel Hd) as (H1 & _ & H3). split; assumption.
Qed.

Lemma added_app w w' evs : log w' = log w ++ evs -> added w w' = evs.
Proof.
  intros H. unfold added. rewrite H. clear H.
  induction (log w) as [|e l IH]; simpl; auto.
Qed.

(** The callbacks a tick calls are those in the map when it starts. *)
Lemma tick_invocations time frame w :
  invocations (added w (world_of (XRRenderer._internalLoop time frame w)))
  = map (fun c => (cb_name c, time, frame))
        (invoked (map_values (_rafCallbacks (renderer w)))).
Proof.
  destruct (internalLoop_spec time frame w)
    as (evs & tail & _ & Hlog & Hi & Ht & _).
  rewrite (added_app _ _ _ Hlog). unfold invocations in *.
  rewrite flat_map_app, Hi, Ht. apply app_nil_r.
Qed.

(** C5.  Take a renderer in which the ids of the waiting callbacks have
    been handed out, and calls of [requestAnimationFrame] and
    [cancelAnimationFrame] that leave the id counter below 2^53 and after
    which the loop is attached (as it is whenever the host fires a request
    of the loop).  When the tick then begins the map holds the callbacks
    that were waiting or were registered by the calls, and that the calls
    did not cancel, in the order they were registered.  The tick calls them
    in that order, each once, and nobody else, up to the first one that
    throws.  When none throws the tick returns, and the next frame is
    requested after the last callback has run and not before.  When one
    throws the tick ends there with the exception: the callbacks after it
    are not called, no frame is requested, and the stored closure and the
    host's requests are as before.  In either case the map then holds the
    callbacks registered during the tick and not cancelled during it, and
    nothing else: they are what the next tick calls. *)
Theorem tick_drains_callbacks_in_order acts time frame w0 :
  let n0 := _calbackID (renderer w0) in
  let m0 := _rafCallbacks (renderer w0) in
  let w := world_of (for_each XRRenderer.run_action acts w0) in
  (forall i c, In (i, c) m0 -> i < n0) ->
  existsb is_throw acts = false ->
  _clearLoopDel (renderer w) <> None ->
  let m := filter (fun p => negb (cancels_later (fst p) acts)) m0
           ++ waiting n0 acts in
  let cbs := map_values m in
  let n1 := n0 + requests acts in
  js_exact (n1 + requests (drain_acts cbs)) = true ->
  for_each XRRenderer.run_action acts w0 = Ok tt w
  /\ _rafCallbacks (renderer w) = m
  /\ let r := XRRenderer._internalLoop time frame w in
     let w' := world_of r in
     exists evs tail,
       returned r = completes cbs
       /\ log w' = log w ++ evs ++ tail
       /\ invocations evs
          = map (fun c => (cb_name c, time, frame)) (invoked cbs)
       /\ frame_requests evs = []
       /\ invocations tail = []
       /\ _rafCallbacks (renderer w') = waiting n1 (drain_acts cbs)
       /\ (if completes cbs
           then exists src id, frame_requests tail = [(src, id)]
           else tail = []
                /\ h_outstanding (host w') = h_outstanding (host w)
                /\ _clearLoopDel (renderer w') = _clearLoopDel (renderer w))
       /\ forall time2 frame2,
            invocations
              (added w' (world_of
                           (XRRenderer._internalLoop time2 frame2 w')))
            = map (fun c => (cb_name c, time2, frame2))
                  (invoked (map_values (waiting n1 (drain_acts cbs)))).
Proof.
  intros n0 m0 w Hids Ht Hdel m cbs n1 Hb.
  destruct (run_actions_ran acts w0) as (w2 & e0 & E0 & [L0 S0 D0 A0] & _).
  rewrite Ht in E0.
  assert (Hw : w = w2) by (unfold w; rewrite E0; reflexivity).
  clearbody w. subst w2.
  rewrite (executed_all acts Ht) in S0.
  assert (Hb0 : js_exact (n0 + requests acts) = true)
    by (apply (js_exact_below _ (n1 + requests (drain_acts cbs)));
        [unfold n1; lia | exact Hb]).
  fold n0 m0 in S0.
  rewrite (apply_acts_waiting acts n0 m0 Ht Hb0 Hids) in S0. fold m in S0.
  injection S0 as Hcid Hmap.
  split; [exact E0|]. split; [exact Hmap|]. cbv zeta.
  destruct (internalLoop_spec time frame w)
    as (evs & tail & Hret & Hlog & Hi & Hti & Hnil & Hst & Hfr & Hend).
  cbv zeta in *. rewrite Hmap in *. fold cbs in Hret, Hi, Hnil, Hst, Hend.
  rewrite Hcid in Hst. fold n1 in Hst.
  rewrite (apply_acts_empty _ n1 (drain_acts_throw_free cbs) Hb) in Hst.
  injection Hst as _ Hmap'.
  exists evs, tail.
  split; [exact Hret|]. split; [exact Hlog|]. split; [exact Hi|].
  split; [apply Hfr, Hdel|].
  split; [exact Hti|]. split; [exact Hmap'|].
  split.
  { destruct (completes cbs) eqn:Ec; [exact Hend|].
    destruct Hend as (Htl & Hkeep). split; [exact Htl|].
    apply Hkeep, Hdel. }
  intros time2 frame2. rewrite tick_invocations, Hmap'. reflexivity.
Qed.

Definition callback_a : Callback := mkCallback 1 [ARequest 3 []].
Definition callback_b : Callback := mkCallback 2 [].

(** A callback that registers another one and then throws. *)
Definition callback_t : Callback := mkCallback 5 [ARequest 6 []; AThrow].

(** Three registrations, of which the second is cancelled; the first
    callback registers a callback of its own when it runs. *)
Definition calls_before_tick : list Action :=
  [ARequest 1 [ARequest 3 []]; ARequest 4 []; ARequest 2 []; ACancel 1].

Lemma tick_drains_callbacks_in_order_witness :
  let w := world_of
             (for_each XRRenderer.run_action calls_before_tick
                (XRRenderer.new_XRRenderer (fun _ => COGLQuadLayer)
                                           (fun _ => no_options))) in
  _rafCallbacks (renderer w) = [(0, callback_a); (2, callback_b)]
  /\ invocations
       (added w (world_of (XRRenderer._internalLoop 16 None w)))
     = [(1, 16, None); (2, 16, None)]
  /\ _rafCallbacks
       (renderer (world_of (XRRenderer._internalLoop 16 None w)))
     = [(3, mkCallback 3 [])].
Proof.
  intros w.
  destruct (tick_drains_callbacks_in_order calls_before_tick 16 None
              (XRRenderer.new_XRRenderer (fun _ => COGLQuadLayer)
                                         (fun _ => no_options)))
    as (E & Hmap & evs & tail & _ & Hlog & Hi & _ & Ht & Hmap' & _);
    [ simpl; intros i c H; destruct H
    | reflexivity
    | vm_compute; discriminate
    | vm_compute; reflexivity |].
  fold w in Hmap, Hlog, Hmap'.
  split; [exact Hmap|]. split; [|exact Hmap'].
  rewrite (added_app _ _ _ Hlog). unfold invocations in *.
  rewrite flat_map_app, Hi, Ht. reflexivity.
Defined.

(** Two callbacks are registered and none is cancelled; the first one
    throws when it is called.  The second one is never called: not in this
    tick, and not later, since it is no longer in the map; and no frame is
    requested, so that no later tick comes. *)
Definition thrower_then_b : World :=
  world_of
    (for_each XRRenderer.run_action [ARequest 5 [ARequest 6 []; AThrow];
                                     ARequest 2 []]
       (XRRenderer.new_XRRenderer (fun _ => COGLQuadLayer)
                                  (fun _ => no_options))).

Lemma throwing_callback_starves_the_rest :
  let w := thrower_then_b in
  let r := XRRenderer._internalLoop 16 None w in
  _rafCallbacks (renderer w) = [(0, callback_t); (1, callback_b)]
  /\ returned r = false
  /\ invocations (added w (world_of r)) = [(5, 16, None)]
  /\ frame_requests (added w (world_of r)) = []
  /\ _rafCallbacks (renderer (world_of r)) = [(2, mkCallback 6 [])]
  /\ h_outstanding (host (world_of r)) = h_outstanding (host w).
Proof. vm_compute. repeat split. Qed.

(** ** requestXR (C8) *)

Definition attach_world (w : World) : World :=
  world_of (XRRenderer._attachLoop w).

Lemma attachLoop_returns w : XRRenderer._attachLoop w = Ok tt (attach_world w).
Proof. unfold attach_world. rewrite attachLoop_spec. reflexivity. Qed.

(** The loop is attached: the stored closure refers to a request that is
    outstanding with the current clock. *)
Definition frame_pending (w : World) : Prop :=
  exists id,
    _clearLoopDel (renderer w) = Some (del_of (clock w) id)
    /\ In (clock w, id) (h_outstanding (host w)).

Lemma attach_world_pending w : frame_pending (attach_world w).
Proof.
  unfold attach_world, frame_pending. rewrite attachLoop_spec. simpl.
  exists (h_rafid (host w)). unfold clock at 1 3. simpl. split; [reflexivity|].
  apply in_or_app. right. left. reflexivity.
Qed.

Lemma try_finally_attach {A} (m : M A) w :
  XRRenderer.try_finally m XRRenderer._attachLoop w
  = match m w with
    | Ok a w1 => Ok a (attach_world w1)
    | Throw e w1 => Throw e (attach_world w1)
    end.
Proof.
  unfold XRRenderer.try_finally.
  destruct (m w); rewrite attachLoop_returns; reflexivity.
Qed.

Lemma requestSession_settle_outcome o w :
  match o with
  | XRState.Granted _ =>
      exists w1,
        XRState.requestSession_settle XRRenderer.onSessionStart
          XRRenderer.onSessionLost o w = Ok tt w1
  | _ =>
      exists e w1,
        XRState.requestSession_settle XRRenderer.onSessionStart
          XRRenderer.onSessionLost o w = Throw e w1
  end.
Proof.
  destruct o; unfold XRState.requestSession_settle, XRState.host_grantSession,
    XRState.init, fresh, bind, lift, ret, throw; eauto.
Qed.

(** A renderer whose loop runs: a callback waits and a frame is requested
    from the display. *)
Definition loop_running : World :=
  world_of (XRRenderer.requestAnimationFrame callback_b
              (XRRenderer.new_XRRenderer (fun _ => COGLQuadLayer)
                                         (fun _ => no_options))).

(** On a new renderer, whose loop has not been started, [requestXR] is
    called and [makeXRCompatible()] rejects: the call settles, rejected,
    and no frame request is pending. *)
Lemma requestXR_incompatible_leaves_no_request :
  let w := XRRenderer.new_XRRenderer (fun _ => COGLQuadLayer)
                                     (fun _ => no_options) in
  XRRenderer.requestXR_guard w = false
  /\ run [EvRequestXR; EvXRCompatible false] w = Some w
  /\ (exists e,
        XRRenderer.requestXR XRRenderer.CompatibleRejected w = Throw e w)
  /\ ~ frame_pending w.
Proof.
  cbv zeta. split; [reflexivity|]. split; [reflexivity|].
  split; [eexists; reflexivity|].
  intros (id & H & _). discriminate H.
Qed.

(** C8.  With a session active [requestXR] returns at once: the guard is
    true exactly then, and nothing is negotiated or changed.  Otherwise the
    call waits for [makeXRCompatible()].  When that rejects, the call
    settles, rejected, and the world is as it was: the loop was not paused
    and is not attached again.  When it resolves, the loop is paused before
    the negotiation: the stored closure has been called and cleared, and no
    session is requested frames from.  And however the negotiation ends,
    and from whatever world it ends in, [requestXR] settles with the loop
    attached again: rejected when the host rejects the session or the
    reference space, resolved when it grants them, and in either case with
    a frame request pending that the stored closure refers to. *)
Theorem requestXR_restarts_loop a w :
  (XRRenderer.requestXR_guard w = true ->
   session (xr w) <> None /\ XRRenderer.requestXR a w = Ok tt w)
  /\ (XRRenderer.requestXR_guard w = false ->
      match a with
      | XRRenderer.CompatibleRejected =>
          exists e, XRRenderer.requestXR a w = Throw e w
      | XRRenderer.Negotiated o =>
          let w1 := XRRenderer.requestXR_negotiate w in
          session (xr w1) = None
          /\ _clearLoopDel (renderer w1) = None
          /\ log w1 = log w ++ cancel_events w
          /\ h_outstanding (host w1) = after_cancel w
          /\ XRRenderer.requestXR a w = XRRenderer.requestXR_settle o w1
          /\ forall w2,
               exists w',
                 frame_pending w'
                 /\ match o with
                    | XRState.Granted _ =>
                        XRRenderer.requestXR_settle o w2 = Ok tt w'
                    | _ =>
                        exists e,
                          XRRenderer.requestXR_settle o w2 = Throw e w'
                    end
      end).
Proof.
  split.
  - intros H. unfold XRRenderer.requestXR. rewrite bind_gets, H.
    split; [|reflexivity].
    unfold XRRenderer.requestXR_guard, XRState.active in H.
    destruct (session (xr w)); [discriminate | discriminate H].
  - intros H. destruct a as [|o].
    + unfold XRRenderer.requestXR. rewrite bind_gets, H.
      eexists. reflexivity.
    + cbv zeta.
      assert (Hs : session (xr w) = None).
      { unfold XRRenderer.requestXR_guard, XRState.active in H.
        destruct (session (xr w)); [discriminate H | reflexivity]. }
      assert (Hn : XRRenderer.requestXR_negotiate w = XRRenderer._clearLoop w).
      { unfold XRRenderer.requestXR_negotiate,
          XRState.requestSession_begin, XRState.active.
        rewrite clearLoop_spec. simpl. rewrite Hs. reflexivity. }
      rewrite Hn, clearLoop_spec. simpl.
      split; [exact Hs|]. split; [reflexivity|]. split; [reflexivity|].
      split; [reflexivity|].
      split.
      { unfold XRRenderer.requestXR. rewrite bind_gets, H, bind_lift.
        rewrite Hn, clearLoop_spec. reflexivity. }
      intros w2. unfold XRRenderer.requestXR_settle.
      rewrite try_finally_attach.
      pose proof (requestSession_settle_outcome o w2) as Ho.
      destruct o.
      * destruct Ho as (e & w3 & ->). eexists. split;
          [apply attach_world_pending | eauto].
      * destruct Ho as (e & w3 & ->). eexists. split;
          [apply attach_world_pending | eauto].
      * destruct Ho as (w3 & ->). eexists. split;
          [apply attach_world_pending | eauto].
Qed.

(** The call as a run: its three events, with nothing in between, leave
    the world the call leaves. *)
Lemma requestXR_in_events a w :
  XRRenderer.requestXR_guard w = false ->
  match a with
  | XRRenderer.CompatibleRejected =>
      run [EvRequestXR; EvXRCompatible false] w
      = Some (world_of (XRRenderer.requestXR a w))
  | XRRenderer.Negotiated o =>
      grants o && is_some (h_live (host (XRRenderer.requestXR_negotiate w)))
      = false ->
      run [EvRequestXR; EvXRCompatible true; EvSettle o] w
      = Some (world_of (XRRenderer.requestXR a w))
  end.
Proof.
  intros H. unfold XRRenderer.requestXR. rewrite bind_gets, H.
  destruct a as [|o]; [reflexivity|].
  intros Hg. rewrite bind_lift. simpl. rewrite Hg. reflexivity.
Qed.

Lemma requestXR_restarts_loop_witness :
  XRRenderer.requestXR (XRRenderer.Negotiated (XRState.Granted true))
    layers_session_started = Ok tt layers_session_started
  /\ log (XRRenderer.requestXR_negotiate loop_running)
     = log loop_running ++ [HCancelFrame Display 0]
  /\ exists e w',
       XRRenderer.requestXR (XRRenderer.Negotiated XRState.SessionRejected)
         loop_running = Throw e w'
       /\ frame_pending w'.
Proof.
  split.
  - apply (requestXR_restarts_loop
             (XRRenderer.Negotiated (XRState.Granted true))
             layers_session_started).
    reflexivity.
  - destruct (proj2 (requestXR_restarts_loop
                       (XRRenderer.Negotiated XRState.SessionRejected)
                       loop_running) eq_refl)
      as (_ & _ & Hlog & _ & Heq & Hset).
    split; [exact Hlog|].
    destruct (Hset (XRRenderer.requestXR_negotiate loop_running))
      as (w' & Hp & e & E).
    exists e, w'. split; [rewrite Heq; exact E | exact Hp].
Defined.

(** ** What never changes about the layers

    [heap_frame reg w0 w]: from [w0] to [w] no layer changed class, no
    dirty flag was cleared, no instance of the base class got fallback
    geometry, every transform object a layer holds is the one it held or
    was made in between; with [reg = true] the registry is the same. *)
Record heap_frame (reg : bool) (w0 w : World) : Prop := mk_heap_frame {
  hf_registry : reg = true -> r_layers (renderer w) = r_layers (renderer w0);
  hf_fresh : h_fresh (host w0) <= h_fresh (host w);
  hf_class : forall l, l_class (heap w l) = l_class (heap w0 l);
  hf_dirty : forall l, transformDirty (heap w0 l) = true ->
                       transformDirty (heap w l) = true;
  hf_emulated : forall l, l_class (heap w0 l) = COGLXRLayer ->
      emulatedLayers (heap w l) = None
      \/ emulatedLayers (heap w l) = emulatedLayers (heap w0 l);
  hf_transform : forall l t, nativeTransform (heap w l) = Some t ->
      nativeTransform (heap w0 l) = Some t
      \/ h_fresh (host w0) <= t_id t < h_fresh (host w);
  hf_cb : forall l, onLayerDestroy_cb (heap w0 l) = CbRenderer ->
                    onLayerDestroy_cb (heap w l) = CbRenderer
}.

Lemma hf_refl reg w : heap_frame reg w w.
Proof. constructor; auto. Qed.

Lemma hf_trans reg w0 w1 w2 :
  heap_frame reg w0 w1 -> heap_frame reg w1 w2 -> heap_frame reg w0 w2.
Proof.
  intros H0 H1. destruct H0, H1. constructor; try lia.
  - intros Hr. rewrite hf_registry1, hf_registry0; auto.
  - intros l. rewrite hf_class1. apply hf_class0.
  - auto.
  - intros l Hl.
    destruct (hf_emulated1 l) as [H|H];
      [rewrite hf_class0; exact Hl | left; exact H |].
    rewrite H. apply hf_emulated0, Hl.
  - intros l t Ht.
    destruct (hf_transform1 l t Ht) as [H|H]; [|right; lia].
    destruct (hf_transform0 l t H) as [H'|H']; [left; exact H' | right; lia].
  - auto.
Qed.

Lemma hf_weaken reg w0 w : heap_frame true w0 w -> heap_frame reg w0 w.
Proof. intros []. constructor; auto. Qed.

Lemma hf_of_layer_frame reg w0 w : layer_frame reg w0 w -> heap_frame reg w0 w.
Proof. intros []. constructor; auto. Qed.

(** A step that leaves the layers and the registry alone. *)
Lemma hf_quiet reg w w' :
  heap w' = heap w -> r_layers (renderer w') = r_layers (renderer w) ->
  h_fresh (host w) <= h_fresh (host w') ->
  heap_frame reg w w'.
Proof. intros Hh Hr Hf. constructor; auto; rewrite Hh; auto. Qed.

Lemma hf_preserves_of_frames {A} reg (m : M A) :
  (forall w, heap_frame reg w (world_of (m w))) ->
  forall w0, preserves (heap_frame reg w0) m.
Proof. intros H w0 w Hw. eapply hf_trans; [exact Hw | apply H]. Qed.

Lemma hf_preserves_of_layer_frame {A} reg (m : M A) :
  (forall w0, preserves (layer_frame reg w0) m) ->
  forall w0, preserves (heap_frame reg w0) m.
Proof.
  intros H. apply hf_preserves_of_frames. intros w.
  apply hf_of_layer_frame, lf_frames, H.
Qed.

Ltac hf_leaf :=
  let w := fresh "w" in
  let H := fresh "H" in
  intros w H; eapply hf_trans; [exact H|];
  first [ solve [auto with pres]
        | apply hf_quiet; simpl; solve [auto] ].

Ltac hf_pres := intros; pres_with hf_leaf.

Lemma hf_clearLoop reg w : heap_frame reg w (XRRenderer._clearLoop w).
Proof. rewrite clearLoop_spec. apply hf_quiet; simpl; auto. Qed.

Lemma hf_clear reg w : heap_frame reg w (XRState.clear w).
Proof.
  destruct (session (xr w)) as [s|] eqn:Hs.
  - destruct (clear_with_session w s Hs)
      as (_ & _ & _ & _ & _ & _ & _ & Hr & Hh & _ & _ & _).
    apply hf_quiet; [exact Hh | rewrite Hr; reflexivity |].
    unfold XRState.clear. rewrite Hs. cbv zeta. rewrite fold_destroy.
    destruct (baseLayerTarget _), (baseLayer _);
      unfold XRState.destroy_if_able; try destruct (has_destroy _);
      simpl; auto.
  - rewrite clear_without_session; [apply hf_refl | exact Hs].
Qed.

#[global] Hint Resolve hf_refl hf_clearLoop hf_clear : pres.

Section HeapFrames.
Variable reg : bool.
Variable w0 : World.
Local Abbreviation P := (heap_frame reg w0).

Lemma hf_attachLoop : preserves P XRRenderer._attachLoop.
Proof.
  apply hf_preserves_of_frames. intros w. rewrite attachLoop_spec.
  apply hf_quiet; simpl; auto.
Qed.
Hint Resolve hf_attachLoop : pres.

Lemma hf_requestAnimationFrame c :
  preserves P (XRRenderer.requestAnimationFrame c).
Proof. unfold XRRenderer.requestAnimationFrame. hf_pres. Qed.
Hint Resolve hf_requestAnimationFrame : pres.

Lemma hf_internalLoop time frame :
  preserves P (XRRenderer._internalLoop time frame).
Proof.
  unfold XRRenderer._internalLoop, XRRenderer.call, XRRenderer.run_action.
  hf_pres.
Qed.
Hint Resolve hf_internalLoop : pres.

Lemma hf_fire src id time frame :
  preserves P (XRRenderer.fire src id time frame).
Proof. unfold XRRenderer.fire, XRState.frameCallback. hf_pres. Qed.

Lemma hf_getLayer t o : preserves P (XRState.getLayer t o).
Proof.
  apply hf_preserves_of_layer_frame. intros. apply lf_getLayer.
Qed.

Lemma hf_bindLayer l n : preserves P (XRRenderer.bindLayer l n).
Proof.
  apply hf_preserves_of_layer_frame. intros. apply lf_bindLayer.
Qed.

Lemma hf_bindNativeLayerTo l : preserves P (XRRenderer.bindNativeLayerTo l).
Proof.
  apply hf_preserves_of_layer_frame. intros. apply lf_bindNativeLayerTo.
Qed.

Lemma hf_update l : preserves P (OGLXRLayer.update l).
Proof.
  apply hf_preserves_of_layer_frame. intros. apply lf_update.
Qed.
Hint Resolve hf_getLayer hf_bindLayer hf_bindNativeLayerTo : pres.

Lemma hf_onSessionLost : preserves P XRRenderer.onSessionLost.
Proof. unfold XRRenderer.onSessionLost. hf_pres. Qed.

Lemma hf_onSessionStart : preserves P XRRenderer.onSessionStart.
Proof. unfold XRRenderer.onSessionStart. hf_pres. Qed.
End HeapFrames.

#[global] Hint Resolve hf_attachLoop hf_requestAnimationFrame
  hf_internalLoop hf_fire hf_getLayer hf_bindLayer hf_bindNativeLayerTo
  hf_update hf_onSessionLost hf_onSessionStart : pres.

(** *** The session life cycle keeps the frame *)
Section LifeCycleFrames.
Variable reg : bool.

Local Abbreviation start := XRRenderer.onSessionStart.
Local Abbreviation lost := XRRenderer.onSessionLost.

Lemma hf_emit_one e w : heap_frame reg w (emit e w).
Proof. apply hf_quiet; simpl; auto. Qed.

Lemma hf_dispatchEvent e w :
  heap_frame reg w (XRState.dispatchEvent start lost e w).
Proof.
  destruct e; simpl; try apply hf_emit_one;
    (eapply hf_trans; [apply hf_emit_one|]).
  - apply (hf_onSessionStart reg), hf_refl.
  - apply (hf_onSessionLost reg), hf_refl.
Qed.

Lemma hf_onEnd w : heap_frame reg w (XRState.onEnd start lost w).
Proof.
  unfold XRState.onEnd, XRState.onInputChanged.
  eapply hf_trans; [apply hf_clear|].
  eapply hf_trans; [apply hf_emit_one|]. apply hf_dispatchEvent.
Qed.

Lemma hf_call_fn f w : heap_frame reg w (XRState.call_fn start lost f w).
Proof.
  unfold XRState.call_fn. destruct (fn_target f);
    [apply hf_onEnd | apply hf_emit_one].
Qed.

Lemma hf_fold_call_fn fs : forall w,
  heap_frame reg w
    (fold_left (fun w f => XRState.call_fn start lost f w) fs w).
Proof.
  induction fs as [|f fs IH]; simpl; intros w; [apply hf_refl|].
  eapply hf_trans; [apply hf_call_fn | apply IH].
Qed.

Lemma hf_host_endSession s w :
  heap_frame reg w (XRRenderer.host_endSession s w).
Proof.
  unfold XRRenderer.host_endSession, XRState.host_endSession.
  destruct (h_live (host w)) as [s'|]; [|apply hf_refl].
  destruct (s' =? s); [|apply hf_refl].
  eapply hf_trans; [|apply hf_fold_call_fn].
  apply hf_quiet; simpl; auto.
Qed.

Lemma hf_end w : heap_frame reg w (XRRenderer.xr_end w).
Proof.
  unfold XRRenderer.xr_end, XRState.end_.
  destruct (session (xr w)) as [s|]; [|apply hf_refl].
  eapply hf_trans; [apply hf_clear|].
  eapply hf_trans; [apply hf_emit_one|]. apply hf_host_endSession.
Qed.

Lemma hf_negotiate w : heap_frame reg w (XRRenderer.requestXR_negotiate w).
Proof.
  unfold XRRenderer.requestXR_negotiate, XRState.requestSession_begin.
  eapply hf_trans; [apply hf_clearLoop|].
  destruct (XRState.active _); [apply hf_end | apply hf_refl].
Qed.

Lemma hf_fresh_m w0 : preserves (heap_frame reg w0) fresh.
Proof.
  intros w H. eapply hf_trans; [exact H|]. apply hf_quiet; simpl; auto.
Qed.

Lemma hf_settle o w :
  heap_frame reg w (world_of (XRRenderer.requestXR_settle o w)).
Proof.
  unfold XRRenderer.requestXR_settle. rewrite try_finally_attach.
  assert (H : heap_frame reg w
                (world_of (XRState.requestSession_settle start lost o w))).
  { pose proof hf_fresh_m.
    apply (hf_preserves_of_frames reg
             (XRState.requestSession_settle start lost o));
      [|apply hf_refl].
    clear w. intros w.
    assert (Hp : preserves (heap_frame reg w)
                   (XRState.requestSession_settle start lost o)).
    { unfold XRState.requestSession_settle, XRState.host_grantSession,
        XRState.init.
      destruct o; pres_with ltac:(
        let w1 := fresh "w" in
        let H1 := fresh "H" in
        intros w1 H1; eapply hf_trans; [exact H1|];
        first [ solve [auto with pres]
              | apply hf_dispatchEvent
              | destruct (XRState.active w1); solve [auto with pres]
              | apply hf_quiet; simpl; solve [auto] ]). }
    apply Hp, hf_refl. }
  destruct (XRState.requestSession_settle start lost o w); simpl in *;
    (eapply hf_trans; [exact H|]);
    apply (hf_attachLoop reg), hf_refl.
Qed.
End LifeCycleFrames.

(** Every step keeps the frame; only [registerLayer] and [destroy] touch
    the registry. *)
Definition touches_registry (e : Ev) : bool :=
  match e with
  | EvRegisterLayer _ | EvDestroyLayer _ => true
  | _ => false
  end.

Lemma step_heap_frame e w w' :
  step e w = Some w' -> heap_frame (negb (touches_registry e)) w w'.
Proof.
  destruct e; simpl; intros H.
  - injection H as <-. apply (hf_requestAnimationFrame true), hf_refl.
  - injection H as <-. apply hf_quiet; simpl; auto.
  - destruct (_ && _); [|discriminate]. injection H as <-.
    apply (hf_fire true), hf_refl.
  - injection H as <-. apply (hf_attachLoop true), hf_refl.
  - injection H as <-. apply hf_refl.
  - destruct ok; injection H as <-; [apply hf_negotiate | apply hf_refl].
  - destruct (_ && _); [discriminate|]. injection H as <-. apply hf_settle.
  - destruct (h_live (host w)); [|discriminate]. injection H as <-.
    apply hf_host_endSession.
  - injection H as <-. apply hf_end.
  - injection H as <-. apply hf_of_layer_frame.
    apply (lf_registerLayer w l), lf_refl.
  - injection H as <-. apply hf_of_layer_frame.
    apply (lf_destroy w l), lf_refl.
  - destruct (composition_layer n); [|discriminate]. injection H as <-.
    apply (hf_bindLayer true), hf_refl.
  - injection H as <-. apply (hf_update true), hf_refl.
  - injection H as <-. apply hf_of_layer_frame.
    apply lf_set_layer; intros; simpl; auto.
  - injection H as <-. apply hf_of_layer_frame.
    apply lf_set_layer; intros; simpl; auto.
Qed.

Lemma run_heap_frame evs : forall w w',
  run evs w = Some w' -> heap_frame false w w'.
Proof.
  induction evs as [|e evs IH]; simpl; intros w w' H.
  - injection H as <-. apply hf_refl.
  - destruct (step e w) as [w1|] eqn:E; [|discriminate].
    eapply hf_trans; [|apply IH, H].
    apply step_heap_frame in E. destruct (touches_registry e);
      [exact E | apply hf_weaken, E].
Qed.

(** ** The transform dirty flag (C10) *)

(** What [update()] does to a layer that holds a native handle and whose
    dirty flag is set. *)
Lemma update_dirty_native l n w :
  nativeLayer (heap w l) = Some n ->
  transformDirty (heap w l) = true ->
  let t := mkTransform (h_fresh (host w)) (l_pose (heap w l)) in
  exists w',
    OGLXRLayer.update l w = Ok tt w'
    /\ nativeTransform (heap w' l) = Some t
    /\ log w'
       = log w ++ HNewTransform t
         :: match l_class (heap w l) with
            | COGLQuadLayer => [HSetTransform n (Some t)]
            | COGLXRLayer => []
            end.
Proof.
  destruct w as [ls x r hp ho lg]. simpl.
  destruct (hp l) as [c o nl nt em cb d ch p] eqn:EL. simpl.
  intros -> ->.
  unfold OGLXRLayer.update, OGLXRLayer._updateNative,
    OGLXRLayer.super_updateNative, OGLXRLayer.push_transform.
  cbv -[upd app Nat.eqb]. rewrite EL.
  destruct c; cbv -[upd app Nat.eqb]; rewrite ?EL, ?upd_same;
    cbv -[upd app Nat.eqb];
    (eexists; split; [reflexivity|]);
    cbv -[upd app Nat.eqb]; rewrite upd_same;
    (split; [reflexivity|]); rewrite <- ?app_assoc; reflexivity.
Qed.

(** C10, as stated, fails on an instance of the base class: bound to a
    native handle, its [update()] makes a new transform but pushes nothing
    to the handle (only [OGLQuadLayer._updateNative] writes
    [nativeLayer.transform]). *)
Lemma update_of_base_class_layer_pushes_nothing :
  let n := mkNative 50 KQuadLayer in
  exists w,
    run [EvBindLayer 0 (Some n)]
        (XRRenderer.new_XRRenderer (fun _ => COGLXRLayer)
                                   (fun _ => no_options)) = Some w
    /\ nativeLayer (heap w 0) = Some n
    /\ log (world_of (OGLXRLayer.update 0 w))
       = log w ++ [HNewTransform (mkTransform 3 0)]
    /\ forall t, ~ In (HSetTransform n t) (log (world_of (OGLXRLayer.update 0 w))).
Proof.
  cbv zeta. eexists. split; [vm_compute; reflexivity|].
  split; [vm_compute; reflexivity|].
  split; [vm_compute; reflexivity|].
  intros t. vm_compute. intros [H|[H|[]]]; discriminate H.
Qed.

(** C10, amended.  In every world a renderer can be in, the dirty flag of
    every layer is set.  So for every layer that holds a native handle,
    [update()] returns after it has made a transform object that is new
    (not the one the layer held) from the layer's current pose and stored
    it; a quad layer then pushes it to the native handle, an instance of
    the base class does not. *)
Theorem update_always_rebuilds_native_transform :
  forall w, reachable w ->
    (forall l, transformDirty (heap w l) = true)
    /\ (forall l n,
           nativeLayer (heap w l) = Some n ->
           let t := mkTransform (h_fresh (host w)) (l_pose (heap w l)) in
           exists w',
             OGLXRLayer.update l w = Ok tt w'
             /\ nativeTransform (heap w' l) = Some t
             /\ nativeTransform (heap w l) <> Some t
             /\ log w'
                = log w ++ HNewTransform t
                  :: match l_class (heap w l) with
                     | COGLQuadLayer => [HSetTransform n (Some t)]
                     | COGLXRLayer => []
                     end).
Proof.
  intros w (classes & options & evs & Hrun).
  apply run_heap_frame in Hrun.
  assert (Hdirty : forall l, transformDirty (heap w l) = true).
  { intros l. apply (hf_dirty _ _ _ Hrun). reflexivity. }
  split; [exact Hdirty|].
  intros l n Hn t.
  destruct (update_dirty_native l n w Hn (Hdirty l)) as (w' & E & Ht & Hl).
  exists w'. split; [exact E|]. split; [exact Ht|]. split; [|exact Hl].
  intros Hold. apply (hf_transform _ _ _ Hrun) in Hold.
  destruct Hold as [Hold|Hold]; [discriminate Hold|].
  subst t. simpl in Hold. lia.
Qed.

Lemma layers_session_with_quad_reachable :
  exists w,
    run [EvRequestXR; EvXRCompatible true;
            EvSettle (XRState.Granted true); EvRegisterLayer 0]
        (XRRenderer.new_XRRenderer (fun _ => COGLQuadLayer)
                                   (fun _ => no_options)) = Some w.
Proof. eexists. vm_compute. reflexivity. Qed.

Lemma update_always_rebuilds_native_transform_witness :
  transformDirty
    (heap (world_of (XRRenderer.registerLayer 0 layers_session_started)) 0)
  = true.
Proof.
  apply (update_always_rebuilds_native_transform
           (world_of (XRRenderer.registerLayer 0 layers_session_started))).
  exists (fun _ => COGLQuadLayer), (fun _ => no_options),
    [EvRequestXR; EvXRCompatible true; EvSettle (XRState.Granted true);
     EvRegisterLayer 0].
  vm_compute. reflexivity.
Defined.

(** ** The loop invariant (C3) *)

(** The scheduler's view of the world is the same in [w'] as in [w], but
    for objects allocated in between. *)
Record sched_same (w w' : World) : Prop := mk_sched_same {
  ss_session : session (xr w') = session (xr w);
  ss_del : _clearLoopDel (renderer w') = _clearLoopDel (renderer w);
  ss_live : h_live (host w') = h_live (host w);
  ss_outstanding : h_outstanding (host w') = h_outstanding (host w);
  ss_rafid : h_rafid (host w') = h_rafid (host w);
  ss_fresh : h_fresh (host w) <= h_fresh (host w')
}.

Lemma sched_same_of_layer_frame reg w w' :
  layer_frame reg w w' -> sched_same w w'.
Proof. intros []. constructor; auto. Qed.

(** Ids and sessions in use are below the counters; a request of the
    running session belongs to the session [XRState] holds; and every
    outstanding request of a running clock is the one the stored closure
    cancels. *)
Record loop_inv (w : World) : Prop := mk_loop_inv {
  li_ids : forall src id,
    In (src, id) (h_outstanding (host w)) -> id < h_rafid (host w);
  li_nodup : NoDup (h_outstanding (host w));
  li_sessions : forall s id,
    In (OfSession s, id) (h_outstanding (host w)) -> s < h_fresh (host w);
  li_live : forall s, h_live (host w) = Some s -> s < h_fresh (host w);
  li_xr : forall s, session (xr w) = Some s -> s < h_fresh (host w);
  li_owner : forall s id,
    In (OfSession s, id) (h_outstanding (host w)) ->
    h_live (host w) = Some s -> session (xr w) = Some s;
  li_handle : forall src id,
    In (src, id) (h_outstanding (host w)) ->
    XRRenderer.live w src = true ->
    _clearLoopDel (renderer w) = Some (del_of src id)
}.

(** The invariant, with the running session and the session of [XRState]
    named. *)
Definition loop_inv_at (l x : option Session) (w : World) : Prop :=
  loop_inv w /\ h_live (host w) = l /\ session (xr w) = x.

Lemma live_same w w' src :
  h_live (host w') = h_live (host w) ->
  XRRenderer.live w' src = XRRenderer.live w src.
Proof. intros H. unfold XRRenderer.live. rewrite H. reflexivity. Qed.

Lemma li_sched_same w w' : loop_inv w -> sched_same w w' -> loop_inv w'.
Proof.
  intros [] []. constructor;
    rewrite ?ss_outstanding0, ?ss_rafid0, ?ss_live0, ?ss_session0, ?ss_del0;
    auto.
  - intros s id H. apply li_sessions0 in H. lia.
  - intros s H. apply li_live0 in H. lia.
  - intros s H. apply li_xr0 in H. lia.
  - intros src id H Hl. rewrite (live_same w w') in Hl; auto.
Qed.

Lemma li_at_sched_same l x w w' :
  loop_inv_at l x w -> sched_same w w' -> loop_inv_at l x w'.
Proof.
  intros (Hi & Hl & Hx) Hs. split; [eapply li_sched_same; eassumption|].
  destruct Hs. split; congruence.
Qed.

(** The life-cycle lemma: as long as the session the host runs has no
    outstanding request, [XRState] and the host may change sessions. *)
Lemma li_install w w' :
  loop_inv w ->
  h_outstanding (host w') = h_outstanding (host w) ->
  h_rafid (host w') = h_rafid (host w) ->
  _clearLoopDel (renderer w') = _clearLoopDel (renderer w) ->
  h_fresh (host w) <= h_fresh (host w') ->
  (forall s, h_live (host w') = Some s ->
             s < h_fresh (host w')
             /\ forall id, ~ In (OfSession s, id) (h_outstanding (host w))) ->
  (forall s, session (xr w') = Some s -> s < h_fresh (host w')) ->
  loop_inv w'.
Proof.
  intros [] Ho Hr Hd Hf Hl Hx. constructor; rewrite ?Ho, ?Hr, ?Hd; auto.
  - intros s id H. apply li_sessions0 in H. lia.
  - intros s H. apply Hl, H.
  - intros s id H Hs. exfalso. apply (proj2 (Hl s Hs) id H).
  - intros src id H Hlive. destruct src as [|s].
    + apply li_handle0; auto.
    + unfold XRRenderer.live in Hlive.
      destruct (h_live (host w')) as [s'|] eqn:E; [|discriminate].
      apply Nat.eqb_eq in Hlive. subst s'.
      exfalso. apply (proj2 (Hl s eq_refl) id H).
Qed.

(** A request of the running session: [XRState] holds that session. *)
Lemma li_no_foreign_requests w s :
  loop_inv w -> h_live (host w) = Some s -> session (xr w) <> Some s ->
  forall id, ~ In (OfSession s, id) (h_outstanding (host w)).
Proof. intros Hi Hl Hx id H. apply Hx. eapply li_owner; eassumption. Qed.

Lemma in_after_cancel w r :
  In r (after_cancel w) -> In r (h_outstanding (host w)).
Proof.
  unfold after_cancel.
  destruct (_clearLoopDel (renderer w)) as [[id|id]|];
    [destruct (session (xr w))| |]; auto;
    intros H; apply filter_In in H; tauto.
Qed.

Lemma nodup_after_cancel w :
  NoDup (h_outstanding (host w)) -> NoDup (after_cancel w).
Proof.
  unfold after_cancel.
  destruct (_clearLoopDel (renderer w)) as [[id|id]|];
    [destruct (session (xr w))| |]; auto; apply NoDup_filter.
Qed.

Lemma same_request_refl r : same_request r r = true.
Proof.
  unfold same_request. destruct (Source_eq_dec (fst r) (fst r));
    [apply Nat.eqb_refl | contradiction].
Qed.

(** After the stored closure has been called nothing is outstanding with a
    running clock. *)
Lemma after_cancel_dead w :
  loop_inv w ->
  forall src id,
    In (src, id) (after_cancel w) -> XRRenderer.live w src = false.
Proof.
  intros Hi src id Hin.
  destruct (XRRenderer.live w src) eqn:Hl; [exfalso | reflexivity].
  pose proof (li_handle w Hi src id (in_after_cancel w _ Hin) Hl) as Hd.
  unfold after_cancel in Hin. rewrite Hd in Hin.
  destruct src as [|s]; simpl in Hin.
  - apply filter_In in Hin. destruct Hin as [_ Hin].
    rewrite same_request_refl in Hin. discriminate.
  - assert (Hx : session (xr w) = Some s).
    { unfold XRRenderer.live in Hl.
      destruct (h_live (host w)) as [s'|] eqn:E; [|discriminate].
      apply Nat.eqb_eq in Hl. subst s'.
      eapply li_owner; eauto. eapply in_after_cancel.
      unfold after_cancel. rewrite Hd. exact Hin. }
    rewrite Hx in Hin. apply filter_In in Hin. destruct Hin as [_ Hin].
    rewrite same_request_refl in Hin. discriminate.
Qed.

Lemma li_clearLoop w :
  loop_inv w ->
  loop_inv (XRRenderer._clearLoop w)
  /\ forall src id,
       In (src, id) (h_outstanding (host (XRRenderer._clearLoop w))) ->
       XRRenderer.live w src = false.
Proof.
  intros Hi. rewrite clearLoop_spec. simpl. split.
  - destruct Hi. constructor; simpl.
    + intros src id H. eapply li_ids0, in_after_cancel, H.
    + apply nodup_after_cancel, li_nodup0.
    + intros s id H. eapply li_sessions0, in_after_cancel, H.
    + exact li_live0.
    + exact li_xr0.
    + intros s id H. eapply li_owner0, in_after_cancel, H.
    + intros src id H Hl. exfalso.
      assert (Hd : XRRenderer.live w src = false).
      { eapply after_cancel_dead; [constructor; eassumption | exact H]. }
      unfold XRRenderer.live in *. simpl in Hl. congruence.
  - intros src id H. eapply after_cancel_dead; eassumption.
Qed.

Lemma li_attach w : loop_inv w -> loop_inv (attach_world w).
Proof.
  intros Hi. unfold attach_world. rewrite attachLoop_spec. simpl.
  pose proof (after_cancel_dead w Hi) as Hdead.
  destruct Hi. constructor; simpl.
  - intros src id H. apply in_app_or in H. destruct H as [H|[[= <- <-]|[]]].
    + apply in_after_cancel, li_ids0 in H. lia.
    + lia.
  - apply NoDup_app; [apply nodup_after_cancel, li_nodup0 | |].
    + constructor; [intros [] | constructor].
    + intros r H [<-|[]]. apply in_after_cancel, li_ids0 in H. lia.
  - intros s id H. apply in_app_or in H. destruct H as [H|[[= E <-]|[]]].
    + eapply li_sessions0, in_after_cancel, H.
    + apply li_xr0. unfold clock in E. destruct (session (xr w)); congruence.
  - exact li_live0.
  - exact li_xr0.
  - intros s id H Hl. apply in_app_or in H. destruct H as [H|[[= E <-]|[]]].
    + eapply li_owner0; [eapply in_after_cancel, H | exact Hl].
    + unfold clock in E. destruct (session (xr w)); congruence.
  - intros src id H Hl. apply in_app_or in H. destruct H as [H|[[= <- <-]|[]]].
    + apply Hdead in H. unfold XRRenderer.live in *. simpl in Hl. congruence.
    + reflexivity.
Qed.

Lemma li_drop_request src id w :
  loop_inv w -> loop_inv (drop_request src id w).
Proof.
  intros []. constructor; simpl; auto.
  - intros src' id' H. apply filter_In in H. destruct H as [H _].
    eapply li_ids0, H.
  - apply NoDup_filter, li_nodup0.
  - intros s id' H. apply filter_In in H. destruct H as [H _].
    eapply li_sessions0, H.
  - intros s id' H. apply filter_In in H. destruct H as [H _].
    eapply li_owner0, H.
  - intros src' id' H Hl. apply filter_In in H. apply li_handle0; tauto.
Qed.

Section LoopInvariant.
Variables l x : option Session.
Local Abbreviation P := (loop_inv_at l x).

Lemma li_at_clearLoop w : P w -> P (XRRenderer._clearLoop w).
Proof.
  intros (Hi & Hl & Hx). split; [apply li_clearLoop, Hi|].
  rewrite clearLoop_spec. simpl. auto.
Qed.

Lemma li_at_attachLoop : preserves P XRRenderer._attachLoop.
Proof.
  intros w (Hi & Hl & Hx). rewrite attachLoop_returns. simpl.
  split; [apply li_attach, Hi|].
  unfold attach_world. rewrite attachLoop_spec. simpl. auto.
Qed.

Lemma li_at_drop_request src id w : P w -> P (drop_request src id w).
Proof.
  intros (Hi & Hl & Hx). split; [apply li_drop_request, Hi | auto].
Qed.

Ltac li_leaf :=
  let w := fresh "w" in
  let H := fresh "H" in
  intros w H;
  first [ apply li_at_clearLoop; exact H
        | apply li_at_drop_request; exact H
        | eapply li_at_sched_same;
          [exact H | constructor; simpl; solve [auto]] ].

Hint Resolve li_at_attachLoop : pres.

Lemma li_at_requestAnimationFrame c :
  preserves P (XRRenderer.requestAnimationFrame c).
Proof.
  unfold XRRenderer.requestAnimationFrame. pres_with li_leaf.
Qed.
Hint Resolve li_at_requestAnimationFrame : pres.

Lemma li_at_internalLoop time frame :
  preserves P (XRRenderer._internalLoop time frame).
Proof.
  unfold XRRenderer._internalLoop, XRRenderer.call, XRRenderer.run_action.
  pres_with li_leaf.
Qed.
Hint Resolve li_at_internalLoop : pres.

Lemma li_at_fire src id time frame :
  preserves P (XRRenderer.fire src id time frame).
Proof.
  unfold XRRenderer.fire, XRState.frameCallback. pres_with li_leaf.
Qed.

Lemma li_at_of_layer_frame {A} reg (m : M A) :
  (forall w0, preserves (layer_frame reg w0) m) -> preserves P m.
Proof.
  intros H w Hw. eapply li_at_sched_same; [exact Hw|].
  eapply sched_same_of_layer_frame, lf_frames, H.
Qed.

Lemma li_at_getLayer t o : preserves P (XRState.getLayer t o).
Proof. apply (li_at_of_layer_frame true). intros. apply lf_getLayer. Qed.

Lemma li_at_bindLayer i n : preserves P (XRRenderer.bindLayer i n).
Proof. apply (li_at_of_layer_frame true). intros. apply lf_bindLayer. Qed.

Lemma li_at_bindNativeLayerTo i :
  preserves P (XRRenderer.bindNativeLayerTo i).
Proof.
  apply (li_at_of_layer_frame true). intros. apply lf_bindNativeLayerTo.
Qed.
Hint Resolve li_at_getLayer li_at_bindLayer li_at_bindNativeLayerTo : pres.

Lemma li_at_onSessionLost : preserves P XRRenderer.onSessionLost.
Proof. unfold XRRenderer.onSessionLost. pres_with li_leaf. Qed.

Lemma li_at_onSessionStart : preserves P XRRenderer.onSessionStart.
Proof. unfold XRRenderer.onSessionStart. pres_with li_leaf. Qed.
End LoopInvariant.

Lemma li_at_intro w : loop_inv w ->
  loop_inv_at (h_live (host w)) (session (xr w)) w.
Proof. intros H. split; auto. Qed.

Lemma li_preserves_of_at {A} (m : M A) :
  (forall l x, preserves (loop_inv_at l x) m) -> preserves loop_inv m.
Proof. intros H w Hw. apply (H _ _ w (li_at_intro w Hw)). Qed.

(** [clear()] and the scheduler. *)
Lemma clear_sched w :
  let w' := XRState.clear w in
  session (xr w') = None
  /\ _clearLoopDel (renderer w') = _clearLoopDel (renderer w)
  /\ h_live (host w') = h_live (host w)
  /\ h_outstanding (host w') = h_outstanding (host w)
  /\ h_rafid (host w') = h_rafid (host w)
  /\ h_fresh (host w') = h_fresh (host w).
Proof.
  destruct (session (xr w)) as [s|] eqn:Hs; cbv zeta.
  - unfold XRState.clear. rewrite Hs. cbv zeta. rewrite fold_destroy.
    destruct (baseLayerTarget _), (baseLayer _);
      unfold XRState.destroy_if_able; try destruct (has_destroy _);
      simpl; auto 10.
  - rewrite (clear_without_session w Hs). auto 10.
Qed.

Lemma li_at_clear l x w :
  loop_inv_at l x w -> l = None \/ l <> x ->
  loop_inv_at l None (XRState.clear w).
Proof.
  intros (Hi & Hl & Hx) Hlx.
  destruct (clear_sched w) as (Cx & Cd & Cl & Co & Cr & Cf). cbv zeta in *.
  split; [|split; congruence].
  apply (li_install w); auto; try lia.
  - rewrite Cl, Cf. intros s Hs. split; [eapply li_live; eauto|].
    apply li_no_foreign_requests; auto.
    destruct Hlx as [->| Hne]; congruence.
  - rewrite Cx. discriminate.
Qed.

Section LifeCycleInvariant.
Local Abbreviation start := XRRenderer.onSessionStart.
Local Abbreviation lost := XRRenderer.onSessionLost.

Lemma li_at_emit l x e w : loop_inv_at l x w -> loop_inv_at l x (emit e w).
Proof.
  intros H. eapply li_at_sched_same; [exact H|]. constructor; simpl; auto.
Qed.

Lemma li_at_dispatchEvent l x e w :
  loop_inv_at l x w -> loop_inv_at l x (XRState.dispatchEvent start lost e w).
Proof.
  intros H. destruct e; simpl.
  - apply li_at_onSessionStart, li_at_emit, H.
  - apply li_at_onSessionLost, li_at_emit, H.
  - apply li_at_emit, H.
Qed.

Lemma li_at_onEnd x w :
  loop_inv_at None x w -> loop_inv_at None None (XRState.onEnd start lost w).
Proof.
  intros H. unfold XRState.onEnd, XRState.onInputChanged.
  apply li_at_dispatchEvent, li_at_emit.
  eapply li_at_clear; [exact H | auto].
Qed.

(** While the host runs no session, the "end" listeners keep the
    invariant. *)
Definition ended (w : World) : Prop := exists x, loop_inv_at None x w.

Lemma ended_call_fn f w : ended w -> ended (XRState.call_fn start lost f w).
Proof.
  intros [x H]. unfold XRState.call_fn. destruct (fn_target f).
  - exists None. eapply li_at_onEnd, H.
  - exists x. apply li_at_emit, H.
Qed.

Lemma ended_fold fs : forall w,
  ended w -> ended (fold_left (fun w f => XRState.call_fn start lost f w) fs w).
Proof.
  induction fs as [|f fs IH]; simpl; intros w H; [exact H|].
  apply IH, ended_call_fn, H.
Qed.

Lemma li_set_live_none w e :
  loop_inv w -> ended (emit e (set_host (with_live None) w)).
Proof.
  intros Hi. exists (session (xr w)). split; [|split; reflexivity].
  apply (li_install w); simpl; auto.
  - discriminate.
  - intros s. apply li_xr, Hi.
Qed.

Lemma li_host_endSession s w :
  loop_inv w -> loop_inv (XRRenderer.host_endSession s w).
Proof.
  intros Hi. unfold XRRenderer.host_endSession, XRState.host_endSession.
  destruct (h_live (host w)) as [s'|]; [|exact Hi].
  destruct (s' =? s); [|exact Hi].
  destruct (ended_fold (XRState.end_listeners s w) _
              (li_set_live_none w (HEndSession s) Hi)) as (x & H & _).
  exact H.
Qed.

Lemma li_end w : loop_inv w -> loop_inv (XRRenderer.xr_end w).
Proof.
  intros Hi. unfold XRRenderer.xr_end, XRState.end_.
  destruct (session (xr w)) as [s|] eqn:Hx; [|exact Hi].
  unfold XRState.host_endSession, XRState.onInputChanged.
  destruct (clear_sched w) as (Cx & Cd & Cl & Co & Cr & Cf).
  cbv zeta in *. simpl. rewrite Cl.
  destruct (h_live (host w)) as [s'|] eqn:Hl.
  - destruct (s' =? s) eqn:E.
    + match goal with
      | |- loop_inv (fold_left _ ?fs ?w0) =>
          destruct (ended_fold fs w0) as (x & H & _); [|exact H]
      end.
      exists None. split; [|split; [reflexivity | exact Cx]].
      apply (li_install w); simpl; auto; try lia; try discriminate.
      rewrite Cx. discriminate.
    + apply Nat.eqb_neq in E.
      apply (li_at_emit (Some s') None), li_at_clear with (x := Some s).
      * split; auto.
      * right. congruence.
  - apply (li_at_emit None None), li_at_clear with (x := Some s); auto.
    split; auto.
Qed.

Lemma li_negotiate w :
  loop_inv w -> loop_inv (XRRenderer.requestXR_negotiate w).
Proof.
  intros Hi. unfold XRRenderer.requestXR_negotiate,
    XRState.requestSession_begin.
  apply li_clearLoop in Hi. destruct Hi as [Hi _].
  destruct (XRState.active _); [apply li_end, Hi | exact Hi].
Qed.
End LifeCycleInvariant.

(** [init] in two parts: [XRState] takes the session, then attaches its
    listeners and announces the start. *)
Definition init_enter (s : Session) (sp : Space) (w : World) : World :=
  set_xr (with_session (Some s))
    (set_xr (with_space (Some sp))
       (if XRState.active w then XRState.clear w else w)).

Definition init_announce (s : Session) : M unit :=
  i <- fresh ;;
  lift (host_addEventListener (s, SEnd, mkFn i MOnEnd)) ;;;
  j <- fresh ;;
  lift (host_addEventListener
          (s, SInputSourcesChange, mkFn j MOnInputChanged)) ;;;
  lift (XRState.dispatchEvent XRRenderer.onSessionStart
          XRRenderer.onSessionLost XRStart).

Lemma init_split s sp w :
  XRRenderer.xr_init s sp w = init_announce s (init_enter s sp w).
Proof. reflexivity. Qed.

Definition granted_world (b : bool) (w : World) : World :=
  set_host (fun h => with_fresh (S (h_fresh h)) h)
    (set_layersSupport b
       (set_host (with_live (Some (h_fresh (host w))))
          (set_host (fun h => with_fresh (S (h_fresh h)) h) w))).

Lemma settle_granted b w :
  XRState.requestSession_settle XRRenderer.onSessionStart
    XRRenderer.onSessionLost (XRState.Granted b) w
  = XRRenderer.xr_init (h_fresh (host w)) (S (h_fresh (host w)))
      (granted_world b w).
Proof. reflexivity. Qed.

Lemma li_at_fresh l x : preserves (loop_inv_at l x) fresh.
Proof.
  intros w H. eapply li_at_sched_same; [exact H|]. constructor; simpl; auto.
Qed.

Lemma li_at_init_announce s l x :
  preserves (loop_inv_at l x) (init_announce s).
Proof.
  pose proof (li_at_fresh l x). unfold init_announce.
  pres_with ltac:(
    let w := fresh "w" in
    let H := fresh "H" in
    intros w H;
    first [ apply li_at_dispatchEvent; exact H
          | eapply li_at_sched_same;
            [exact H | constructor; simpl; solve [auto]] ]).
Qed.

(** [XRState] takes a session the host has just started. *)
Lemma li_init_enter s sp w :
  loop_inv w ->
  h_live (host w) = Some s ->
  (forall id, ~ In (OfSession s, id) (h_outstanding (host w))) ->
  loop_inv_at (Some s) (Some s) (init_enter s sp w).
Proof.
  intros Hi Hl Hno. unfold init_enter.
  assert (Hc : exists wc,
             (if XRState.active w then XRState.clear w else w) = wc
             /\ _clearLoopDel (renderer wc) = _clearLoopDel (renderer w)
             /\ h_live (host wc) = h_live (host w)
             /\ h_outstanding (host wc) = h_outstanding (host w)
             /\ h_rafid (host wc) = h_rafid (host w)
             /\ h_fresh (host wc) = h_fresh (host w)).
  { eexists. split; [reflexivity|]. destruct (XRState.active w); auto 10.
    destruct (clear_sched w) as (_ & H). exact H. }
  destruct Hc as (wc & -> & Cd & Cl & Co & Cr & Cf).
  split; [|split; simpl; congruence].
  apply (li_install w); simpl; auto; try lia.
  - rewrite Cl, Cf, Hl. intros s' [= <-].
    split; [eapply li_live; eauto | exact Hno].
  - rewrite Cf. intros s' [= <-]. eapply li_live; eauto.
Qed.

Lemma li_settle o w :
  loop_inv w ->
  (grants o = true -> h_live (host w) = None) ->
  loop_inv (world_of (XRRenderer.requestXR_settle o w)).
Proof.
  intros Hi Hg. unfold XRRenderer.requestXR_settle.
  rewrite try_finally_attach.
  assert (H1 : loop_inv
                 (world_of (XRState.requestSession_settle
                              XRRenderer.onSessionStart
                              XRRenderer.onSessionLost o w))).
  { assert (Hfresh : forall b,
              loop_inv (granted_world b w)
              /\ h_live (host (granted_world b w)) = Some (h_fresh (host w))
              /\ forall id, ~ In (OfSession (h_fresh (host w)), id)
                                 (h_outstanding (host (granted_world b w)))).
    { intros b. split; [|split; [reflexivity|]].
      - apply (li_install w); simpl; auto.
        + intros s [= <-]. split; [lia|].
          intros id H. apply (li_sessions w Hi) in H. lia.
        + intros s H. apply (li_xr w Hi) in H. lia.
      - simpl. intros id H. apply (li_sessions w Hi) in H. lia. }
    destruct o as [|b|b].
    - exact Hi.
    - apply (li_install w); simpl; auto.
      + intros s [= <-]. split; [lia|].
        intros id H. apply (li_sessions w Hi) in H. lia.
      + intros s H. apply (li_xr w Hi) in H. lia.
    - rewrite settle_granted, init_split.
      destruct (Hfresh b) as (H & Hl & Hno).
      apply (li_at_init_announce (h_fresh (host w))
               (Some (h_fresh (host w))) (Some (h_fresh (host w)))).
      apply li_init_enter; assumption. }
  destruct (XRState.requestSession_settle _ _ o w); simpl in *;
    apply li_attach, H1.
Qed.

Lemma li_new classes options :
  loop_inv (XRRenderer.new_XRRenderer classes options).
Proof.
  constructor; simpl; try (intros; contradiction); try discriminate.
  constructor.
Qed.

Lemma step_loop_inv e w w' : loop_inv w -> step e w = Some w' -> loop_inv w'.
Proof.
  intros Hi. destruct e; simpl; intros H.
  - injection H as <-.
    apply (li_preserves_of_at (XRRenderer.requestAnimationFrame c)); auto.
    intros. apply li_at_requestAnimationFrame.
  - injection H as <-. eapply li_sched_same; [exact Hi|].
    constructor; simpl; auto.
  - destruct (_ && _); [|discriminate]. injection H as <-.
    apply (li_preserves_of_at (XRRenderer.fire src id time frame)); auto.
    intros. apply li_at_fire.
  - injection H as <-. rewrite attachLoop_returns. apply li_attach, Hi.
  - injection H as <-. exact Hi.
  - destruct ok; injection H as <-; [apply li_negotiate, Hi | exact Hi].
  - destruct (grants o && is_some (h_live (host w))) eqn:E; [discriminate|].
    injection H as <-. apply li_settle; [exact Hi|].
    intros Hg. rewrite Hg in E. simpl in E.
    destruct (h_live (host w)); [discriminate | reflexivity].
  - destruct (h_live (host w)); [|discriminate]. injection H as <-.
    apply li_host_endSession, Hi.
  - injection H as <-. apply li_end, Hi.
  - injection H as <-. eapply li_sched_same; [exact Hi|].
    eapply sched_same_of_layer_frame, (lf_registerLayer w l), lf_refl.
  - injection H as <-. eapply li_sched_same; [exact Hi|].
    eapply sched_same_of_layer_frame, (lf_destroy w l), lf_refl.
  - destruct (composition_layer n); [|discriminate]. injection H as <-.
    eapply li_sched_same; [exact Hi|].
    eapply sched_same_of_layer_frame, (lf_bindLayer w true l n), lf_refl.
  - injection H as <-. eapply li_sched_same; [exact Hi|].
    eapply sched_same_of_layer_frame, (lf_update true w l), lf_refl.
  - injection H as <-. eapply li_sched_same; [exact Hi|].
    constructor; simpl; auto.
  - injection H as <-. eapply li_sched_same; [exact Hi|].
    constructor; simpl; auto.
Qed.

Lemma run_loop_inv evs : forall w w',
  loop_inv w -> run evs w = Some w' -> loop_inv w'.
Proof.
  induction evs as [|e evs IH]; simpl; intros w w' Hi H.
  - injection H as <-. exact Hi.
  - destruct (step e w) as [w1|] eqn:E; [|discriminate].
    eapply IH; [|exact H]. eapply step_loop_inv; eassumption.
Qed.

Lemma reachable_loop_inv w : reachable w -> loop_inv w.
Proof.
  intros (classes & options & evs & H).
  eapply run_loop_inv; [apply li_new | exact H].
Qed.

Lemma run_app evs1 : forall evs2 w w1,
  run evs1 w = Some w1 -> run (evs1 ++ evs2) w = run evs2 w1.
Proof.
  induction evs1 as [|e evs1 IH]; simpl; intros evs2 w w1 H.
  - injection H as <-. reflexivity.
  - destruct (step e w); [apply IH, H | discriminate].
Qed.

Lemma reachable_step e w w' : reachable w -> step e w = Some w' -> reachable w'.
Proof.
  intros (classes & options & evs & H) Hs.
  exists classes, options, (evs ++ [e]).
  rewrite (run_app evs [e] _ w H). simpl. rewrite Hs. reflexivity.
Qed.

Lemma length_le_1_of_all_equal {A} (l : list A) :
  NoDup l -> (forall a b, In a l -> In b l -> a = b) -> List.length l <= 1.
Proof.
  destruct l as [|a [|b l]]; simpl; intros Hn He; try lia.
  exfalso. inversion Hn as [|? ? Hni _]; subst. apply Hni.
  left. apply He; simpl; auto.
Qed.

(** In a world that satisfies the invariant two outstanding requests of
    running clocks are the same request. *)
Lemma li_live_unique w r1 r2 :
  loop_inv w ->
  In r1 (h_outstanding (host w)) -> XRRenderer.live w (fst r1) = true ->
  In r2 (h_outstanding (host w)) -> XRRenderer.live w (fst r2) = true ->
  r1 = r2.
Proof.
  intros Hi H1 L1 H2 L2. destruct r1 as [s1 i1], r2 as [s2 i2]. simpl in *.
  pose proof (li_handle w Hi s1 i1 H1 L1) as D1.
  pose proof (li_handle w Hi s2 i2 H2 L2) as D2.
  rewrite D1 in D2. unfold XRRenderer.live in *.
  destruct s1 as [|a], s2 as [|b]; simpl in D2; try discriminate;
    injection D2 as <-; [reflexivity|].
  destruct (h_live (host w)); [|discriminate].
  apply Nat.eqb_eq in L1, L2. congruence.
Qed.

(** The world of [layers_session_started] after the host has ended the
    session. *)
Definition session_lost : World :=
  XRRenderer.host_endSession 2 layers_session_started.

(** C3, as stated, fails when the session ends.  [XRState] clears its
    session before the renderer hears of the loss, so the stored closure
    ([this.session?.cancelAnimationFrame(loopid)]) cancels nothing: the
    request made of the ended session is never cancelled, and the host's
    books show two requests once the display clock has been asked. *)
Lemma session_loss_leaves_request_uncancelled :
  run [EvRequestXR; EvXRCompatible true; EvSettle (XRState.Granted true)]
      (XRRenderer.new_XRRenderer (fun _ => COGLQuadLayer)
                                 (fun _ => no_options))
  = Some layers_session_started
  /\ step EvSessionEnd layers_session_started = Some session_lost
  /\ reachable session_lost
  /\ h_outstanding (host layers_session_started) = [(OfSession 2, 1)]
  /\ h_outstanding (host session_lost) = [(OfSession 2, 1); (Display, 2)]
  /\ ~ List.length (h_outstanding (host session_lost)) <= 1
  /\ In (HRequestFrame Display 2) (log session_lost)
  /\ ~ In (HCancelFrame (OfSession 2) 1) (log session_lost).
Proof.
  split; [vm_compute; reflexivity|].
  split; [vm_compute; reflexivity|].
  split.
  { exists (fun _ => COGLQuadLayer), (fun _ => no_options),
      [EvRequestXR; EvXRCompatible true; EvSettle (XRState.Granted true); EvSessionEnd].
    vm_compute. reflexivity. }
  split; [vm_compute; reflexivity|].
  split; [vm_compute; reflexivity|].
  split; [vm_compute; lia|].
  split.
  - vm_compute. repeat (first [left; reflexivity | right]).
  - vm_compute. intros H.
    repeat (destruct H as [H|H]; [discriminate H|]). exact H.
Qed.

(** C3, amended.  In every world a renderer can be in, at most one request
    is outstanding with a running clock (the display, or the session the
    host is running), and it is the one the stored closure cancels.
    [_attachLoop] first calls the stored closure, which cancels that
    request, and then asks the current clock for the next frame, which is
    then the only request outstanding with a running clock.  (A request
    left with a session that has ended is outside this: it is not
    cancelled, and no clock will fire it.) *)
Theorem scheduler_one_live_request :
  forall w, reachable w ->
    List.length (filter (fun r => XRRenderer.live w (fst r))
                        (h_outstanding (host w))) <= 1
    /\ (forall src id,
           In (src, id) (h_outstanding (host w)) ->
           XRRenderer.live w src = true ->
           _clearLoopDel (renderer w) = Some (del_of src id)
           /\ In (HCancelFrame src id) (cancel_events w))
    /\ exists w',
         XRRenderer._attachLoop w = Ok tt w'
         /\ log w'
            = log w ++ cancel_events w
              ++ [HRequestFrame (clock w) (h_rafid (host w))]
         /\ In (clock w, h_rafid (host w)) (h_outstanding (host w'))
         /\ forall r,
              In r (h_outstanding (host w')) ->
              XRRenderer.live w' (fst r) = true ->
              r = (clock w, h_rafid (host w)).
Proof.
  intros w Hr. pose proof (reachable_loop_inv w Hr) as Hi.
  split; [|split].
  - apply length_le_1_of_all_equal.
    + apply NoDup_filter, (li_nodup w Hi).
    + intros a b Ha Hb. apply filter_In in Ha, Hb.
      apply (li_live_unique w a b Hi); tauto.
  - intros src id Hin Hl.
    pose proof (li_handle w Hi src id Hin Hl) as Hd. split; [exact Hd|].
    unfold cancel_events. rewrite Hd. destruct src as [|s]; simpl.
    + left. reflexivity.
    + assert (Hx : session (xr w) = Some s).
      { unfold XRRenderer.live in Hl.
        destruct (h_live (host w)) as [s'|] eqn:E; [|discriminate].
        apply Nat.eqb_eq in Hl. subst s'. eapply li_owner; eauto. }
      rewrite Hx. left. reflexivity.
  - exists (attach_world w). split; [apply attachLoop_returns|].
    pose proof (li_attach w Hi) as Hi'.
    assert (Hnew : In (clock w, h_rafid (host w))
                      (h_outstanding (host (attach_world w)))).
    { unfold attach_world. rewrite attachLoop_spec. simpl.
      apply in_or_app. right. left. reflexivity. }
    split; [unfold attach_world; rewrite attachLoop_spec; reflexivity|].
    split; [exact Hnew|].
    intros [src id] Hin Hl. simpl in Hl.
    pose proof (li_handle _ Hi' src id Hin Hl) as Hd.
    assert (Hd' : _clearLoopDel (renderer (attach_world w))
                  = Some (del_of (clock w) (h_rafid (host w)))).
    { unfold attach_world. rewrite attachLoop_spec. reflexivity. }
    rewrite Hd' in Hd. injection Hd as Hd.
    assert (Hx : session (xr (attach_world w)) = session (xr w)).
    { unfold attach_world. rewrite attachLoop_spec. reflexivity. }
    unfold clock in *. destruct src as [|s].
    + destruct (session (xr w)); simpl in Hd; [discriminate|].
      injection Hd as ->. reflexivity.
    + assert (Hs : session (xr (attach_world w)) = Some s).
      { unfold XRRenderer.live in Hl.
        destruct (h_live (host (attach_world w))) as [s'|] eqn:E;
          [|discriminate].
        apply Nat.eqb_eq in Hl. subst s'. eapply li_owner; eauto. }
      rewrite Hx in Hs. rewrite Hs in *. simpl in Hd.
      injection Hd as ->. reflexivity.
Qed.

Lemma layers_session_started_reachable : reachable layers_session_started.
Proof.
  exists (fun _ => COGLQuadLayer), (fun _ => no_options),
    [EvRequestXR; EvXRCompatible true; EvSettle (XRState.Granted true)].
  vm_compute. reflexivity.
Qed.

Lemma scheduler_one_live_request_witness :
  List.length
    (filter (fun r => XRRenderer.live layers_session_started (fst r))
            (h_outstanding (host layers_session_started))) <= 1.
Proof.
  exact (proj1 (scheduler_one_live_request layers_session_started
                  layers_session_started_reachable)).
Defined.

(** ** The layer registry (C6) *)

(** *** Which calls return *)

Lemma createFallback_quad_returns l w :
  l_class (heap w l) = COGLQuadLayer ->
  exists w', OGLXRLayer.createFallback l w = Ok tt w'.
Proof.
  intros Hc. unfold OGLXRLayer.createFallback,
    OGLXRLayer._createFallbackLayers, OGLXRLayer.new_QuadPrimitive.
  rewrite bind_gets. destruct (is_some (emulatedLayers (heap w l)));
    [eexists; reflexivity|].
  unfold bind at 1. rewrite bind_gets, Hc.
  unfold bind, fresh, lift, ret.
  destruct (OGLXRLayer.wants_stereo (l_options (heap w l)));
    eexists; reflexivity.
Qed.

Lemma createFallback_base_throws l w :
  l_class (heap w l) = COGLXRLayer ->
  emulatedLayers (heap w l) = None ->
  OGLXRLayer.createFallback l w = Throw (JSError "Not implemented") w.
Proof.
  intros Hc He. unfold OGLXRLayer.createFallback,
    OGLXRLayer._createFallbackLayers.
  rewrite bind_gets, He. simpl. unfold bind at 1. rewrite bind_gets, Hc.
  reflexivity.
Qed.

Lemma updateNative_quad_returns l n w :
  l_class (heap w l) = COGLQuadLayer ->
  nativeLayer (heap w l) = Some n ->
  exists w', OGLXRLayer._updateNative l w = Ok tt w'.
Proof.
  destruct w as [ls x r hp ho lg]. simpl.
  destruct (hp l) as [c o nl nt em cb d ch p] eqn:EL. simpl.
  intros -> ->.
  unfold OGLXRLayer._updateNative, OGLXRLayer.super_updateNative,
    OGLXRLayer.push_transform.
  cbv -[upd app Nat.eqb orb negb]. rewrite EL.
  cbv -[upd app Nat.eqb orb negb]. rewrite EL.
  destruct (d || negb match nt with Some _ => true | None => false end);
    cbv -[upd app Nat.eqb]; rewrite ?EL, ?upd_same;
    eexists; reflexivity.
Qed.

(** The first part of [bindLayer]: dropping a native layer that is not the
    one to bind.  It returns, and touches neither the class nor the
    fallback geometry of the layer. *)
Lemma bindLayer_first l layer w (k : M unit) :
  exists w1,
    (cur <- gets (fun w => nativeLayer (heap w l)) ;;
     match cur with
     | Some n =>
         if negb (same_native n layer)
         then OGLXRLayer.call_onLayerDestroy XRRenderer._onLayerDestroy l true
                ;;; lift (OGLXRLayer.destroyNative l)
         else ret tt
     | None => ret tt
     end ;;; k) w = k w1
    /\ l_class (heap w1 l) = l_class (heap w l)
    /\ emulatedLayers (heap w1 l) = emulatedLayers (heap w l)
    /\ (layer = None -> nativeLayer (heap w1 l) = None).
Proof.
  rewrite bind_gets. unfold bind at 1.
  destruct (nativeLayer (heap w l)) as [n|] eqn:En.
  - destruct (same_native n layer) eqn:Es; simpl.
    + exists w. repeat split; auto. intros ->. discriminate.
    + unfold bind, lift.
      destruct (call_onLayerDestroy_returns l true w) as (w1 & E1 & Hh).
      rewrite E1. eexists. split; [reflexivity|].
      pose proof (repr_destroyNative l w1) as Hr. unfold repr in Hr.
      rewrite Hh in Hr.
      pose proof (lf_class _ _ _ (lf_destroyNative true l w1) l) as Hc.
      rewrite Hh in Hc. repeat split; congruence.
  - exists w. simpl. auto.
Qed.

Lemma bindLayer_quad_returns l layer w :
  l_class (heap w l) = COGLQuadLayer ->
  exists w', XRRenderer.bindLayer l layer w = Ok tt w'.
Proof.
  intros Hc. unfold XRRenderer.bindLayer, OGLXRLayer.bindLayer.
  destruct layer as [n|].
  - destruct (bindLayer_first l (Some n) w
                (lift (OGLXRLayer.destroyFallback l) ;;;
                 lift (set_layer l (with_nativeLayer (Some n))) ;;;
                 OGLXRLayer._updateNative l)) as (w1 & E & Hc1 & _).
    cbv beta iota zeta in *. rewrite E, !bind_lift.
    apply (updateNative_quad_returns l n).
    + simpl. rewrite upd_same. simpl.
      rewrite (lf_class _ _ _ (lf_destroyFallback true l w1) l). congruence.
    + simpl. rewrite upd_same. reflexivity.
  - destruct (bindLayer_first l None w (OGLXRLayer.createFallback l))
      as (w1 & E & Hc1 & _).
    cbv beta iota zeta in *. rewrite E.
    apply createFallback_quad_returns. congruence.
Qed.

Lemma bindLayer_base_throws l w :
  l_class (heap w l) = COGLXRLayer ->
  emulatedLayers (heap w l) = None ->
  exists e w', XRRenderer.bindLayer l None w = Throw e w'.
Proof.
  intros Hc He. unfold XRRenderer.bindLayer, OGLXRLayer.bindLayer.
  destruct (bindLayer_first l None w (OGLXRLayer.createFallback l))
    as (w1 & E & Hc1 & He1 & _).
  cbv beta iota zeta in *. rewrite E.
  rewrite createFallback_base_throws; [eauto | congruence | congruence].
Qed.

(** [getLayer] makes nothing for the type tag "none". *)
Lemma getLayer_none_creates_nothing o w n w' :
  XRState.getLayer TNone o w <> Ok (Some n) w'.
Proof.
  destruct w as [ls [ses sp lys bl blt lf gb f1 f2] r hp ho lg].
  destruct ls, ses as [s|], gb; cbv -[app Nat.ltb List.length];
    try discriminate.
Qed.

(** The native layer [bindNativeLayerTo] asks for: the request returns or
    is caught, and an instance of the base class gets none. *)
Lemma bindNativeLayerTo_split l w :
  exists n w1,
    XRRenderer.bindNativeLayerTo l w
    = (XRRenderer.bindLayer l n ;;; ret (is_some n)) w1
    /\ layer_frame true w w1
    /\ (l_class (heap w l) = COGLXRLayer -> n = None).
Proof.
  unfold XRRenderer.bindNativeLayerTo. rewrite bind_gets.
  destruct (layersSupport w); [|exists None, w; auto using lf_refl].
  set (f := fun w => set_layer l (fun L =>
         with_options (XRRenderer.with_o_space (space (xr w)) (l_options L)) L) w).
  assert (Hf : layer_frame true w (f w)).
  { apply lf_set_layer; intros; simpl; auto. }
  assert (Hc : l_class (heap (f w) l) = l_class (heap w l)).
  { apply (lf_class _ _ _ Hf). }
  pose proof (lf_getLayer true (f w) (l_type (heap (f w) l))
                (Some (l_options (heap (f w) l))) (f w) (lf_refl _ _)) as Hg.
  unfold bind at 1. unfold bind at 1. unfold lift at 1. fold (f w).
  unfold bind at 1. unfold gets at 1. unfold try_catch.
  destruct (XRState.getLayer (l_type (heap (f w) l))
              (Some (l_options (heap (f w) l))) (f w)) as [r w1|e w1] eqn:E;
    simpl in Hg.
  - exists r, w1. split; [reflexivity|]. split; [eapply lf_trans; eauto|].
    intros Hb. destruct r as [n|]; [exfalso|reflexivity].
    unfold l_type in E. rewrite Hc, Hb in E.
    exact (getLayer_none_creates_nothing _ _ _ _ E).
  - exists None, (emit (CError "[LAYER Binding Error]") w1).
    split; [reflexivity|]. split; [|reflexivity].
    eapply lf_trans; [exact Hf|]. eapply lf_trans; [exact Hg|].
    apply lf_emit.
Qed.

Lemma bindNativeLayerTo_quad_returns l w :
  l_class (heap w l) = COGLQuadLayer ->
  exists b w', XRRenderer.bindNativeLayerTo l w = Ok b w'
               /\ layer_frame true w w'.
Proof.
  intros Hc. destruct (bindNativeLayerTo_split l w) as (n & w1 & E & Hf & _).
  rewrite E.
  destruct (bindLayer_quad_returns l n w1) as (w2 & E2).
  { rewrite (lf_class _ _ _ Hf). exact Hc. }
  pose proof (lf_bindLayer w1 true l n w1 (lf_refl _ _)) as Hb.
  unfold bind. rewrite E2 in *. simpl in Hb.
  exists (is_some n), w2. split; [reflexivity|]. eapply lf_trans; eauto.
Qed.

Lemma bindNativeLayerTo_base_throws l w :
  l_class (heap w l) = COGLXRLayer ->
  emulatedLayers (heap w l) = None ->
  exists e w', XRRenderer.bindNativeLayerTo l w = Throw e w'
               /\ layer_frame true w w'.
Proof.
  intros Hc He.
  destruct (bindNativeLayerTo_split l w) as (n & w1 & E & Hf & Hn).
  rewrite E, (Hn Hc).
  destruct (bindLayer_base_throws l w1) as (e & w2 & E2).
  { rewrite (lf_class _ _ _ Hf). exact Hc. }
  { destruct (lf_emulated _ _ _ Hf l Hc) as [H|H]; congruence. }
  pose proof (lf_bindLayer w1 true l None w1 (lf_refl _ _)) as Hb.
  unfold bind. rewrite E2 in *. simpl in Hb.
  exists e, w2. split; [reflexivity|]. eapply lf_trans; eauto.
Qed.

(** *** What the three kinds of calls do to the registry *)

(** The registry after [registerLayer] took the layer out. *)
Definition without_first (l : LayerId) (ls : list LayerId) : list LayerId :=
  if existsb (Nat.eqb l) ls then OGLXRLayer.remove_first l ls else ls.

Lemma registerLayer_quad l w :
  l_class (heap w l) = COGLQuadLayer ->
  exists w',
    XRRenderer.registerLayer l w
    = Ok (S (List.length (without_first l (r_layers (renderer w))))) w'
    /\ r_layers (renderer w')
       = l :: without_first l (r_layers (renderer w))
    /\ onLayerDestroy_cb (heap w' l) = CbRenderer.
Proof.
  intros Hc. unfold XRRenderer.registerLayer. rewrite bind_lift.
  cbv beta. set (w1 := set_renderer _ w).
  destruct (bindNativeLayerTo_quad_returns l w1) as (b & w2 & E & Hf);
    [exact Hc|].
  pose proof (lf_registry _ _ _ Hf eq_refl) as Hr.
  unfold bind at 1. rewrite E. unfold bind, lift, gets.
  eexists. split; [|split].
  - simpl. rewrite Hr. simpl. unfold without_first.
    destruct (existsb _ _); reflexivity.
  - simpl. rewrite Hr. simpl. unfold without_first.
    destruct (existsb _ _); reflexivity.
  - simpl. rewrite upd_same. reflexivity.
Qed.

Lemma registerLayer_base l w :
  l_class (heap w l) = COGLXRLayer ->
  emulatedLayers (heap w l) = None ->
  exists e w',
    XRRenderer.registerLayer l w = Throw e w'
    /\ r_layers (renderer w') = without_first l (r_layers (renderer w)).
Proof.
  intros Hc He. unfold XRRenderer.registerLayer. rewrite bind_lift.
  cbv beta. set (w1 := set_renderer _ w).
  destruct (bindNativeLayerTo_base_throws l w1) as (e & w2 & E & Hf);
    [exact Hc|exact He|].
  pose proof (lf_registry _ _ _ Hf eq_refl) as Hr.
  unfold bind at 1. rewrite E. exists e, w2. split; [reflexivity|].
  rewrite Hr. simpl. unfold without_first.
  destruct (existsb _ _); reflexivity.
Qed.

Lemma destroy_registry l w :
  r_layers (renderer (world_of (XRRenderer.destroy l w)))
  = match onLayerDestroy_cb (heap w l) with
    | CbRenderer => filter (fun e => negb (l =? e)) (r_layers (renderer w))
    | CbDefault => r_layers (renderer w)
    end.
Proof.
  unfold XRRenderer.destroy, OGLXRLayer.destroy,
    OGLXRLayer.call_onLayerDestroy.
  unfold bind at 1. rewrite bind_gets.
  destruct (onLayerDestroy_cb (heap w l)).
  - simpl. apply (lf_registry _ _ _ (lf_destroyNative true l w) eq_refl).
  - unfold XRRenderer._onLayerDestroy. simpl negb. cbv iota.
    rewrite bind_lift.
    match goal with |- context [bind (gets ?g) ?k ?w1] =>
      assert (Hp : preserves (layer_frame true w1) (bind (gets g) k))
        by lf_pres;
      specialize (Hp w1 (lf_refl _ _));
      destruct (bind (gets g) k w1) as [[] w2|e w2]; simpl in Hp |- *
    end.
    + transitivity (r_layers (renderer w2)).
      * exact (lf_registry _ _ _ (lf_destroyNative true l w2) eq_refl).
      * exact (lf_registry _ _ _ Hp eq_refl).
    + apply (lf_registry _ _ _ Hp eq_refl).
Qed.

Lemma in_remove_first x l ls :
  NoDup ls -> In x (OGLXRLayer.remove_first l ls) <-> In x ls /\ x <> l.
Proof.
  induction 1 as [|y ys Hy Hn IH]; simpl; [tauto|].
  destruct (Nat.eqb_spec y l) as [->|Hne].
  - split; [intros H; split; [auto|intros ->; auto] | intros [[->|H] H']];
      tauto.
  - simpl. rewrite IH. split.
    + intros [->|[H H']]; auto.
    + intros [[->|H] H']; auto.
Qed.

Lemma nodup_remove_first l ls :
  NoDup ls -> NoDup (OGLXRLayer.remove_first l ls).
Proof.
  induction 1 as [|y ys Hy Hn IH]; simpl; [constructor|].
  destruct (y =? l); [exact Hn|]. constructor; [|exact IH].
  rewrite in_remove_first; tauto.
Qed.

Lemma existsb_eqb_in l ls : existsb (Nat.eqb l) ls = true <-> In l ls.
Proof.
  rewrite existsb_exists. split.
  - intros (x & Hx & E). apply Nat.eqb_eq in E. subst. exact Hx.
  - intros H. exists l. split; [exact H | apply Nat.eqb_refl].
Qed.

Lemma in_without_first x l ls :
  NoDup ls -> In x (without_first l ls) <-> In x ls /\ x <> l.
Proof.
  intros Hn. unfold without_first.
  destruct (existsb (Nat.eqb l) ls) eqn:E; [apply in_remove_first, Hn|].
  split; [|tauto]. intros H. split; [exact H|]. intros ->.
  apply existsb_eqb_in in H. congruence.
Qed.

Lemma nodup_without_first l ls : NoDup ls -> NoDup (without_first l ls).
Proof.
  intros Hn. unfold without_first.
  destruct (existsb (Nat.eqb l) ls); [apply nodup_remove_first|]; exact Hn.
Qed.

Lemma in_filter_other x l ls :
  In x (filter (fun e => negb (l =? e)) ls) <-> In x ls /\ x <> l.
Proof.
  rewrite filter_In, Bool.negb_true_iff, Nat.eqb_neq.
  split; intros [H H']; split; auto.
Qed.

(** *** The registry the calls made so far ask for

    A call [registerLayer(l)] that returns registers [l]; [l.destroy()]
    destroys it fully.  The call returns for the classes that implement
    the fallback geometry. *)
Definition registrable (c : LayerClass) : bool :=
  match c with COGLQuadLayer => true | COGLXRLayer => false end.

Definition live_after (classes : LayerId -> LayerClass) (l : LayerId)
    (b : bool) (e : Ev) : bool :=
  match e with
  | EvRegisterLayer l' => if l' =? l then registrable (classes l) else b
  | EvDestroyLayer l' => if l' =? l then false else b
  | _ => b
  end.

(** [l] was registered and not fully destroyed since. *)
Definition is_live (classes : LayerId -> LayerClass) (evs : list Ev)
    (l : LayerId) : bool :=
  fold_left (live_after classes l) evs false.

Definition registrations (evs : list Ev) : list LayerId :=
  flat_map (fun e => match e with EvRegisterLayer l => [l] | _ => [] end) evs.

(** The distinct registered layers not yet fully destroyed. *)
Definition live_layers (classes : LayerId -> LayerClass) (evs : list Ev)
    : list LayerId :=
  nodup Nat.eq_dec (filter (is_live classes evs) (registrations evs)).

Lemma is_live_snoc classes evs e l :
  is_live classes (evs ++ [e]) l
  = live_after classes l (is_live classes evs l) e.
Proof. unfold is_live. rewrite fold_left_app. reflexivity. Qed.

Lemma is_live_registered classes evs l :
  is_live classes evs l = true -> In l (registrations evs).
Proof.
  induction evs as [|e evs IH] using rev_ind; [discriminate|].
  rewrite is_live_snoc. unfold registrations in *.
  rewrite flat_map_app, in_app_iff. simpl.
  destruct e; simpl; auto.
  - destruct (Nat.eqb_spec l0 l) as [->|]; auto.
  - destruct (l0 =? l); [discriminate | auto].
Qed.

Lemma in_live_layers classes evs l :
  In l (live_layers classes evs) <-> is_live classes evs l = true.
Proof.
  unfold live_layers. rewrite nodup_In, filter_In.
  split; [tauto|]. intros H. split; [|exact H].
  apply is_live_registered with classes, H.
Qed.

(** *** The invariant *)
Record reg_inv (classes : LayerId -> LayerClass) (evs : list Ev)
    (w : World) : Prop := mk_reg_inv {
  ri_class : forall l, l_class (heap w l) = classes l;
  ri_base : forall l, classes l = COGLXRLayer ->
                      emulatedLayers (heap w l) = None;
  ri_cb : forall l, In l (r_layers (renderer w)) ->
                    onLayerDestroy_cb (heap w l) = CbRenderer;
  ri_nodup : NoDup (r_layers (renderer w));
  ri_live : forall l, In l (r_layers (renderer w))
                      <-> is_live classes evs l = true
}.

Lemma reg_inv_new classes options :
  reg_inv classes [] (XRRenderer.new_XRRenderer classes options).
Proof.
  constructor; simpl; auto; try tauto.
  - constructor.
  - intros l. split; [tauto | discriminate].
Qed.

Lemma reg_inv_step classes evs e w w' :
  reg_inv classes evs w -> step e w = Some w' ->
  reg_inv classes (evs ++ [e]) w'.
Proof.
  intros [Hc Hb Hcb Hn Hl] H.
  pose proof (step_heap_frame _ _ _ H) as Hf.
  assert (Hc' : forall l, l_class (heap w' l) = classes l).
  { intros l. rewrite (hf_class _ _ _ Hf). apply Hc. }
  assert (Hb' : forall l, classes l = COGLXRLayer ->
                          emulatedLayers (heap w' l) = None).
  { intros l Hl'. destruct (hf_emulated _ _ _ Hf l) as [E|E];
      [rewrite Hc; exact Hl' | exact E | rewrite E; auto]. }
  assert (Hquiet : touches_registry e = false ->
                   reg_inv classes (evs ++ [e]) w').
  { intros Ht. rewrite Ht in Hf.
    pose proof (hf_registry _ _ _ Hf eq_refl) as Hr.
    constructor; auto; rewrite Hr; auto.
    - intros l Hi. apply (hf_cb _ _ _ Hf), Hcb, Hi.
    - intros l. rewrite is_live_snoc, Hl.
      destruct e; try discriminate Ht; reflexivity. }
  destruct e; try (apply Hquiet; reflexivity); clear Hquiet;
    simpl in H; injection H as <-.
  - (* registerLayer *)
    destruct (classes l) eqn:Ecl.
    + destruct (registerLayer_base l w) as (e & w' & E & Hr); auto;
        [rewrite Hc; exact Ecl|].
      rewrite E in *. simpl in *.
      constructor; auto; rewrite Hr.
      * intros x Hx. apply in_without_first in Hx; [|exact Hn].
        apply (hf_cb _ _ _ Hf), Hcb, Hx.
      * apply nodup_without_first, Hn.
      * intros x. rewrite is_live_snoc, in_without_first by exact Hn.
        simpl. destruct (Nat.eqb_spec l x) as [->|Hne].
        -- rewrite Ecl. simpl. split; [tauto | discriminate].
        -- rewrite Hl. split; [tauto | intros; split; auto].
    + destruct (registerLayer_quad l w) as (w' & E & Hr & Hcb');
        [rewrite Hc; exact Ecl|].
      rewrite E in *. simpl in *.
      constructor; auto; rewrite Hr.
      * intros x [<-|Hx]; [exact Hcb'|].
        apply in_without_first in Hx; [|exact Hn].
        apply (hf_cb _ _ _ Hf), Hcb, Hx.
      * constructor; [|apply nodup_without_first, Hn].
        rewrite in_without_first by exact Hn. tauto.
      * intros x. rewrite is_live_snoc. simpl.
        rewrite in_without_first by exact Hn.
        destruct (Nat.eqb_spec l x) as [->|Hne].
        -- rewrite Ecl. simpl. tauto.
        -- rewrite Hl. split; [intros [?|?]; tauto | intros; right; auto].
  - (* destroy *)
    pose proof (destroy_registry l w) as Hr.
    assert (Hin : forall x, In x (r_layers (renderer
                       (world_of (XRRenderer.destroy l w))))
                     <-> In x (r_layers (renderer w)) /\ x <> l).
    { intros x. rewrite Hr.
      destruct (onLayerDestroy_cb (heap w l)) eqn:Ecb;
        [|apply in_filter_other].
      split; [|tauto]. intros Hx. split; [exact Hx|]. intros ->.
      apply Hcb in Hx. congruence. }
    constructor; auto.
    + intros x Hx. apply Hin in Hx.
      apply (hf_cb _ _ _ Hf), Hcb, Hx.
    + rewrite Hr. destruct (onLayerDestroy_cb (heap w l));
        [exact Hn | apply NoDup_filter, Hn].
    + intros x. rewrite is_live_snoc, Hin. simpl.
      destruct (Nat.eqb_spec l x) as [->|Hne].
      * split; [tauto | discriminate].
      * rewrite Hl. split; [tauto | intros; split; auto].
Qed.

Lemma run_snoc evs : forall e w w',
  run (evs ++ [e]) w = Some w' ->
  exists w1, run evs w = Some w1 /\ step e w1 = Some w'.
Proof.
  induction evs as [|e0 evs IH]; simpl; intros e w w' H.
  - exists w. split; [reflexivity|].
    destruct (step e w); [exact H | discriminate].
  - destruct (step e0 w); [apply IH, H | discriminate].
Qed.

Lemma reg_inv_run classes options evs : forall w,
  run evs (XRRenderer.new_XRRenderer classes options) = Some w ->
  reg_inv classes evs w.
Proof.
  induction evs as [|e evs IH] using rev_ind; intros w H.
  - simpl in H. injection H as <-. apply reg_inv_new.
  - apply run_snoc in H. destruct H as (w1 & H1 & H2).
    eapply reg_inv_step; [apply IH, H1 | exact H2].
Qed.

(** C6.  After any run of [registerLayer] and [destroy] calls, with session
    starts and losses, frames and any other call in between, the registry
    holds, once each, exactly the layers that were registered and not fully
    destroyed since; its size is their number.  A call [registerLayer(l)]
    registers [l] when it returns, which it does exactly for the classes
    that implement the fallback geometry. *)
Theorem registry_counts_live_registrations classes options evs w :
  run evs (XRRenderer.new_XRRenderer classes options) = Some w ->
  Permutation (r_layers (renderer w)) (live_layers classes evs)
  /\ List.length (r_layers (renderer w))
     = List.length (live_layers classes evs)
  /\ forall l, returned (XRRenderer.registerLayer l w)
               = registrable (classes l).
Proof.
  intros H. apply reg_inv_run in H. destruct H as [Hc Hb _ Hn Hl].
  assert (Hp : Permutation (r_layers (renderer w))
                           (live_layers classes evs)).
  { apply NoDup_Permutation; [exact Hn | apply NoDup_nodup |].
    intros l. rewrite in_live_layers. apply Hl. }
  split; [exact Hp|]. split; [apply Permutation_length, Hp|].
  intros l. destruct (classes l) eqn:E; simpl.
  - destruct (registerLayer_base l w) as (e & w' & E' & _); auto;
      [rewrite Hc; exact E|]. rewrite E'. reflexivity.
  - destruct (registerLayer_quad l w) as (w' & E' & _);
      [rewrite Hc; exact E|]. rewrite E'. reflexivity.
Qed.

(** Two quad layers and one instance of the base class, registered around
    a session that starts and is lost; one of the quads is destroyed. *)
Definition registry_calls : list Ev :=
  [EvRegisterLayer 0; EvRegisterLayer 1; EvRegisterLayer 2;
   EvRequestXR; EvXRCompatible true; EvSettle (XRState.Granted true);
   EvRegisterLayer 0; EvDestroyLayer 1; EvSessionEnd; EvRegisterLayer 0].

Definition registry_classes (l : LayerId) : LayerClass :=
  if l =? 2 then COGLXRLayer else COGLQuadLayer.

Definition registry_world : World :=
  fold_left (fun w e => match step e w with Some w' => w' | None => w end)
    registry_calls
    (XRRenderer.new_XRRenderer registry_classes (fun _ => no_options)).

Lemma registry_counts_live_registrations_witness :
  List.length (r_layers (renderer registry_world)) = 1
  /\ List.length (live_layers registry_classes registry_calls) = 1.
Proof.
  assert (H : run registry_calls
                (XRRenderer.new_XRRenderer registry_classes
                                           (fun _ => no_options))
              = Some registry_world) by (vm_compute; reflexivity).
  pose proof (proj1 (proj2 (registry_counts_live_registrations
                              _ _ _ _ H))) as E.
  split; [|reflexivity]. rewrite E. reflexivity.
Defined.

(** * Further properties of the session state, the layers and the renderer *)

(** ** XRState *)

(** X1.  [clear()] on a state with a session: every layer of the list that
    has a [destroy] method is destroyed, in list order, then the render
    target of the base layer, then the base layer (a projection layer, which
    is also in the list, is thereby destroyed a second time); session,
    reference space, list, base layer, target and binding are null
    afterwards; the current frame, the renderer and the logical layers are
    not touched; and a further [clear()] changes nothing. *)
Theorem clear_tears_down w s :
  session (xr w) = Some s ->
  let w' := XRState.clear w in
  session (xr w') = None /\ space (xr w') = None /\ layers (xr w') = []
  /\ baseLayer (xr w') = None /\ baseLayerTarget (xr w') = None
  /\ glBinding (xr w') = None
  /\ lastXRFrame (xr w') = lastXRFrame (xr w)
  /\ renderer w' = renderer w /\ heap w' = heap w
  /\ (exists calls,
        log w'
        = log w ++ calls
          ++ map HDestroyLayer (filter has_destroy (layers (xr w)))
          ++ match baseLayerTarget (xr w) with
             | Some t => [HDestroyTarget t]
             | None => []
             end
          ++ match baseLayer (xr w) with
             | Some b => if has_destroy b then [HDestroyLayer b] else []
             | None => []
             end
        /\ forall e, In e calls -> exists l, e = HRemoveListener l)
  /\ XRState.clear w' = w'.
Proof.
  intros Hs w'.
  destruct (clear_with_session w s Hs)
    as (H1 & H2 & H3 & H4 & H5 & H6 & H7 & H8 & H9 & _ & _ & Hl).
  repeat (split; [assumption|]). split.
  - exists [HRemoveListener (s, SEnd, onEnd_fn (xr w));
            HRemoveListener (s, SInputSourcesChange, onInputChanged_fn (xr w))].
    split.
    + subst w'. rewrite Hl. unfold destroy_events.
      destruct (baseLayer (xr w)) as [b|]; [|reflexivity].
      simpl. destruct (has_destroy b); reflexivity.
    + intros e [<-|[<-|[]]]; eauto.
  - apply clear_idempotent.
Qed.

Lemma clear_tears_down_witness :
  layers (xr (XRState.clear layers_session_started)) = []
  /\ session (xr (XRState.clear layers_session_started)) = None.
Proof.
  pose proof (clear_tears_down layers_session_started 2 eq_refl) as H.
  cbv zeta in H. destruct H as (H1 & _ & H3 & _). split; assumption.
Defined.

(** X2.  [XRState.onLayerDestroy(layer)] always returns.  On a host without
    native layers, or without a session, it does nothing.  Otherwise the
    native layer is taken out of the list, the other layers keep their
    order, the host is handed the new list, and nothing else changes (the
    base layer field, in particular, still refers to the layer when it was
    the base layer). *)
Theorem xr_onLayerDestroy_drops_layer n w :
  (layersSupport w = false \/ session (xr w) = None ->
   XRState.onLayerDestroy n w = Ok tt w)
  /\ (forall s,
        layersSupport w = true -> session (xr w) = Some s ->
        let rest := filter (fun l => if Native_eq_dec l n then false else true)
                           (layers (xr w)) in
        exists w',
          XRState.onLayerDestroy n w = Ok tt w'
          /\ layers (xr w') = rest
          /\ ~ In n (layers (xr w'))
          /\ (forall m, m <> n -> In m (layers (xr w)) ->
                        In m (layers (xr w')))
          /\ log w' = log w ++ [HUpdateRenderState s (RSLayers rest)]
          /\ baseLayer (xr w') = baseLayer (xr w)
          /\ session (xr w') = Some s
          /\ renderer w' = renderer w /\ heap w' = heap w
          /\ host w' = host w).
Proof.
  destruct w as [ls [ses sp lys bl blt lf gb f1 f2] r hp ho lg]. simpl.
  split.
  - intros [->| ->]; [reflexivity|]. destruct ls; reflexivity.
  - intros s -> ->. eexists. split; [reflexivity|]. simpl.
    repeat split; auto.
    + rewrite filter_In. intros [_ H].
      destruct (Native_eq_dec n n); [discriminate | auto].
    + intros m Hm Hi. apply filter_In. split; [exact Hi|].
      destruct (Native_eq_dec m n); [contradiction | reflexivity].
Qed.

Lemma xr_onLayerDestroy_drops_layer_witness :
  exists w',
    XRState.onLayerDestroy (mkNative 7 KProjectionLayer)
      layers_session_started = Ok tt w'
    /\ layers (xr w') = [].
Proof.
  destruct (proj2 (xr_onLayerDestroy_drops_layer
                     (mkNative 7 KProjectionLayer) layers_session_started)
                  2 eq_refl eq_refl) as (w' & E & Hl & _).
  exists w'. split; [exact E|]. rewrite Hl. vm_compute. reflexivity.
Defined.

(** X3.  On a host with native layers and with a session, [getLayer] for a
    type other than "base" and "quad" throws an error whose message is
    "Unsuppoted yet:" followed by the type; the layer list and the base
    layer are as before and the host is not handed a render state, but the
    binding object has been made by then when there was none, and is
    kept. *)
Theorem getLayer_unsupported_type_throws t o w s :
  layersSupport w = true -> session (xr w) = Some s ->
  t <> TBase -> t <> TQuad ->
  exists w',
    XRState.getLayer t o w
    = Throw (JSError ("Unsuppoted yet:" ++ type_name t)) w'
    /\ layers (xr w') = layers (xr w)
    /\ baseLayer (xr w') = baseLayer (xr w)
    /\ session (xr w') = Some s
    /\ glBinding (xr w')
       = Some (match glBinding (xr w) with
               | Some b => b
               | None => h_fresh (host w)
               end)
    /\ log w' = log w ++ match glBinding (xr w) with
                         | Some _ => []
                         | None => [HNewBinding (h_fresh (host w))]
                         end.
Proof.
  destruct w as [ls [ses sp lys bl blt lf gb f1 f2] r hp ho lg]. simpl.
  intros -> -> Hb Hq.
  destruct t; try contradiction; destruct gb;
    cbv -[app Nat.ltb List.length];
    (eexists; split; [reflexivity|]); cbv -[app]; rewrite ?app_nil_r; auto.
Qed.

Lemma getLayer_unsupported_type_throws_witness :
  exists w',
    XRState.getLayer TCube None layers_session_started
    = Throw (JSError "Unsuppoted yet:cube") w'
    /\ layers (xr w') = layers (xr layers_session_started).
Proof.
  destruct (getLayer_unsupported_type_throws TCube None
              layers_session_started 2 eq_refl eq_refl)
    as (w' & E & Hl & _); [discriminate | discriminate |].
  exists w'. split; assumption.
Defined.

(** ** XRRenderer: one-shot callbacks *)

(** X4.  [requestAnimationFrame(callback)], with the id counter at a value
    it can have (it counts from 0 and stops at 2^53): the call returns the
    value of the counter and stores the callback under it; the counter is
    incremented, unless it has reached 2^53, where [++] leaves a number
    unchanged.  The loop is started lazily: while a cancellation closure is
    stored nothing is asked of the host, and when none is stored exactly
    one frame is requested, from the session when there is one and from the
    display otherwise. *)
Theorem requestAnimationFrame_starts_loop_lazily c w :
  (N.of_nat (_calbackID (renderer w)) <= js_limit)%N ->
  let id := _calbackID (renderer w) in
  exists w',
    XRRenderer.requestAnimationFrame c w = Ok id w'
    /\ _calbackID (renderer w') = (if js_exact id then S id else id)
    /\ _rafCallbacks (renderer w') = map_set id c (_rafCallbacks (renderer w))
    /\ match _clearLoopDel (renderer w) with
       | Some d =>
           _clearLoopDel (renderer w') = Some d
           /\ host w' = host w
           /\ log w' = log w ++ [ARegistered id c]
       | None =>
           _clearLoopDel (renderer w')
           = Some (del_of (clock w) (h_rafid (host w)))
           /\ h_outstanding (host w')
              = h_outstanding (host w) ++ [(clock w, h_rafid (host w))]
           /\ log w'
              = log w ++ [ARegistered id c;
                          HRequestFrame (clock w) (h_rafid (host w))]
       end.
Proof.
  intros _.
  destruct w as [ls [ses sp lys bl blt lf gb f1 f2] [rl cbs cid del] hp
                    [hf hr hl hli ho] lg].
  destruct del as [d|]; [|destruct ses];
    cbv -[app map_set js_succ js_exact];
    (eexists; split; [reflexivity|]);
    cbv -[app map_set js_succ js_exact]; unfold js_succ;
    rewrite <- ?app_assoc; auto.
Qed.

Lemma requestAnimationFrame_starts_loop_lazily_witness :
  exists w',
    XRRenderer.requestAnimationFrame callback_b
      (XRRenderer.new_XRRenderer (fun _ => COGLQuadLayer)
                                 (fun _ => no_options)) = Ok 0 w'
    /\ _calbackID (renderer w') = 1
    /\ h_outstanding (host w') = [(Display, 0)].
Proof.
  destruct (requestAnimationFrame_starts_loop_lazily callback_b
              (XRRenderer.new_XRRenderer (fun _ => COGLQuadLayer)
                                         (fun _ => no_options)))
    as (w' & E & Hc & _ & _ & Ho & _); [vm_compute; discriminate|].
  exists w'. split; [exact E|]. split; [exact Hc | exact Ho].
Defined.

(** *** What leaves the callback map alone

    [cb_frame w0 w]: the callback map and the id counter are in [w] what
    they were in [w0].  Only [requestAnimationFrame],
    [cancelAnimationFrame] and the tick of the loop change them. *)
Record cb_frame (w0 w : World) : Prop := mk_cb_frame {
  cf_callbacks : _rafCallbacks (renderer w) = _rafCallbacks (renderer w0);
  cf_id : _calbackID (renderer w) = _calbackID (renderer w0)
}.

Lemma cf_refl w : cb_frame w w.
Proof. constructor; reflexivity. Qed.

Lemma cf_trans w0 w1 w2 : cb_frame w0 w1 -> cb_frame w1 w2 -> cb_frame w0 w2.
Proof. intros [] []. constructor; congruence. Qed.

Lemma cf_of_layer_frame reg w0 w : layer_frame reg w0 w -> cb_frame w0 w.
Proof. intros []. constructor; auto. Qed.

Lemma cf_quiet w w' :
  _rafCallbacks (renderer w') = _rafCallbacks (renderer w) ->
  _calbackID (renderer w') = _calbackID (renderer w) ->
  cb_frame w w'.
Proof. intros. constructor; auto. Qed.

Lemma cf_preserves_of_frames {A} (m : M A) :
  (forall w, cb_frame w (world_of (m w))) ->
  forall w0, preserves (cb_frame w0) m.
Proof. intros H w0 w Hw. eapply cf_trans; [exact Hw | apply H]. Qed.

Lemma cf_preserves_of_layer_frame {A} reg (m : M A) :
  (forall w0, preserves (layer_frame reg w0) m) ->
  forall w0, preserves (cb_frame w0) m.
Proof.
  intros H. apply cf_preserves_of_frames. intros w.
  eapply cf_of_layer_frame, lf_frames, H.
Qed.

Lemma cf_clearLoop w : cb_frame w (XRRenderer._clearLoop w).
Proof. rewrite clearLoop_spec. apply cf_quiet; reflexivity. Qed.

Lemma cf_clear w : cb_frame w (XRState.clear w).
Proof.
  destruct (session (xr w)) as [s|] eqn:Hs.
  - destruct (clear_with_session w s Hs)
      as (_ & _ & _ & _ & _ & _ & _ & Hr & _).
    apply cf_quiet; rewrite Hr; reflexivity.
  - rewrite clear_without_session; [apply cf_refl | exact Hs].
Qed.

Lemma cf_emit e w : cb_frame w (emit e w).
Proof. apply cf_quiet; reflexivity. Qed.

Lemma cf_attachLoop w0 : preserves (cb_frame w0) XRRenderer._attachLoop.
Proof.
  apply cf_preserves_of_frames. intros w. rewrite attachLoop_spec.
  apply cf_quiet; reflexivity.
Qed.

Lemma cf_getLayer w0 t o : preserves (cb_frame w0) (XRState.getLayer t o).
Proof.
  apply (cf_preserves_of_layer_frame true). intros. apply lf_getLayer.
Qed.

Lemma cf_bindLayer w0 l n : preserves (cb_frame w0) (XRRenderer.bindLayer l n).
Proof.
  apply (cf_preserves_of_layer_frame true). intros. apply lf_bindLayer.
Qed.

Lemma cf_bindNativeLayerTo w0 l :
  preserves (cb_frame w0) (XRRenderer.bindNativeLayerTo l).
Proof.
  apply (cf_preserves_of_layer_frame true). intros.
  apply lf_bindNativeLayerTo.
Qed.

#[global] Hint Resolve cf_refl cf_clearLoop cf_clear cf_emit cf_attachLoop
  cf_getLayer cf_bindLayer cf_bindNativeLayerTo : pres.

Ltac cf_leaf :=
  let w := fresh "w" in
  let H := fresh "H" in
  intros w H; eapply cf_trans; [exact H|];
  first [ solve [auto with pres]
        | apply cf_quiet; simpl; solve [auto] ].

Ltac cf_pres := intros; pres_with cf_leaf.

Lemma cf_onSessionLost w0 : preserves (cb_frame w0) XRRenderer.onSessionLost.
Proof. unfold XRRenderer.onSessionLost. cf_pres. Qed.

Lemma cf_onSessionStart w0 : preserves (cb_frame w0) XRRenderer.onSessionStart.
Proof. unfold XRRenderer.onSessionStart. cf_pres. Qed.

Lemma cf_dispatchEvent e w :
  cb_frame w (XRState.dispatchEvent XRRenderer.onSessionStart
                XRRenderer.onSessionLost e w).
Proof.
  destruct e; simpl; try apply cf_emit;
    (eapply cf_trans; [apply cf_emit|]).
  - apply cf_onSessionStart, cf_refl.
  - apply cf_onSessionLost, cf_refl.
Qed.

Lemma cf_call_fn f w :
  cb_frame w (XRState.call_fn XRRenderer.onSessionStart
                XRRenderer.onSessionLost f w).
Proof.
  unfold XRState.call_fn, XRState.onEnd, XRState.onInputChanged.
  destruct (fn_target f); [|apply cf_emit].
  eapply cf_trans; [apply cf_clear|].
  eapply cf_trans; [apply cf_emit|]. apply cf_dispatchEvent.
Qed.

Lemma cf_fold_call_fn fs : forall w,
  cb_frame w
    (fold_left (fun w f => XRState.call_fn XRRenderer.onSessionStart
                             XRRenderer.onSessionLost f w) fs w).
Proof.
  induction fs as [|f fs IH]; simpl; intros w; [apply cf_refl|].
  eapply cf_trans; [apply cf_call_fn | apply IH].
Qed.

Lemma cf_host_endSession s w : cb_frame w (XRRenderer.host_endSession s w).
Proof.
  unfold XRRenderer.host_endSession, XRState.host_endSession.
  destruct (h_live (host w)) as [s'|]; [|apply cf_refl].
  destruct (s' =? s); [|apply cf_refl].
  eapply cf_trans; [|apply cf_fold_call_fn].
  apply cf_quiet; reflexivity.
Qed.

Lemma cf_end w : cb_frame w (XRRenderer.xr_end w).
Proof.
  unfold XRRenderer.xr_end, XRState.end_, XRState.onInputChanged.
  destruct (session (xr w)) as [s|]; [|apply cf_refl].
  eapply cf_trans; [apply cf_clear|].
  eapply cf_trans; [apply cf_emit|]. apply cf_host_endSession.
Qed.

Lemma cf_negotiate w : cb_frame w (XRRenderer.requestXR_negotiate w).
Proof.
  unfold XRRenderer.requestXR_negotiate, XRState.requestSession_begin.
  eapply cf_trans; [apply cf_clearLoop|].
  destruct (XRState.active _); [apply cf_end | apply cf_refl].
Qed.

Lemma cf_fresh_m w0 : preserves (cb_frame w0) fresh.
Proof.
  intros w H. eapply cf_trans; [exact H|]. apply cf_quiet; reflexivity.
Qed.

Lemma cf_settle o w :
  cb_frame w (world_of (XRRenderer.requestXR_settle o w)).
Proof.
  unfold XRRenderer.requestXR_settle. rewrite try_finally_attach.
  assert (H : cb_frame w
                (world_of (XRState.requestSession_settle
                             XRRenderer.onSessionStart
                             XRRenderer.onSessionLost o w))).
  { pose proof cf_fresh_m.
    assert (Hp : preserves (cb_frame w)
                   (XRState.requestSession_settle XRRenderer.onSessionStart
                      XRRenderer.onSessionLost o)).
    { unfold XRState.requestSession_settle, XRState.host_grantSession,
        XRState.init.
      destruct o; pres_with ltac:(
        let w1 := fresh "w" in
        let H1 := fresh "H" in
        intros w1 H1; eapply cf_trans; [exact H1|];
        first [ solve [auto with pres]
              | apply cf_dispatchEvent
              | destruct (XRState.active w1); solve [auto with pres]
              | apply cf_quiet; simpl; solve [auto] ]). }
    apply Hp, cf_refl. }
  destruct (XRState.requestSession_settle _ _ o w); simpl in *;
    (eapply cf_trans; [exact H|]);
    apply cf_attachLoop, cf_refl.
Qed.

(** *** Callback ids are never reused *)

(** Every id in the callback map was handed out: it is below the counter,
    as long as the counter has not reached 2^53. *)
Definition ids_below (w : World) : Prop :=
  js_exact (_calbackID (renderer w)) = true ->
  forall i c, In (i, c) (_rafCallbacks (renderer w)) ->
              i < _calbackID (renderer w).

Lemma ib_cb_frame w w' : cb_frame w w' -> ids_below w -> ids_below w'.
Proof.
  intros [Hm Hi] H. unfold ids_below. rewrite Hm, Hi. exact H.
Qed.

Lemma apply_acts_ids acts : forall n m,
  (js_exact n = true -> forall i c, In (i, c) m -> i < n) ->
  js_exact (fst (apply_acts n m acts)) = true ->
  forall i c, In (i, c) (snd (apply_acts n m acts)) ->
              i < fst (apply_acts n m acts).
Proof.
  induction acts as [|a acts IH]; intros n m H; simpl; [exact H|].
  destruct a as [name body|id|]; [| |exact H].
  - apply IH. intros He i c Hin.
    destruct (js_exact n) eqn:En.
    + rewrite (js_succ_exact n En).
      apply in_map_set_inv in Hin. destruct Hin as [[= -> _]|Hin]; [lia|].
      pose proof (H eq_refl i c Hin). lia.
    + rewrite (js_succ_stuck n En) in He. congruence.
  - apply IH. intros He i c Hin. apply in_map_delete_inv in Hin.
    exact (H He i c Hin).
Qed.

Lemma ib_ran acts w w' evs : ran acts w w' evs -> ids_below w -> ids_below w'.
Proof.
  intros [_ Hs _ _] H. unfold ids_below.
  assert (H1 : _calbackID (renderer w')
               = fst (apply_acts (_calbackID (renderer w))
                        (_rafCallbacks (renderer w)) acts))
    by (rewrite <- Hs; reflexivity).
  assert (H2 : _rafCallbacks (renderer w')
               = snd (apply_acts (_calbackID (renderer w))
                        (_rafCallbacks (renderer w)) acts))
    by (rewrite <- Hs; reflexivity).
  rewrite H1, H2. apply apply_acts_ids. exact H.
Qed.

Lemma ib_internalLoop time frame w :
  ids_below (world_of (XRRenderer._internalLoop time frame w)).
Proof.
  destruct (internalLoop_spec time frame w)
    as (evs & tail & _ & _ & _ & _ & _ & Hs & _).
  cbv zeta in Hs. unfold ids_below.
  set (w' := world_of (XRRenderer._internalLoop time frame w)) in *.
  assert (H1 : _calbackID (renderer w')
               = fst (apply_acts (_calbackID (renderer w)) []
                        (drain_acts
                           (map_values (_rafCallbacks (renderer w))))))
    by (rewrite <- Hs; reflexivity).
  assert (H2 : _rafCallbacks (renderer w')
               = snd (apply_acts (_calbackID (renderer w)) []
                        (drain_acts
                           (map_values (_rafCallbacks (renderer w))))))
    by (rewrite <- Hs; reflexivity).
  rewrite H1, H2. apply apply_acts_ids. intros _ i c [].
Qed.

Lemma ib_step e w w' : ids_below w -> step e w = Some w' -> ids_below w'.
Proof.
  intros Hw H. destruct e; simpl in H.
  - injection H as <-.
    destruct (requestAnimationFrame_ran c w) as (w1 & evs & E & D & _).
    rewrite E. simpl. eapply ib_ran; eassumption.
  - injection H as <-. intros He i c Hin. simpl in *.
    apply in_map_delete_inv in Hin. exact (Hw He i c Hin).
  - destruct (_ && _); [|discriminate]. injection H as <-.
    unfold XRRenderer.fire. rewrite bind_lift.
    destruct src; [apply ib_internalLoop|].
    unfold XRState.frameCallback. rewrite bind_lift. cbv beta.
    match goal with |- context [XRRenderer._internalLoop ?t ?f] =>
      pose proof (ib_internalLoop t f) as Hi
    end.
    match goal with |- ids_below (world_of (bind _ _ ?w1)) =>
      specialize (Hi w1); unfold bind;
      destruct (XRRenderer._internalLoop time (Some frame) w1); exact Hi
    end.
  - injection H as <-. eapply ib_cb_frame; [|exact Hw].
    apply cf_attachLoop, cf_refl.
  - injection H as <-. exact Hw.
  - destruct ok; injection H as <-; [|exact Hw].
    eapply ib_cb_frame; [apply cf_negotiate | exact Hw].
  - destruct (_ && _); [discriminate|]. injection H as <-.
    eapply ib_cb_frame; [apply cf_settle | exact Hw].
  - destruct (h_live (host w)); [|discriminate]. injection H as <-.
    eapply ib_cb_frame; [apply cf_host_endSession | exact Hw].
  - injection H as <-. eapply ib_cb_frame; [apply cf_end | exact Hw].
  - injection H as <-. eapply ib_cb_frame; [|exact Hw].
    eapply cf_of_layer_frame, (lf_registerLayer w l), lf_refl.
  - injection H as <-. eapply ib_cb_frame; [|exact Hw].
    eapply cf_of_layer_frame, (lf_destroy w l), lf_refl.
  - destruct (composition_layer n); [|discriminate]. injection H as <-.
    eapply ib_cb_frame; [|exact Hw]. apply cf_bindLayer, cf_refl.
  - injection H as <-. eapply ib_cb_frame; [|exact Hw].
    eapply cf_of_layer_frame, (lf_update true w l), lf_refl.
  - injection H as <-. eapply ib_cb_frame; [|exact Hw].
    apply cf_quiet; reflexivity.
  - injection H as <-. eapply ib_cb_frame; [|exact Hw].
    apply cf_quiet; reflexivity.
Qed.

Lemma ib_reachable w : reachable w -> ids_below w.
Proof.
  intros (classes & options & evs & H).
  assert (G : forall evs w0 w, ids_below w0 -> run evs w0 = Some w ->
                               ids_below w).
  { clear. induction evs as [|e evs IH]; simpl; intros w0 w H0 H.
    - injection H as <-. exact H0.
    - destruct (step e w0) as [w1|] eqn:E; [|discriminate].
      eapply IH; [|exact H]. eapply ib_step; eassumption. }
  eapply G; [|exact H]. intros _ i c [].
Qed.

(** X5.  In every world a renderer can be in, while the id counter is
    below 2^53: the id [requestAnimationFrame] returns is not the id of any
    callback waiting in the map, the new callback goes to the end of the
    map (it is called last in the next tick), and [cancelAnimationFrame] of
    the returned id puts the map back to what it was. *)
Theorem requestAnimationFrame_id_is_fresh w c :
  reachable w ->
  js_exact (_calbackID (renderer w)) = true ->
  let id := _calbackID (renderer w) in
  exists w1,
    XRRenderer.requestAnimationFrame c w = Ok id w1
    /\ map_has id (_rafCallbacks (renderer w)) = false
    /\ _rafCallbacks (renderer w1)
       = _rafCallbacks (renderer w) ++ [(id, c)]
    /\ _rafCallbacks (renderer (XRRenderer.cancelAnimationFrame id w1))
       = _rafCallbacks (renderer w).
Proof.
  intros Hr He id. apply ib_reachable in Hr. specialize (Hr He).
  assert (Hfresh : map_has id (_rafCallbacks (renderer w)) = false).
  { apply map_has_false. intros v Hin. pose proof (Hr _ _ Hin). lia. }
  destruct (requestAnimationFrame_ran c w) as (w1 & evs & E & D & _).
  exists w1. split; [exact E|]. split; [exact Hfresh|].
  assert (Hm : _rafCallbacks (renderer w1)
               = _rafCallbacks (renderer w) ++ [(id, c)]).
  { pose proof (rn_state _ _ _ _ D) as Hs. simpl in Hs.
    injection Hs as _ ->. unfold map_set. fold id. rewrite Hfresh.
    destruct c. reflexivity. }
  split; [exact Hm|].
  simpl. rewrite Hm. unfold map_delete. rewrite filter_app. simpl.
  rewrite Nat.eqb_refl. simpl. rewrite app_nil_r.
  apply (map_delete_absent id). exact Hfresh.
Qed.

Definition one_callback_waiting : World :=
  world_of (XRRenderer.requestAnimationFrame callback_a
              (XRRenderer.new_XRRenderer (fun _ => COGLQuadLayer)
                                         (fun _ => no_options))).

Lemma one_callback_waiting_reachable : reachable one_callback_waiting.
Proof.
  exists (fun _ => COGLQuadLayer), (fun _ => no_options),
    [EvRequestAnimationFrame callback_a].
  reflexivity.
Qed.

Lemma requestAnimationFrame_id_is_fresh_witness :
  exists w1,
    XRRenderer.requestAnimationFrame callback_b one_callback_waiting = Ok 1 w1
    /\ _rafCallbacks (renderer (XRRenderer.cancelAnimationFrame 1 w1))
       = [(0, callback_a)].
Proof.
  destruct (requestAnimationFrame_id_is_fresh one_callback_waiting callback_b
              one_callback_waiting_reachable eq_refl)
    as (w1 & E & _ & _ & Hc).
  exists w1. split; [exact E | exact Hc].
Defined.

(** ** The layers at session start and session loss *)

(** [elsewhere l w0 w]: every logical layer but [l] is in [w] what it was
    in [w0].  The methods of a layer touch no other layer. *)
Definition elsewhere (l : LayerId) (w0 w : World) : Prop :=
  forall l', l' <> l -> heap w l' = heap w0 l'.

Lemma ew_refl l w : elsewhere l w w.
Proof. intros l' _. reflexivity. Qed.

Lemma ew_trans l w0 w1 w2 :
  elsewhere l w0 w1 -> elsewhere l w1 w2 -> elsewhere l w0 w2.
Proof. intros H0 H1 l' Hl. rewrite H1, H0; auto. Qed.

Lemma ew_heap l w w' : heap w' = heap w -> elsewhere l w w'.
Proof. intros H l' _. rewrite H. reflexivity. Qed.

Lemma ew_set_layer l f w : elsewhere l w (set_layer l f w).
Proof.
  intros l' Hl. simpl. unfold upd.
  destruct (Nat.eqb_spec l' l); [contradiction | reflexivity].
Qed.

Lemma ew_fold {A} l (f : World -> A -> World) :
  (forall x w, elsewhere l w (f w x)) ->
  forall xs w, elsewhere l w (fold_left f xs w).
Proof.
  intros Hf xs. induction xs as [|x xs IH]; simpl; intros w.
  - apply ew_refl.
  - eapply ew_trans; [apply Hf | apply IH].
Qed.

Lemma ew_destroyNative l w : elsewhere l w (OGLXRLayer.destroyNative l w).
Proof.
  unfold OGLXRLayer.destroyNative. cbv zeta.
  eapply ew_trans; [|apply ew_set_layer].
  eapply ew_trans; [|apply ew_set_layer].
  destruct (nativeLayer (heap w l)); [apply ew_heap | apply ew_refl];
    reflexivity.
Qed.

Lemma ew_destroyFallback l w : elsewhere l w (OGLXRLayer.destroyFallback l w).
Proof.
  unfold OGLXRLayer.destroyFallback, OGLXRLayer._removeFallbackLayers.
  destruct (emulatedLayers (heap w l)); [|apply ew_refl]. cbv zeta.
  eapply ew_trans; [|apply ew_set_layer].
  apply ew_fold. intros. apply ew_set_layer.
Qed.

Lemma ew_addChild l m w : elsewhere l w (OGLXRLayer.addChild l m w).
Proof. apply ew_set_layer. Qed.

#[global] Hint Resolve ew_refl ew_set_layer ew_destroyNative
  ew_destroyFallback ew_addChild : pres.

Ltac ew_leaf :=
  let w := fresh "w" in
  let H := fresh "H" in
  intros w H; eapply ew_trans; [exact H|];
  first [ solve [auto with pres]
        | solve [apply ew_fold; intros; auto with pres]
        | apply ew_heap; reflexivity ].

Ltac ew_pres := intros; pres_with ew_leaf.

Section Elsewhere.
Variable l : LayerId.
Variable w0 : World.
Local Abbreviation P := (elsewhere l w0).

Lemma ew_fresh : preserves P fresh.
Proof. intros w H. eapply ew_trans; [exact H|]. apply ew_heap. reflexivity. Qed.
Hint Resolve ew_fresh : pres.

Lemma ew_updateNative : preserves P (OGLXRLayer._updateNative l).
Proof.
  unfold OGLXRLayer._updateNative, OGLXRLayer.super_updateNative,
    OGLXRLayer.push_transform.
  ew_pres.
Qed.

Lemma ew_createFallback : preserves P (OGLXRLayer.createFallback l).
Proof.
  unfold OGLXRLayer.createFallback, OGLXRLayer._createFallbackLayers,
    OGLXRLayer.new_QuadPrimitive.
  ew_pres.
Qed.

Lemma ew_xr_onLayerDestroy n : preserves P (XRState.onLayerDestroy n).
Proof.
  unfold XRState.onLayerDestroy, XRState.updateRenderState,
    XRState.need_session.
  pres_with ltac:(
    let w := fresh "w" in
    let H := fresh "H" in
    intros w H; eapply ew_trans; [exact H|];
    first [ destruct (layersSupport w); apply ew_heap; reflexivity
          | apply ew_heap; reflexivity ]).
Qed.
Hint Resolve ew_updateNative ew_createFallback ew_xr_onLayerDestroy : pres.

Lemma ew_bindLayer n : preserves P (XRRenderer.bindLayer l n).
Proof.
  unfold XRRenderer.bindLayer, OGLXRLayer.bindLayer,
    OGLXRLayer.call_onLayerDestroy, XRRenderer._onLayerDestroy.
  simpl negb. cbv iota. ew_pres.
Qed.
Hint Resolve ew_bindLayer : pres.

Lemma ew_getLayer t o : preserves P (XRState.getLayer t o).
Proof.
  unfold XRState.getLayer, XRState.new_XRWebGLLayer,
    XRState.binding_or_new, XRState.new_XRWebGLBinding,
    XRState.createLayer, XRState.new_XRRenderTarget,
    XRState.updateRenderState, XRState.need_session.
  pres_with ltac:(
    let w := fresh "w" in
    let H := fresh "H" in
    intros w H; eapply ew_trans; [exact H|];
    first [ destruct (layersSupport w); apply ew_heap; reflexivity
          | apply ew_heap; reflexivity ]).
Qed.
Hint Resolve ew_getLayer : pres.

Lemma ew_bindNativeLayerTo : preserves P (XRRenderer.bindNativeLayerTo l).
Proof. unfold XRRenderer.bindNativeLayerTo. ew_pres. Qed.
End Elsewhere.

(** A layer in fallback state: no native handle, fallback geometry held. *)
Definition in_fallback (w : World) (l : LayerId) : Prop :=
  nativeLayer (heap w l) = None
  /\ is_some (emulatedLayers (heap w l)) = true.

Lemma createFallback_ok_some l w w' :
  OGLXRLayer.createFallback l w = Ok tt w' ->
  is_some (emulatedLayers (heap w' l)) = true.
Proof.
  unfold OGLXRLayer.createFallback. rewrite bind_gets.
  destruct (is_some (emulatedLayers (heap w l))) eqn:Ee.
  - intros [= <-]. exact Ee.
  - unfold bind at 1.
    destruct (OGLXRLayer._createFallbackLayers l w) as [ms w1|e w1];
      [|discriminate].
    unfold bind, lift. intros [= <-].
    pose proof (repr_fold_addChild l ms
                  (set_layer l (with_emulatedLayers (Some ms)) w1)) as Hr.
    apply (f_equal snd) in Hr. unfold repr, snd in Hr. rewrite Hr.
    simpl. rewrite upd_same. reflexivity.
Qed.

Lemma createFallback_quad_some l w :
  l_class (heap w l) = COGLQuadLayer ->
  exists w',
    OGLXRLayer.createFallback l w = Ok tt w'
    /\ is_some (emulatedLayers (heap w' l)) = true.
Proof.
  intros Hc. destruct (createFallback_quad_returns l w Hc) as (w' & E).
  exists w'. split; [exact E|]. eapply createFallback_ok_some, E.
Qed.

Lemma bindLayer_null_quad l w :
  l_class (heap w l) = COGLQuadLayer ->
  exists w',
    XRRenderer.bindLayer l None w = Ok tt w'
    /\ in_fallback w' l
    /\ layer_frame true w w'
    /\ elsewhere l w w'.
Proof.
  intros Hc.
  pose proof (bindLayer_repr l None w) as Hn. cbv zeta in Hn.
  pose proof (lf_bindLayer w true l None w (lf_refl _ _)) as Hf.
  pose proof (ew_bindLayer l w None w (ew_refl _ _)) as He.
  unfold XRRenderer.bindLayer, OGLXRLayer.bindLayer in *.
  destruct (bindLayer_first l None w (OGLXRLayer.createFallback l))
    as (w1 & E & Hc1 & _).
  cbv beta iota zeta in *. rewrite E in *.
  destruct (createFallback_quad_some l w1) as (w' & E' & Hs);
    [congruence|].
  rewrite E' in *. simpl in *. exists w'.
  split; [reflexivity|]. split; [split; assumption|]. split; assumption.
Qed.

Lemma for_each_bindLayer_null ls : forall w,
  (forall l, In l ls -> l_class (heap w l) = COGLQuadLayer) ->
  exists w',
    for_each (fun l => XRRenderer.bindLayer l None) ls w = Ok tt w'
    /\ (forall l, In l ls -> in_fallback w' l)
    /\ layer_frame true w w'
    /\ (forall l, ~ In l ls -> heap w' l = heap w l).
Proof.
  induction ls as [|a ls IH]; intros w Hq; simpl.
  - exists w. split; [reflexivity|]. split; [intros l []|].
    split; [apply lf_refl | reflexivity].
  - assert (Ha : l_class (heap w a) = COGLQuadLayer)
      by (apply Hq; left; reflexivity).
    destruct (bindLayer_null_quad a w Ha) as (w1 & E1 & Hfb & Hf1 & He1).
    assert (Hq1 : forall l, In l ls -> l_class (heap w1 l) = COGLQuadLayer).
    { intros l Hl. rewrite (lf_class _ _ _ Hf1). apply Hq. right. exact Hl. }
    destruct (IH w1 Hq1) as (w' & E' & Hall & Hf' & Hrest).
    unfold bind. rewrite E1. exists w'. split; [exact E'|].
    split; [|split; [eapply lf_trans; eassumption|]].
    + intros l [<-|Hl]; [|apply Hall, Hl].
      destruct (in_dec Nat.eq_dec a ls) as [Hi|Hi]; [apply Hall, Hi|].
      unfold in_fallback. rewrite (Hrest a Hi). exact Hfb.
    + intros l Hl. rewrite Hrest by tauto. apply He1.
      intros ->. apply Hl. auto.
Qed.

Lemma is_live_registrable classes evs l :
  is_live classes evs l = true -> registrable (classes l) = true.
Proof.
  induction evs as [|e evs IH] using rev_ind; [discriminate|].
  rewrite is_live_snoc. destruct e; simpl; auto.
  - destruct (l0 =? l); auto.
  - destruct (l0 =? l); [discriminate | auto].
Qed.

(** In every world a renderer can be in, the registry holds instances of
    [OGLQuadLayer], each once. *)
Lemma reachable_registry_quads w :
  reachable w ->
  NoDup (r_layers (renderer w))
  /\ forall l, In l (r_layers (renderer w)) ->
               l_class (heap w l) = COGLQuadLayer.
Proof.
  intros (classes & options & evs & H). apply reg_inv_run in H.
  destruct H as [Hc _ _ Hn Hl]. split; [exact Hn|].
  intros l Hin. apply Hl, is_live_registrable in Hin. rewrite Hc.
  destruct (classes l); [discriminate | reflexivity].
Qed.

Lemma frame_pending_emit e w : frame_pending w -> frame_pending (emit e w).
Proof. intros (id & H). exists id. exact H. Qed.

(** X6.  [onSessionLost()], in every world a renderer can be in: it
    returns; every registered layer is then in fallback state (no native
    handle, fallback geometry held, [isNative] false); the registry is the
    same and the layers that are not registered are untouched; and the loop
    is attached again. *)
Theorem onSessionLost_puts_layers_in_fallback w :
  reachable w ->
  exists w',
    XRRenderer.onSessionLost w = Ok tt w'
    /\ r_layers (renderer w') = r_layers (renderer w)
    /\ (forall l, In l (r_layers (renderer w)) ->
                  nativeLayer (heap w' l) = None
                  /\ emulatedLayers (heap w' l) <> None
                  /\ OGLXRLayer.isNative (heap w' l) = false)
    /\ (forall l, ~ In l (r_layers (renderer w)) -> heap w' l = heap w l)
    /\ frame_pending w'.
Proof.
  intros Hr. apply reachable_registry_quads in Hr. destruct Hr as [_ Hq].
  unfold XRRenderer.onSessionLost. rewrite bind_lift. cbv beta.
  rewrite bind_gets. cbv beta.
  assert (H1 : heap (XRRenderer._clearLoop w) = heap w
               /\ r_layers (renderer (XRRenderer._clearLoop w))
                  = r_layers (renderer w))
    by (rewrite clearLoop_spec; split; reflexivity).
  destruct H1 as [Hh Hl]. rewrite Hl.
  destruct (for_each_bindLayer_null (r_layers (renderer w))
              (XRRenderer._clearLoop w))
    as (w2 & E2 & Hall & Hf & Hrest).
  { intros l Hin. rewrite Hh. apply Hq, Hin. }
  unfold bind. rewrite E2, attachLoop_returns. unfold lift.
  eexists. split; [reflexivity|].
  assert (Ha : heap (attach_world w2) = heap w2
               /\ r_layers (renderer (attach_world w2))
                  = r_layers (renderer w2)).
  { unfold attach_world. rewrite attachLoop_spec. split; reflexivity. }
  destruct Ha as [Hah Hal]. simpl.
  split; [rewrite Hal, (lf_registry _ _ _ Hf eq_refl); exact Hl|].
  split; [|split].
  - intros l Hin. rewrite Hah. destruct (Hall l Hin) as [Hn He].
    split; [exact Hn|]. unfold OGLXRLayer.isNative. rewrite Hn.
    split; [|reflexivity].
    destruct (emulatedLayers (heap w2 l)); [discriminate | discriminate He].
  - intros l Hin. rewrite Hah, Hrest, Hh; auto.
  - apply frame_pending_emit, attach_world_pending.
Qed.

(** A session on a host with native layers, with one quad layer
    registered. *)
Definition quad_registered_in_session : World :=
  world_of (XRRenderer.registerLayer 0 layers_session_started).

Lemma quad_registered_in_session_reachable :
  reachable quad_registered_in_session.
Proof.
  exists (fun _ => COGLQuadLayer), (fun _ => no_options),
    [EvRequestXR; EvXRCompatible true; EvSettle (XRState.Granted true);
     EvRegisterLayer 0].
  vm_compute. reflexivity.
Qed.

Lemma onSessionLost_puts_layers_in_fallback_witness :
  exists w',
    XRRenderer.onSessionLost quad_registered_in_session = Ok tt w'
    /\ nativeLayer (heap w' 0) = None.
Proof.
  destruct (onSessionLost_puts_layers_in_fallback quad_registered_in_session
              quad_registered_in_session_reachable)
    as (w' & E & _ & Hall & _).
  exists w'. split; [exact E|]. apply Hall. vm_compute. auto.
Defined.

(** On a host with native layers and with a session, [getLayer] makes the
    layer it is asked for: a projection layer for "base", a quad layer for
    "quad". *)
Lemma getLayer_makes_layer t o w s :
  layersSupport w = true -> session (xr w) = Some s ->
  t = TBase \/ t = TQuad ->
  exists n w',
    XRState.getLayer t o w = Ok (Some n) w'
    /\ n_kind n = match t with TBase => KProjectionLayer | _ => KQuadLayer end
    /\ layers (xr w') = n :: layers (xr w)
    /\ baseLayer (xr w')
       = match t with TBase => Some n | _ => baseLayer (xr w) end
    /\ session (xr w') = Some s
    /\ layersSupport w' = true
    /\ heap w' = heap w
    /\ renderer w' = renderer w.
Proof.
  destruct w as [ls [ses sp lys bl blt lf gb f1 f2] r hp ho lg]. simpl.
  intros -> -> [-> | ->]; destruct gb;
    cbv -[app Nat.ltb List.length];
    (eexists; eexists; split; [reflexivity|]); cbv -[app]; auto 10.
Qed.

Lemma xr_fold_set_layer {A} (g : A -> LayerId * (OGLXRLayer -> OGLXRLayer))
    xs : forall w,
  xr (fold_left (fun w x => set_layer (fst (g x)) (snd (g x)) w) xs w) = xr w.
Proof.
  induction xs as [|x xs IH]; simpl; intros w; [reflexivity|].
  rewrite IH. reflexivity.
Qed.

Lemma xr_destroyFallback l w : xr (OGLXRLayer.destroyFallback l w) = xr w.
Proof.
  unfold OGLXRLayer.destroyFallback, OGLXRLayer._removeFallbackLayers,
    OGLXRLayer.removeChild.
  destruct (emulatedLayers (heap w l)) as [ms|]; [|reflexivity].
  cbv zeta. simpl.
  apply (xr_fold_set_layer
           (fun m => (l, fun L => with_children
                                    (OGLXRLayer.remove_first m (l_children L))
                                    L))).
Qed.

Lemma xr_updateNative l x0 :
  preserves (fun w => xr w = x0) (OGLXRLayer._updateNative l).
Proof.
  assert (Hfr : preserves (fun w => xr w = x0) fresh)
    by (intros w H; exact H).
  unfold OGLXRLayer._updateNative, OGLXRLayer.super_updateNative,
    OGLXRLayer.push_transform.
  pres_with ltac:(intros w H; exact H).
Qed.

(** Binding a native layer to a quad layer that holds none. *)
Lemma bindLayer_fresh_native l n w :
  l_class (heap w l) = COGLQuadLayer ->
  nativeLayer (heap w l) = None ->
  exists w',
    XRRenderer.bindLayer l (Some n) w = Ok tt w'
    /\ repr w' l = (Some n, None)
    /\ xr w' = xr w
    /\ elsewhere l w w'
    /\ layer_frame true w w'.
Proof.
  intros Hc Hn.
  destruct (bindLayer_quad_returns l (Some n) w Hc) as (w' & E).
  pose proof (bindLayer_repr l (Some n) w) as Hr.
  pose proof (lf_bindLayer w true l (Some n) w (lf_refl _ _)) as Hf.
  pose proof (ew_bindLayer l w (Some n) w (ew_refl _ _)) as He.
  cbv zeta in Hr. rewrite E in Hr, Hf, He. simpl in Hr, Hf, He.
  exists w'. split; [exact E|]. split; [exact Hr|].
  split; [|split; assumption].
  unfold XRRenderer.bindLayer, OGLXRLayer.bindLayer in E.
  rewrite bind_gets, Hn in E. unfold bind at 1 in E. unfold ret at 1 in E.
  rewrite !bind_lift in E.
  match type of E with
  | OGLXRLayer._updateNative l ?w1 = _ =>
      pose proof (xr_updateNative l (xr w1) w1 eq_refl) as Hx;
      rewrite E in Hx; simpl in Hx; rewrite Hx
  end.
  simpl. apply xr_destroyFallback.
Qed.

(** [bindNativeLayerTo] on a host with native layers, with a session, for
    a quad layer that holds no native layer: a quad layer is made, put at
    the front of the list of [XRState] and bound. *)
Lemma bindNativeLayerTo_native l w s :
  layersSupport w = true -> session (xr w) = Some s ->
  l_class (heap w l) = COGLQuadLayer ->
  nativeLayer (heap w l) = None ->
  exists n w',
    XRRenderer.bindNativeLayerTo l w = Ok true w'
    /\ n_kind n = KQuadLayer
    /\ repr w' l = (Some n, None)
    /\ layers (xr w') = n :: layers (xr w)
    /\ baseLayer (xr w') = baseLayer (xr w)
    /\ elsewhere l w w'
    /\ layer_frame true w w'.
Proof.
  intros Hs Hx Hc Hn.
  set (f := fun w => set_layer l (fun L =>
         with_options (XRRenderer.with_o_space (space (xr w)) (l_options L)) L) w).
  assert (Hfl : heap (f w) l
                = with_options (XRRenderer.with_o_space (space (xr w))
                                  (l_options (heap w l))) (heap w l)).
  { simpl. apply upd_same. }
  assert (Ht : l_type (heap (f w) l) = TQuad).
  { unfold l_type. rewrite Hfl. simpl. rewrite Hc. reflexivity. }
  destruct (getLayer_makes_layer (l_type (heap (f w) l))
              (Some (l_options (heap (f w) l))) (f w) s)
    as (n & w2 & E & Hk & Hl & Hb & Hx2 & Hs2 & Hh2 & _);
    [exact Hs | exact Hx | right; exact Ht |].
  rewrite Ht in Hk, Hb.
  destruct (bindLayer_fresh_native l n w2) as (w3 & E3 & Hr & Hx3 & He & _).
  { rewrite Hh2, Hfl. simpl. exact Hc. }
  { rewrite Hh2, Hfl. simpl. exact Hn. }
  assert (Eall : XRRenderer.bindNativeLayerTo l w = Ok true w3).
  { unfold XRRenderer.bindNativeLayerTo. rewrite bind_gets, Hs.
    unfold bind at 1. unfold bind at 1. unfold lift at 1. fold (f w).
    unfold bind at 1. unfold gets at 1. unfold try_catch.
    rewrite E. unfold bind. rewrite E3. reflexivity. }
  pose proof (lf_bindNativeLayerTo w true l w (lf_refl _ _)) as Hlf.
  rewrite Eall in Hlf. simpl in Hlf.
  exists n, w3. split; [exact Eall|].
  split; [exact Hk|]. split; [exact Hr|].
  split; [rewrite Hx3, Hl; reflexivity|].
  split; [rewrite Hx3, Hb; reflexivity|].
  split; [|exact Hlf].
  intros l' Hl'. rewrite (He l' Hl'), Hh2. simpl. unfold upd.
  destruct (Nat.eqb_spec l' l); [contradiction | reflexivity].
Qed.

Lemma for_each_bindNative ls : forall w s,
  layersSupport w = true -> session (xr w) = Some s -> NoDup ls ->
  (forall l, In l ls -> l_class (heap w l) = COGLQuadLayer
                        /\ nativeLayer (heap w l) = None) ->
  exists natives w',
    for_each (fun l => XRRenderer.bindNativeLayerTo l ;;; ret tt) ls w
    = Ok tt w'
    /\ map (repr w') ls = map (fun n => (Some n, None)) natives
    /\ Forall (fun n => n_kind n = KQuadLayer) natives
    /\ layers (xr w') = rev natives ++ layers (xr w)
    /\ baseLayer (xr w') = baseLayer (xr w)
    /\ layer_frame true w w'
    /\ (forall l, ~ In l ls -> heap w' l = heap w l).
Proof.
  induction ls as [|a ls IH]; intros w s Hs Hx Hnd Hq.
  - exists [], w. split; [reflexivity|]. split; [reflexivity|].
    split; [constructor|]. split; [reflexivity|]. split; [reflexivity|].
    split; [apply lf_refl | reflexivity].
  - inversion Hnd as [|? ? Ha Hnd']; subst.
    destruct (Hq a (or_introl eq_refl)) as [Hca Hna].
    destruct (bindNativeLayerTo_native a w s Hs Hx Hca Hna)
      as (n & w1 & E1 & Hk & Hr & Hl & Hb & He & Hf).
    assert (Hq1 : forall l, In l ls ->
                    l_class (heap w1 l) = COGLQuadLayer
                    /\ nativeLayer (heap w1 l) = None).
    { intros l Hl1. rewrite (He l); [apply Hq; right; exact Hl1|].
      intros ->. contradiction. }
    assert (Hs1 : layersSupport w1 = true)
      by (rewrite (lf_support _ _ _ Hf); exact Hs).
    assert (Hx1 : session (xr w1) = Some s)
      by (rewrite (lf_session _ _ _ Hf); exact Hx).
    destruct (IH w1 s Hs1 Hx1 Hnd' Hq1)
      as (ns & w' & E' & Hm & Hks & Hl' & Hb' & Hf' & Hrest).
    exists (n :: ns), w'. simpl. unfold bind at 1. unfold bind at 1.
    rewrite E1. unfold ret at 1. split; [exact E'|].
    split; [|split; [|split; [|split; [|split]]]].
    + f_equal; [|exact Hm]. unfold repr in *. rewrite (Hrest a Ha).
      exact Hr.
    + constructor; assumption.
    + rewrite Hl', Hl, <- app_assoc. reflexivity.
    + congruence.
    + eapply lf_trans; eassumption.
    + intros l Hl1. rewrite Hrest by tauto. apply He.
      intros ->. apply Hl1. left. reflexivity.
Qed.

Lemma frame_pending_same w w' :
  session (xr w') = session (xr w) ->
  _clearLoopDel (renderer w') = _clearLoopDel (renderer w) ->
  h_outstanding (host w') = h_outstanding (host w) ->
  frame_pending w -> frame_pending w'.
Proof.
  intros Hs Hd Ho (id & H1 & H2). exists id. unfold clock in *.
  rewrite Hs, Hd, Ho. auto.
Qed.

(** X7.  [onSessionStart()] on a host with native layers, with the new
    session in place, the registry duplicate-free and holding quad layers
    without a native layer (as at the first session start, and after a
    session loss): it returns; the loop is attached; a projection layer has
    been made the base layer; every registered layer has been bound to a
    native quad layer of its own and has given up its fallback geometry;
    and the list of [XRState] holds, front to back, these quad layers in the
    reverse of the registry order, then the base layer, then what it held
    before. *)
Theorem onSessionStart_binds_registered_layers w s :
  layersSupport w = true -> session (xr w) = Some s ->
  NoDup (r_layers (renderer w)) ->
  (forall l, In l (r_layers (renderer w)) ->
             l_class (heap w l) = COGLQuadLayer
             /\ nativeLayer (heap w l) = None) ->
  exists base natives w',
    XRRenderer.onSessionStart w = Ok tt w'
    /\ n_kind base = KProjectionLayer
    /\ baseLayer (xr w') = Some base
    /\ layers (xr w') = rev natives ++ base :: layers (xr w)
    /\ map (fun l => nativeLayer (heap w' l)) (r_layers (renderer w))
       = map Some natives
    /\ Forall (fun n => n_kind n = KQuadLayer) natives
    /\ (forall l, In l (r_layers (renderer w)) ->
                  OGLXRLayer.isNative (heap w' l) = true)
    /\ r_layers (renderer w') = r_layers (renderer w)
    /\ frame_pending w'.
Proof.
  intros Hs Hx Hnd Hq.
  unfold XRRenderer.onSessionStart.
  unfold bind at 1. rewrite attachLoop_returns.
  assert (Ha : heap (attach_world w) = heap w
               /\ xr (attach_world w) = xr w
               /\ layersSupport (attach_world w) = layersSupport w
               /\ r_layers (renderer (attach_world w))
                  = r_layers (renderer w)).
  { unfold attach_world. rewrite attachLoop_spec. repeat split. }
  destruct Ha as (Hah & Hax & Has & Har).
  assert (Hs1 : layersSupport (attach_world w) = true) by congruence.
  assert (Hx1 : session (xr (attach_world w)) = Some s)
    by (rewrite Hax; exact Hx).
  destruct (getLayer_makes_layer TBase None (attach_world w) s Hs1 Hx1
              (or_introl eq_refl))
    as (base & w2 & E2 & Hk & Hl2 & Hb2 & Hx2 & Hs2 & Hh2 & Hr2).
  unfold bind at 1. rewrite E2. rewrite bind_gets, Hr2, Har.
  assert (Hq2 : forall l, In l (r_layers (renderer w)) ->
                  l_class (heap w2 l) = COGLQuadLayer
                  /\ nativeLayer (heap w2 l) = None).
  { intros l Hin. rewrite Hh2, Hah. apply Hq, Hin. }
  destruct (for_each_bindNative (r_layers (renderer w)) w2 s Hs2 Hx2 Hnd Hq2)
    as (ns & w' & E' & Hm & Hks & Hl' & Hb' & Hf' & _).
  exists base, ns, w'. split; [exact E'|]. split; [exact Hk|].
  split; [congruence|].
  split; [rewrite Hl', Hl2, Hax; reflexivity|].
  assert (Hreprs : forall l, In l (r_layers (renderer w)) ->
            exists n, repr w' l = (Some n, None) /\ In n ns).
  { intros l Hin. apply (in_map (repr w')) in Hin. rewrite Hm in Hin.
    apply in_map_iff in Hin. destruct Hin as (n & En & Hn). eauto. }
  split; [|split; [exact Hks|split; [|split]]].
  - apply (f_equal (map fst)) in Hm. rewrite !map_map in Hm. exact Hm.
  - intros l Hin. destruct (Hreprs l Hin) as (n & En & _).
    unfold repr in En. injection En as En1 En2.
    unfold OGLXRLayer.isNative. rewrite En1, En2. reflexivity.
  - rewrite (lf_registry _ _ _ Hf' eq_refl), Hr2. exact Har.
  - apply (frame_pending_same (attach_world w));
      [| | |apply attach_world_pending].
    + rewrite (lf_session _ _ _ Hf'), Hx2, Hax. symmetry. exact Hx.
    + rewrite (lf_del _ _ _ Hf'), Hr2. reflexivity.
    + rewrite (lf_outstanding _ _ _ Hf').
      pose proof (lf_getLayer true (attach_world w) TBase None
                    (attach_world w) (lf_refl _ _)) as Hg.
      rewrite E2 in Hg. apply (lf_outstanding _ _ _ Hg).
Qed.

(** Two quad layers registered before any session, and a session on a host
    with native layers just put in place by [init]. *)
Definition two_quads_session_in_place : World :=
  set_xr (with_session (Some 5))
    (set_layersSupport true
       (world_of (XRRenderer.registerLayer 1
          (world_of (XRRenderer.registerLayer 0
             (XRRenderer.new_XRRenderer (fun _ => COGLQuadLayer)
                                        (fun _ => no_options))))))).

Lemma onSessionStart_binds_registered_layers_witness :
  exists w',
    XRRenderer.onSessionStart two_quads_session_in_place = Ok tt w'
    /\ OGLXRLayer.isNative (heap w' 0) = true
    /\ OGLXRLayer.isNative (heap w' 1) = true.
Proof.
  assert (Hnd : NoDup (r_layers (renderer two_quads_session_in_place))).
  { vm_compute. repeat constructor; simpl; intuition discriminate. }
  assert (Hq : forall l,
             In l (r_layers (renderer two_quads_session_in_place)) ->
             l_class (heap two_quads_session_in_place l) = COGLQuadLayer
             /\ nativeLayer (heap two_quads_session_in_place l) = None).
  { intros l Hl. vm_compute in Hl.
    destruct Hl as [<-|[<-|[]]]; split; reflexivity. }
  destruct (onSessionStart_binds_registered_layers
              two_quads_session_in_place 5 eq_refl eq_refl Hnd Hq)
    as (base & ns & w' & E & _ & _ & _ & _ & _ & Hall & _).
  exists w'. split; [exact E|].
  split; apply Hall; vm_compute; auto.
Defined.

(** *** A host without native layers *)

Lemma xr_fold {A} (f : World -> A -> World) :
  (forall x w, xr (f w x) = xr w) ->
  forall xs w, xr (fold_left f xs w) = xr w.
Proof.
  intros Hf xs. induction xs as [|x xs IH]; simpl; intros w; [reflexivity|].
  rewrite IH. apply Hf.
Qed.

Lemma xr_createFallback l x0 :
  preserves (fun w => xr w = x0) (OGLXRLayer.createFallback l).
Proof.
  assert (Hfr : preserves (fun w => xr w = x0) fresh)
    by (intros w H; exact H).
  unfold OGLXRLayer.createFallback, OGLXRLayer._createFallbackLayers,
    OGLXRLayer.new_QuadPrimitive.
  pres_with ltac:(intros w H;
    first [ exact H
          | rewrite xr_fold; [exact H | intros; reflexivity] ]).
Qed.

Lemma xr_destroyNative l w : xr (OGLXRLayer.destroyNative l w) = xr w.
Proof.
  unfold OGLXRLayer.destroyNative. simpl.
  destruct (nativeLayer (heap w l)); reflexivity.
Qed.

(** Without native layers the renderer's notification does nothing when
    only the native layer goes. *)
Lemma call_onLayerDestroy_legacy l w :
  layersSupport w = false ->
  OGLXRLayer.call_onLayerDestroy XRRenderer._onLayerDestroy l true w
  = Ok tt w.
Proof.
  intros Hs. unfold OGLXRLayer.call_onLayerDestroy,
    XRRenderer._onLayerDestroy.
  rewrite bind_gets. destruct (onLayerDestroy_cb (heap w l)); [reflexivity|].
  simpl. unfold bind at 1. unfold ret at 1. rewrite bind_gets.
  destruct (nativeLayer (heap w l)); [|reflexivity].
  unfold XRState.onLayerDestroy. rewrite bind_gets, Hs. reflexivity.
Qed.

(** Without native layers [bindLayer(null)] leaves [XRState] alone. *)
Lemma bindLayer_null_legacy_xr l w :
  layersSupport w = false ->
  xr (world_of (XRRenderer.bindLayer l None w)) = xr w.
Proof.
  intros Hs. unfold XRRenderer.bindLayer, OGLXRLayer.bindLayer.
  rewrite bind_gets. unfold bind at 1.
  destruct (nativeLayer (heap w l)) as [n|] eqn:En.
  - simpl. unfold bind at 1. rewrite (call_onLayerDestroy_legacy l w Hs).
    unfold lift. rewrite <- (xr_destroyNative l w).
    apply (xr_createFallback l _ _ eq_refl).
  - unfold ret. apply (xr_createFallback l _ _ eq_refl).
Qed.

Lemma getLayer_legacy_base o w s :
  layersSupport w = false -> session (xr w) = Some s ->
  List.length (layers (xr w)) <= 1 ->
  exists base w',
    XRState.getLayer TBase o w = Ok (Some base) w'
    /\ n_kind base = KWebGLLayer
    /\ layers (xr w') = base :: layers (xr w)
    /\ baseLayer (xr w') = Some base
    /\ session (xr w') = Some s
    /\ layersSupport w' = false
    /\ heap w' = heap w
    /\ renderer w' = renderer w.
Proof.
  destruct w as [ls [ses sp lys bl blt lf gb f1 f2] r hp ho lg]. simpl.
  intros -> -> Hlen. apply Nat.ltb_ge in Hlen.
  cbv -[app Nat.ltb List.length]. rewrite Hlen.
  cbv -[app Nat.ltb List.length].
  eexists. eexists. split; [reflexivity|]. cbv -[app]. auto 10.
Qed.

Lemma bindNativeLayerTo_legacy l w :
  layersSupport w = false ->
  XRRenderer.bindNativeLayerTo l w
  = (XRRenderer.bindLayer l None ;;; ret false) w.
Proof.
  intros Hs. unfold XRRenderer.bindNativeLayerTo. rewrite bind_gets, Hs.
  reflexivity.
Qed.

Lemma for_each_bindNative_legacy ls : forall w,
  layersSupport w = false ->
  (forall l, In l ls -> l_class (heap w l) = COGLQuadLayer) ->
  exists w',
    for_each (fun l => XRRenderer.bindNativeLayerTo l ;;; ret tt) ls w
    = Ok tt w'
    /\ (forall l, In l ls -> in_fallback w' l)
    /\ xr w' = xr w
    /\ layer_frame true w w'
    /\ (forall l, ~ In l ls -> heap w' l = heap w l).
Proof.
  induction ls as [|a ls IH]; intros w Hs Hq.
  - exists w. split; [reflexivity|]. split; [intros l []|].
    split; [reflexivity|]. split; [apply lf_refl | reflexivity].
  - assert (Ha : l_class (heap w a) = COGLQuadLayer)
      by (apply Hq; left; reflexivity).
    destruct (bindLayer_null_quad a w Ha) as (w1 & E1 & Hfb & Hf1 & He1).
    pose proof (bindLayer_null_legacy_xr a w Hs) as Hx1.
    rewrite E1 in Hx1. simpl in Hx1.
    assert (Hs1 : layersSupport w1 = false)
      by (rewrite (lf_support _ _ _ Hf1); exact Hs).
    assert (Hq1 : forall l, In l ls -> l_class (heap w1 l) = COGLQuadLayer).
    { intros l Hl. rewrite (lf_class _ _ _ Hf1). apply Hq. right. exact Hl. }
    destruct (IH w1 Hs1 Hq1) as (w' & E' & Hall & Hx' & Hf' & Hrest).
    assert (Ea : (XRRenderer.bindNativeLayerTo a ;;; ret tt) w = Ok tt w1).
    { unfold bind at 1. rewrite (bindNativeLayerTo_legacy a w Hs).
      unfold bind. rewrite E1. reflexivity. }
    exists w'. simpl. unfold bind at 1. rewrite Ea.
    split; [exact E'|]. split; [|split; [congruence|split]].
    + intros l [<-|Hl]; [|apply Hall, Hl].
      destruct (in_dec Nat.eq_dec a ls) as [Hi|Hi]; [apply Hall, Hi|].
      unfold in_fallback. rewrite (Hrest a Hi). exact Hfb.
    + eapply lf_trans; eassumption.
    + intros l Hl. rewrite Hrest by tauto. apply He1.
      intros ->. apply Hl. left. reflexivity.
Qed.

(** X8.  [onSessionStart()] on a host without native layers, with the new
    session in place, at most one layer in the list of [XRState] and quad
    layers in the registry: it returns; the loop is attached; an
    [XRWebGLLayer] has been made the base layer and put at the front of the
    list; no native layer is requested for the registered layers, which
    are all in fallback state afterwards; the registry is the same. *)
Theorem onSessionStart_legacy_falls_back w s :
  layersSupport w = false -> session (xr w) = Some s ->
  List.length (layers (xr w)) <= 1 ->
  (forall l, In l (r_layers (renderer w)) ->
             l_class (heap w l) = COGLQuadLayer) ->
  exists base w',
    XRRenderer.onSessionStart w = Ok tt w'
    /\ n_kind base = KWebGLLayer
    /\ baseLayer (xr w') = Some base
    /\ layers (xr w') = base :: layers (xr w)
    /\ (forall l, In l (r_layers (renderer w)) ->
                  nativeLayer (heap w' l) = None
                  /\ emulatedLayers (heap w' l) <> None
                  /\ OGLXRLayer.isNative (heap w' l) = false)
    /\ r_layers (renderer w') = r_layers (renderer w)
    /\ frame_pending w'.
Proof.
  intros Hs Hx Hlen Hq.
  unfold XRRenderer.onSessionStart.
  unfold bind at 1. rewrite attachLoop_returns.
  assert (Ha : heap (attach_world w) = heap w
               /\ xr (attach_world w) = xr w
               /\ layersSupport (attach_world w) = layersSupport w
               /\ r_layers (renderer (attach_world w))
                  = r_layers (renderer w)).
  { unfold attach_world. rewrite attachLoop_spec. repeat split. }
  destruct Ha as (Hah & Hax & Has & Har).
  assert (Hs1 : layersSupport (attach_world w) = false) by congruence.
  assert (Hx1 : session (xr (attach_world w)) = Some s)
    by (rewrite Hax; exact Hx).
  assert (Hl1 : List.length (layers (xr (attach_world w))) <= 1)
    by (rewrite Hax; exact Hlen).
  destruct (getLayer_legacy_base None (attach_world w) s Hs1 Hx1 Hl1)
    as (base & w2 & E2 & Hk & Hl2 & Hb2 & Hx2 & Hs2 & Hh2 & Hr2).
  unfold bind at 1. rewrite E2. rewrite bind_gets, Hr2, Har.
  assert (Hq2 : forall l, In l (r_layers (renderer w)) ->
                  l_class (heap w2 l) = COGLQuadLayer).
  { intros l Hin. rewrite Hh2, Hah. apply Hq, Hin. }
  destruct (for_each_bindNative_legacy (r_layers (renderer w)) w2 Hs2 Hq2)
    as (w' & E' & Hall & Hx' & Hf' & _).
  exists base, w'. split; [exact E'|]. split; [exact Hk|].
  split; [rewrite Hx'; exact Hb2|].
  split; [rewrite Hx', Hl2, Hax; reflexivity|].
  split; [|split].
  - intros l Hin. destruct (Hall l Hin) as [Hn He].
    split; [exact Hn|]. unfold OGLXRLayer.isNative. rewrite Hn.
    split; [|reflexivity].
    destruct (emulatedLayers (heap w' l)); [discriminate | discriminate He].
  - rewrite (lf_registry _ _ _ Hf' eq_refl), Hr2. exact Har.
  - apply (frame_pending_same (attach_world w));
      [| | |apply attach_world_pending].
    + rewrite (lf_session _ _ _ Hf'), Hx2, Hax. symmetry. exact Hx.
    + rewrite (lf_del _ _ _ Hf'), Hr2. reflexivity.
    + rewrite (lf_outstanding _ _ _ Hf').
      pose proof (lf_getLayer true (attach_world w) TBase None
                    (attach_world w) (lf_refl _ _)) as Hg.
      rewrite E2 in Hg. apply (lf_outstanding _ _ _ Hg).
Qed.

(** One quad layer registered before any session, and a session on a host
    without native layers just put in place by [init]. *)
Definition quad_legacy_session_in_place : World :=
  set_xr (with_session (Some 5))
    (world_of (XRRenderer.registerLayer 0
       (XRRenderer.new_XRRenderer (fun _ => COGLQuadLayer)
                                  (fun _ => no_options)))).

Lemma onSessionStart_legacy_falls_back_witness :
  exists base w',
    XRRenderer.onSessionStart quad_legacy_session_in_place = Ok tt w'
    /\ layers (xr w') = [base]
    /\ nativeLayer (heap w' 0) = None.
Proof.
  assert (Hlen : List.length (layers (xr quad_legacy_session_in_place)) <= 1)
    by (vm_compute; lia).
  assert (Hq : forall l,
             In l (r_layers (renderer quad_legacy_session_in_place)) ->
             l_class (heap quad_legacy_session_in_place l) = COGLQuadLayer).
  { intros l Hl. vm_compute in Hl. destruct Hl as [<-|[]]. reflexivity. }
  destruct (onSessionStart_legacy_falls_back quad_legacy_session_in_place 5
              eq_refl eq_refl Hlen Hq)
    as (base & w' & E & _ & _ & Hl & Hall & _).
  exists base, w'. split; [exact E|]. split; [exact Hl|].
  apply Hall. vm_compute. auto.
Defined.

(** ** registerLayer *)

Lemma remove_first_absent l ls :
  ~ In l ls -> OGLXRLayer.remove_first l ls = ls.
Proof.
  induction ls as [|y ys IH]; simpl; intros H; [reflexivity|].
  destruct (Nat.eqb_spec y l) as [->|Hne]; [exfalso; auto|].
  rewrite IH; auto.
Qed.

Lemma without_first_remove l ls :
  without_first l ls = OGLXRLayer.remove_first l ls.
Proof.
  unfold without_first. destruct (existsb (Nat.eqb l) ls) eqn:E;
    [reflexivity|].
  symmetry. apply remove_first_absent. intros H.
  apply existsb_eqb_in in H. congruence.
Qed.

Lemma getLayer_needs_session t o w n w' :
  session (xr w) = None -> XRState.getLayer t o w <> Ok (Some n) w'.
Proof.
  intros Hs E. apply getLayer_created in E.
  destruct E as (_ & _ & s & Hs' & _). congruence.
Qed.

(** The native layer [bindNativeLayerTo] finds for a quad layer: one
    exactly when the host has native layers and a session is running. *)
Lemma bindNativeLayerTo_quad_split l w :
  l_class (heap w l) = COGLQuadLayer ->
  exists n w1,
    XRRenderer.bindNativeLayerTo l w
    = (XRRenderer.bindLayer l n ;;; ret (is_some n)) w1
    /\ layer_frame true w w1
    /\ is_some n = layersSupport w && XRState.active w.
Proof.
  intros Hc. unfold XRRenderer.bindNativeLayerTo. rewrite bind_gets.
  destruct (layersSupport w) eqn:Hs;
    [|exists None, w; split; [reflexivity|]; split;
      [apply lf_refl | reflexivity]].
  set (f := fun w => set_layer l (fun L =>
         with_options (XRRenderer.with_o_space (space (xr w)) (l_options L)) L) w).
  assert (Hf : layer_frame true w (f w)).
  { apply lf_set_layer; intros; simpl; auto. }
  assert (Hfl : heap (f w) l
                = with_options (XRRenderer.with_o_space (space (xr w))
                                  (l_options (heap w l))) (heap w l)).
  { simpl. apply upd_same. }
  assert (Ht : l_type (heap (f w) l) = TQuad).
  { unfold l_type. rewrite Hfl. simpl. rewrite Hc. reflexivity. }
  pose proof (lf_getLayer true (f w) (l_type (heap (f w) l))
                (Some (l_options (heap (f w) l))) (f w) (lf_refl _ _)) as Hg.
  unfold bind at 1. unfold bind at 1. unfold lift at 1. fold (f w).
  unfold bind at 1. unfold gets at 1. unfold try_catch.
  unfold XRState.active. simpl andb.
  destruct (session (xr w)) as [s|] eqn:Hx.
  - destruct (getLayer_makes_layer (l_type (heap (f w) l))
                (Some (l_options (heap (f w) l))) (f w) s)
      as (n & w2 & E & _); [rewrite (lf_support _ _ _ Hf); exact Hs
                           |exact Hx | right; exact Ht |].
    rewrite E in *. simpl in Hg.
    exists (Some n), w2. split; [reflexivity|].
    split; [eapply lf_trans; eassumption | reflexivity].
  - destruct (XRState.getLayer (l_type (heap (f w) l))
                (Some (l_options (heap (f w) l))) (f w))
      as [r w2|e w2] eqn:E; simpl in Hg.
    + destruct r as [n|];
        [exfalso; exact (getLayer_needs_session _ _ (f w) _ _ Hx E)|].
      exists None, w2. split; [reflexivity|].
      split; [eapply lf_trans; eassumption | reflexivity].
    + exists None, (emit (CError "[LAYER Binding Error]") w2).
      split; [reflexivity|]. split; [|reflexivity].
      eapply lf_trans; [exact Hf|]. eapply lf_trans; [exact Hg|].
      apply lf_emit.
Qed.

(** X9.  [registerLayer(layer)] for a quad layer that was constructed with
    an options object, as the layers of this model are (a layer whose
    [options] is undefined makes the call throw a [TypeError]): the call
    returns the new length of the registry; the layer is then first in the
    registry, once, the other layers keep their order, and the renderer's
    destroy handler is installed in the layer.  The layer comes out native
    exactly when the host has native layers and a session is running, and
    in fallback state otherwise. *)
Theorem registerLayer_moves_to_front l w :
  l_class (heap w l) = COGLQuadLayer ->
  exists w',
    XRRenderer.registerLayer l w
    = Ok (List.length (r_layers (renderer w'))) w'
    /\ r_layers (renderer w')
       = l :: OGLXRLayer.remove_first l (r_layers (renderer w))
    /\ onLayerDestroy_cb (heap w' l) = CbRenderer
    /\ OGLXRLayer.isNative (heap w' l)
       = layersSupport w && XRState.active w
    /\ (OGLXRLayer.isNative (heap w' l) = false ->
        nativeLayer (heap w' l) = None
        /\ emulatedLayers (heap w' l) <> None).
Proof.
  intros Hc. unfold XRRenderer.registerLayer. rewrite bind_lift. cbv beta.
  set (w0 := set_renderer _ w).
  assert (Hr0 : r_layers (renderer w0)
                = OGLXRLayer.remove_first l (r_layers (renderer w))).
  { rewrite <- without_first_remove. unfold w0, without_first. simpl.
    destruct (existsb _ _); reflexivity. }
  destruct (bindNativeLayerTo_quad_split l w0 Hc) as (n & w1 & E & Hf & Hn).
  assert (Hc1 : l_class (heap w1 l) = COGLQuadLayer)
    by (rewrite (lf_class _ _ _ Hf); exact Hc).
  destruct (bindLayer_quad_returns l n w1 Hc1) as (w2 & E2).
  pose proof (bindLayer_repr l n w1) as Hrepr. cbv zeta in Hrepr.
  pose proof (lf_bindLayer w1 true l n w1 (lf_refl _ _)) as Hf2.
  rewrite E2 in Hrepr, Hf2. simpl in Hrepr, Hf2.
  assert (Hemu : n = None -> emulatedLayers (heap w2 l) <> None).
  { intros ->. destruct (bindLayer_null_quad l w1 Hc1)
      as (w2' & E2' & [_ Hs] & _).
    rewrite E2 in E2'. injection E2' as <-.
    destruct (emulatedLayers (heap w2 l)); [discriminate | discriminate Hs]. }
  unfold bind at 1. rewrite E. unfold bind at 1. rewrite E2.
  unfold ret at 1. unfold bind, lift, gets.
  eexists. split; [reflexivity|]. simpl. rewrite upd_same. simpl.
  rewrite (lf_registry _ _ _ Hf2 eq_refl), (lf_registry _ _ _ Hf eq_refl).
  split; [rewrite Hr0; reflexivity|]. split; [reflexivity|].
  unfold OGLXRLayer.isNative. simpl.
  change (layersSupport w && XRState.active w)
    with (layersSupport w0 && XRState.active w0).
  rewrite <- Hn. destruct n as [n|].
  - unfold repr in Hrepr. injection Hrepr as -> ->. simpl.
    split; [reflexivity | discriminate].
  - rewrite Hrepr. simpl. split; [reflexivity|]. intros _.
    split; [reflexivity | apply Hemu; reflexivity].
Qed.

Lemma registerLayer_moves_to_front_witness :
  exists w',
    XRRenderer.registerLayer 0 quad_registered_in_session = Ok 1 w'
    /\ r_layers (renderer w') = [0].
Proof.
  destruct (registerLayer_moves_to_front 0 quad_registered_in_session
              eq_refl) as (w' & E & Hr & _).
  exists w'. rewrite Hr in E. split; [exact E | exact Hr].
Defined.

Lemma bindLayer_base_error l w :
  l_class (heap w l) = COGLXRLayer ->
  emulatedLayers (heap w l) = None ->
  exists w', XRRenderer.bindLayer l None w
             = Throw (JSError "Not implemented") w'.
Proof.
  intros Hc He. unfold XRRenderer.bindLayer, OGLXRLayer.bindLayer.
  destruct (bindLayer_first l None w (OGLXRLayer.createFallback l))
    as (w1 & E & Hc1 & He1 & _).
  cbv beta iota zeta in *. rewrite E.
  rewrite createFallback_base_throws; [eauto | congruence | congruence].
Qed.

Lemma reachable_base_class w l :
  reachable w -> l_class (heap w l) = COGLXRLayer ->
  emulatedLayers (heap w l) = None /\ ~ In l (r_layers (renderer w)).
Proof.
  intros Hr Hc. split.
  - destruct Hr as (classes & options & evs & H). apply reg_inv_run in H.
    destruct H as [Hcl Hb _ _ _]. apply Hb. rewrite <- Hcl. exact Hc.
  - intros Hin. apply reachable_registry_quads in Hr.
    destruct Hr as [_ Hq]. rewrite (Hq l Hin) in Hc. discriminate.
Qed.

(** X10.  In every world a renderer can be in, [registerLayer(layer)] for
    an instance of the base class [OGLXRLayer] throws "Not implemented"
    (the base class has no fallback geometry): the layer is not put into
    the registry, which stays as it is, and the layer is left with neither
    a native layer nor fallback geometry. *)
Theorem registerLayer_base_class_throws w l :
  reachable w -> l_class (heap w l) = COGLXRLayer ->
  exists w',
    XRRenderer.registerLayer l w = Throw (JSError "Not implemented") w'
    /\ r_layers (renderer w') = r_layers (renderer w)
    /\ ~ In l (r_layers (renderer w'))
    /\ nativeLayer (heap w' l) = None
    /\ emulatedLayers (heap w' l) = None.
Proof.
  intros Hr Hc. destruct (reachable_base_class w l Hr Hc) as [He Hni].
  unfold XRRenderer.registerLayer. rewrite bind_lift. cbv beta.
  set (w0 := set_renderer _ w).
  assert (Hr0 : r_layers (renderer w0) = r_layers (renderer w)).
  { unfold w0. simpl. destruct (existsb (Nat.eqb l) _) eqn:Ex;
      [|reflexivity].
    apply existsb_eqb_in in Ex. contradiction. }
  destruct (bindNativeLayerTo_split l w0) as (n & w1 & E & Hf & Hn).
  specialize (Hn Hc). subst n.
  assert (Hc1 : l_class (heap w1 l) = COGLXRLayer)
    by (rewrite (lf_class _ _ _ Hf); exact Hc).
  assert (He1 : emulatedLayers (heap w1 l) = None).
  { destruct (lf_emulated _ _ _ Hf l Hc) as [H|H]; [exact H|].
    rewrite H. exact He. }
  destruct (bindLayer_base_error l w1 Hc1 He1) as (w2 & E2).
  pose proof (bindLayer_repr l None w1) as Hrepr. cbv zeta in Hrepr.
  pose proof (lf_bindLayer w1 true l None w1 (lf_refl _ _)) as Hf2.
  rewrite E2 in Hrepr, Hf2. simpl in Hrepr, Hf2.
  exists w2. unfold bind at 1. rewrite E. unfold bind at 1. rewrite E2.
  split; [reflexivity|].
  assert (Hreg : r_layers (renderer w2) = r_layers (renderer w)).
  { rewrite (lf_registry _ _ _ Hf2 eq_refl), (lf_registry _ _ _ Hf eq_refl).
    exact Hr0. }
  split; [exact Hreg|]. split; [rewrite Hreg; exact Hni|].
  split; [exact Hrepr|].
  destruct (lf_emulated _ _ _ Hf2 l Hc1) as [H|H]; [exact H|].
  rewrite H. exact He1.
Qed.

Lemma registerLayer_base_class_throws_witness :
  exists w',
    XRRenderer.registerLayer 0
      (XRRenderer.new_XRRenderer (fun _ => COGLXRLayer) (fun _ => no_options))
    = Throw (JSError "Not implemented") w'
    /\ r_layers (renderer w') = [].
Proof.
  destruct (registerLayer_base_class_throws
              (XRRenderer.new_XRRenderer (fun _ => COGLXRLayer)
                                         (fun _ => no_options)) 0)
    as (w' & E & Hr & _).
  - exists (fun _ => COGLXRLayer), (fun _ => no_options), []. reflexivity.
  - reflexivity.
  - exists w'. split; [exact E | exact Hr].
Defined.

(** ** destroy() and bindLayer() *)

Lemma ew_destroy l w0 : preserves (elsewhere l w0) (XRRenderer.destroy l).
Proof.
  pose proof (ew_xr_onLayerDestroy l w0).
  unfold XRRenderer.destroy, OGLXRLayer.destroy,
    OGLXRLayer.call_onLayerDestroy, XRRenderer._onLayerDestroy.
  simpl negb. cbv iota. ew_pres.
Qed.

(** X11.  [layer.destroy()], for a layer whose native layer (if any) is a
    composition layer: it returns; the layer then holds no native layer
    and no native transform, while its fallback geometry and its children
    are untouched, as are all other layers.  A layer that had been
    registered is out of the registry.  A native layer it held is
    destroyed at the host, once; before that, when the renderer's handler
    is installed, the host has native layers and a session is running, it
    is taken out of the list of [XRState] and the host is handed the new
    list. *)
Theorem destroy_releases_native l w :
  (forall n, nativeLayer (heap w l) = Some n -> has_destroy n = true) ->
  exists w',
    XRRenderer.destroy l w = Ok tt w'
    /\ nativeLayer (heap w' l) = None
    /\ nativeTransform (heap w' l) = None
    /\ emulatedLayers (heap w' l) = emulatedLayers (heap w l)
    /\ l_children (heap w' l) = l_children (heap w l)
    /\ elsewhere l w w'
    /\ (onLayerDestroy_cb (heap w l) = CbRenderer ->
        ~ In l (r_layers (renderer w')))
    /\ match nativeLayer (heap w l) with
       | None => log w' = log w /\ xr w' = xr w
       | Some n =>
           match onLayerDestroy_cb (heap w l), layersSupport w,
                 session (xr w) with
           | CbRenderer, true, Some s =>
               ~ In n (layers (xr w'))
               /\ log w'
                  = log w ++ [HUpdateRenderState s (RSLayers (layers (xr w')));
                              HDestroyLayer n]
           | _, _, _ =>
               xr w' = xr w /\ log w' = log w ++ [HDestroyLayer n]
           end
       end.
Proof.
  intros _.
  pose proof (ew_destroy l w w (ew_refl _ _)) as Hew.
  destruct w as [ls [ses sp lys bl blt lf gb f1 f2] [rl cbs cid del] hp ho lg].
  destruct (hp l) as [c o nl nt em cb d ch p] eqn:EL.
  unfold XRRenderer.destroy, OGLXRLayer.destroy,
    OGLXRLayer.call_onLayerDestroy, XRRenderer._onLayerDestroy,
    XRState.onLayerDestroy, XRState.updateRenderState,
    XRState.need_session, OGLXRLayer.destroyNative in *.
  destruct cb, nl as [n|], ls, ses as [s|];
    cbv -[upd app Nat.eqb filter In elsewhere Native_eq_dec] in Hew |- *;
    rewrite ?EL in Hew |- *;
    cbv -[upd app Nat.eqb filter In elsewhere Native_eq_dec] in Hew |- *;
    rewrite ?EL, ?upd_same in Hew |- *;
    (eexists; split; [reflexivity|]);
    cbv -[upd app Nat.eqb filter In elsewhere Native_eq_dec];
    rewrite ?upd_same; cbv -[upd app Nat.eqb filter In elsewhere Native_eq_dec];
    repeat (split; [try reflexivity; try exact Hew; try discriminate|]);
    try (split; reflexivity); try reflexivity; try discriminate;
    try (intros _; rewrite filter_In, Nat.eqb_refl; simpl;
         intros [_ Hf]; discriminate Hf);
    try (rewrite <- app_assoc; reflexivity);
    try (intros Hin; apply filter_In in Hin; destruct Hin as [_ Hf];
         destruct (Native_eq_dec n n); [discriminate Hf | auto]).
Qed.

Lemma destroy_releases_native_witness :
  exists w',
    XRRenderer.destroy 0 quad_registered_in_session = Ok tt w'
    /\ nativeLayer (heap w' 0) = None.
Proof.
  destruct (destroy_releases_native 0 quad_registered_in_session)
    as (w' & E & Hn & _).
  - intros n Hn. vm_compute in Hn. injection Hn as <-. reflexivity.
  - exists w'. split; [exact E | exact Hn].
Defined.

(** [log_adds ok l0 w]: the trace of [w] is [l0] followed by events that
    all satisfy [ok]. *)
Definition log_adds (ok : Event -> Prop) (l0 : list Event) (w : World)
    : Prop :=
  exists evs, log w = l0 ++ evs /\ forall e, In e evs -> ok e.

Lemma la_refl ok w : log_adds ok (log w) w.
Proof. exists []. split; [symmetry; apply app_nil_r | intros e []]. Qed.

Lemma la_keep ok l0 w w' : log w' = log w -> log_adds ok l0 w -> log_adds ok l0 w'.
Proof. intros H (evs & E & Hok). exists evs. rewrite H. auto. Qed.

Lemma la_emit (ok : Event -> Prop) l0 e w :
  ok e -> log_adds ok l0 w -> log_adds ok l0 (emit e w).
Proof.
  intros He (evs & E & Hok). exists (evs ++ [e]). simpl. rewrite E.
  split; [apply eq_sym, app_assoc|].
  intros e' H. apply in_app_or in H. destruct H as [H|[<-|[]]]; auto.
Qed.

Lemma la_in ok l0 w e : log_adds ok l0 w -> In e l0 -> In e (log w).
Proof. intros (evs & E & _) H. rewrite E. apply in_or_app. auto. Qed.

Lemma log_fold {A} (f : World -> A -> World) :
  (forall x w, log (f w x) = log w) ->
  forall xs w, log (fold_left f xs w) = log w.
Proof.
  intros Hf xs. induction xs as [|x xs IH]; simpl; intros w; [reflexivity|].
  rewrite IH. apply Hf.
Qed.

Lemma log_destroyFallback l w : log (OGLXRLayer.destroyFallback l w) = log w.
Proof.
  unfold OGLXRLayer.destroyFallback, OGLXRLayer._removeFallbackLayers.
  destruct (emulatedLayers (heap w l)); [|reflexivity]. simpl.
  apply log_fold. intros. reflexivity.
Qed.

Ltac la_leaf :=
  let w := fresh "w" in
  let H := fresh "H" in
  intros w H;
  first [ apply la_emit; [solve [simpl; auto] | exact H]
        | apply (la_keep _ _ w); [|exact H];
          first [ reflexivity
                | apply log_destroyFallback
                | apply log_fold; intros; reflexivity ] ].

Section LogAdds.
Variable ok : Event -> Prop.
Variable l0 : list Event.
Local Abbreviation P := (log_adds ok l0).

Lemma la_fresh : preserves P fresh.
Proof. intros w H. apply (la_keep _ _ w); [reflexivity | exact H]. Qed.
Hint Resolve la_fresh : pres.

Lemma la_updateNative l :
  (forall t, ok (HNewTransform t)) -> (forall n t, ok (HSetTransform n t)) ->
  preserves P (OGLXRLayer._updateNative l).
Proof.
  intros H1 H2.
  unfold OGLXRLayer._updateNative, OGLXRLayer.super_updateNative,
    OGLXRLayer.push_transform.
  pres_with la_leaf.
Qed.

Lemma la_createFallback l :
  (forall m, ok (HNewMesh m)) ->
  preserves P (OGLXRLayer.createFallback l).
Proof.
  intros H1.
  unfold OGLXRLayer.createFallback, OGLXRLayer._createFallbackLayers,
    OGLXRLayer.new_QuadPrimitive.
  pres_with la_leaf.
Qed.
End LogAdds.

(** The second part of [bindLayer]: taking the handle, or falling back. *)
Definition bind_or_fall_back (l : LayerId) (layer : option Native) : M unit :=
  match layer with
  | Some n =>
      lift (OGLXRLayer.destroyFallback l) ;;;
      lift (set_layer l (with_nativeLayer (Some n))) ;;;
      OGLXRLayer._updateNative l
  | None => OGLXRLayer.createFallback l
  end.

Lemma bind_or_fall_back_xr l layer w :
  xr (world_of (bind_or_fall_back l layer w)) = xr w.
Proof.
  destruct layer as [n|]; simpl.
  - rewrite !bind_lift.
    match goal with |- xr (world_of (_ ?w1)) = _ =>
      rewrite (xr_updateNative l (xr w1) w1 eq_refl)
    end.
    simpl. apply xr_destroyFallback.
  - apply (xr_createFallback l (xr w) w eq_refl).
Qed.

Lemma bind_or_fall_back_log (ok : Event -> Prop) l layer w :
  (forall t, ok (HNewTransform t)) -> (forall n t, ok (HSetTransform n t)) ->
  (layer = None -> forall m, ok (HNewMesh m)) ->
  log_adds ok (log w) (world_of (bind_or_fall_back l layer w)).
Proof.
  intros H1 H2 H3. destruct layer as [n|]; simpl.
  - rewrite !bind_lift. apply la_updateNative; auto.
    apply (la_keep _ _ w); [|apply la_refl].
    simpl. apply log_destroyFallback.
  - apply la_createFallback; [auto | apply la_refl].
Qed.

Lemma xr_onLayerDestroy_active n w s :
  layersSupport w = true -> session (xr w) = Some s ->
  exists w',
    XRState.onLayerDestroy n w = Ok tt w'
    /\ heap w' = heap w
    /\ ~ In n (layers (xr w')).
Proof.
  destruct w as [ls [ses sp lys bl blt lf gb f1 f2] r hp ho lg]. simpl.
  intros -> ->. eexists. split; [reflexivity|]. split; [reflexivity|].
  simpl. rewrite filter_In. intros [_ H].
  destruct (Native_eq_dec n n); [discriminate | auto].
Qed.

(** The first part of [bindLayer], for a layer that holds a native layer:
    nothing happens when it is handed the same layer again; otherwise the
    layer it holds is destroyed, and dropped from the list of [XRState]
    when the renderer's handler is installed, the host has native layers
    and a session is running. *)
Lemma bindLayer_first_trace l layer old w (k : M unit) :
  nativeLayer (heap w l) = Some old ->
  exists w1,
    (cur <- gets (fun w => nativeLayer (heap w l)) ;;
     match cur with
     | Some n =>
         if negb (same_native n layer)
         then OGLXRLayer.call_onLayerDestroy XRRenderer._onLayerDestroy l true
                ;;; lift (OGLXRLayer.destroyNative l)
         else ret tt
     | None => ret tt
     end ;;; k) w = k w1
    /\ (layer = Some old -> w1 = w)
    /\ (layer <> Some old ->
        In (HDestroyLayer old) (log w1)
        /\ (onLayerDestroy_cb (heap w l) = CbRenderer ->
            layersSupport w = true -> session (xr w) <> None ->
            ~ In old (layers (xr w1)))).
Proof.
  intros En. rewrite bind_gets, En. unfold bind at 1.
  unfold same_native. destruct layer as [n|].
  - destruct (Native_eq_dec old n) as [<-|Hne]; simpl.
    + exists w. split; [reflexivity|]. split; [reflexivity|].
      intros H. contradiction H. reflexivity.
    + unfold bind, lift.
      destruct (call_onLayerDestroy_returns l true w) as (w1 & E1 & Hh).
      rewrite E1. eexists. split; [reflexivity|].
      split; [intros [= ->]; contradiction Hne; reflexivity|]. intros _.
      split.
      * unfold OGLXRLayer.destroyNative. rewrite Hh, En. simpl.
        apply in_or_app. right. left. reflexivity.
      * intros Hcb Hs Hx. rewrite xr_destroyNative.
        destruct (session (xr w)) as [s|] eqn:Es; [|contradiction Hx; auto].
        destruct (xr_onLayerDestroy_active old w s Hs Es) as (w' & E' & _ & Hni).
        unfold OGLXRLayer.call_onLayerDestroy, XRRenderer._onLayerDestroy in E1.
        rewrite bind_gets, Hcb in E1. simpl in E1.
        unfold bind at 1 in E1. unfold ret at 1 in E1.
        rewrite bind_gets, En, E' in E1. injection E1 as <-. exact Hni.
  - simpl. unfold bind, lift.
    destruct (call_onLayerDestroy_returns l true w) as (w1 & E1 & Hh).
    rewrite E1. eexists. split; [reflexivity|].
    split; [discriminate|]. intros _.
    split.
    + unfold OGLXRLayer.destroyNative. rewrite Hh, En. simpl.
      apply in_or_app. right. left. reflexivity.
    + intros Hcb Hs Hx. rewrite xr_destroyNative.
      destruct (session (xr w)) as [s|] eqn:Es; [|contradiction Hx; auto].
      destruct (xr_onLayerDestroy_active old w s Hs Es) as (w' & E' & _ & Hni).
      unfold OGLXRLayer.call_onLayerDestroy, XRRenderer._onLayerDestroy in E1.
      rewrite bind_gets, Hcb in E1. simpl in E1.
      unfold bind at 1 in E1. unfold ret at 1 in E1.
      rewrite bind_gets, En, E' in E1. injection E1 as <-. exact Hni.
Qed.

(** The events of a transform update. *)
Definition transform_event (e : Event) : Prop :=
  match e with
  | HNewTransform _ | HSetTransform _ _ => True
  | _ => False
  end.

(** X12.  [bindLayer], for a layer that holds a native composition layer.
    Handed the layer it already holds, it destroys nothing and leaves
    [XRState] alone: all it does at the host is the transform update.
    Handed another layer, or null, it destroys the layer it held, and that
    layer is no longer in the list of [XRState] when the renderer's handler
    is installed, the host has native layers and a session is running.
    This is so whether the call returns or throws. *)
Theorem bindLayer_destroys_only_replaced_native l old layer w :
  nativeLayer (heap w l) = Some old -> has_destroy old = true ->
  let w' := world_of (XRRenderer.bindLayer l layer w) in
  (layer = Some old ->
   xr w' = xr w
   /\ nativeLayer (heap w' l) = Some old
   /\ exists evs, log w' = log w ++ evs
                  /\ forall e, In e evs -> transform_event e)
  /\ (layer <> Some old ->
      In (HDestroyLayer old) (log w')
      /\ nativeLayer (heap w' l) = layer
      /\ (onLayerDestroy_cb (heap w l) = CbRenderer ->
          layersSupport w = true -> session (xr w) <> None ->
          ~ In old (layers (xr w')))).
Proof.
  intros En _ w'.
  pose proof (bindLayer_repr l layer w) as Hrepr. cbv zeta in Hrepr.
  fold w' in Hrepr.
  assert (Hnat : nativeLayer (heap w' l) = layer).
  { destruct layer; [|exact Hrepr]. unfold repr in Hrepr. congruence. }
  subst w'. unfold XRRenderer.bindLayer, OGLXRLayer.bindLayer in *.
  destruct (bindLayer_first_trace l layer old w (bind_or_fall_back l layer) En)
    as (w1 & E & Hsame & Hother).
  unfold bind_or_fall_back in E at 1. cbv beta iota zeta in *.
  rewrite E in *. split.
  - intros ->. rewrite (Hsame eq_refl) in *.
    split; [apply bind_or_fall_back_xr|]. split; [exact Hnat|].
    apply (bind_or_fall_back_log transform_event); simpl; auto.
    discriminate.
  - intros Hne. destruct (Hother Hne) as [Hin Hdrop].
    split; [|split; [exact Hnat|]].
    + apply (la_in (fun _ => True) (log w1)); [|exact Hin].
      apply bind_or_fall_back_log; auto.
    + intros Hcb Hs Hx. rewrite bind_or_fall_back_xr. auto.
Qed.

Lemma bindLayer_destroys_only_replaced_native_witness :
  In (HDestroyLayer (mkNative 9 KQuadLayer))
     (log (world_of (XRRenderer.bindLayer 0 None
                       quad_registered_in_session))).
Proof.
  apply (bindLayer_destroys_only_replaced_native 0 (mkNative 9 KQuadLayer)
           None quad_registered_in_session eq_refl eq_refl).
  discriminate.
Defined.

(** ** Fallback geometry *)

Lemma existsb_eqb_absent m ls :
  ~ In m ls -> existsb (Nat.eqb m) ls = false.
Proof.
  intros H. destruct (existsb (Nat.eqb m) ls) eqn:E; [|reflexivity].
  apply existsb_eqb_in in E. contradiction.
Qed.

Lemma remove_first_last m ls :
  ~ In m ls -> OGLXRLayer.remove_first m (ls ++ [m]) = ls.
Proof.
  induction ls as [|y ys IH]; simpl; intros H.
  - rewrite Nat.eqb_refl. reflexivity.
  - destruct (Nat.eqb_spec y m) as [->|Hne]; [exfalso; auto|].
    rewrite IH; auto.
Qed.

Lemma remove_first_mid m m' ls :
  ~ In m ls -> OGLXRLayer.remove_first m (ls ++ [m; m']) = ls ++ [m'].
Proof.
  induction ls as [|y ys IH]; simpl; intros H.
  - rewrite Nat.eqb_refl. reflexivity.
  - destruct (Nat.eqb_spec y m) as [->|Hne]; [exfalso; auto|].
    rewrite IH; auto.
Qed.

(** X13.  The fallback geometry of a quad layer that has none, in a world
    whose scene-graph objects were allocated before.  [createFallback()]
    makes one new quad primitive, or two when the layout given in the
    options includes "stereo", keeps them as the fallback geometry and
    appends them to the children of the layer; a second [createFallback()]
    does nothing; [destroyFallback()] then takes exactly these primitives
    out of the children again and forgets the fallback geometry, without
    any call to the host. *)
Theorem fallback_geometry_round_trip l w :
  l_class (heap w l) = COGLQuadLayer ->
  emulatedLayers (heap w l) = None ->
  (forall m, In m (l_children (heap w l)) -> m < h_fresh (host w)) ->
  exists ms w1,
    OGLXRLayer.createFallback l w = Ok tt w1
    /\ emulatedLayers (heap w1 l) = Some ms
    /\ List.length ms
       = (if OGLXRLayer.wants_stereo (l_options (heap w l)) then 2 else 1)
    /\ l_children (heap w1 l) = l_children (heap w l) ++ ms
    /\ log w1 = log w ++ map HNewMesh ms
    /\ nativeLayer (heap w1 l) = nativeLayer (heap w l)
    /\ OGLXRLayer.createFallback l w1 = Ok tt w1
    /\ emulatedLayers (heap (OGLXRLayer.destroyFallback l w1) l) = None
    /\ l_children (heap (OGLXRLayer.destroyFallback l w1) l)
       = l_children (heap w l)
    /\ log (OGLXRLayer.destroyFallback l w1) = log w1.
Proof.
  destruct w as [ls x r hp [hf hr hl hli ho] lg]. simpl.
  destruct (hp l) as [c o nl nt em cb d ch p] eqn:EL. simpl.
  intros -> -> Hch.
  assert (H0 : ~ In hf ch) by (intros H; apply Hch in H; lia).
  assert (H1 : ~ In (S hf) ch) by (intros H; apply Hch in H; lia).
  assert (H2 : ~ In (S hf) (ch ++ [hf])).
  { intros H. apply in_app_or in H. destruct H as [H|[H|[]]]; [auto | lia]. }
  pose proof (existsb_eqb_absent _ _ H0) as X0.
  pose proof (existsb_eqb_absent _ _ H2) as X2.
  pose proof (remove_first_mid _ (S hf) _ H0) as R0.
  pose proof (remove_first_last _ _ H1) as R1.
  pose proof (remove_first_last _ _ H0) as R2.
  unfold Mesh in X0, X2, R0, R1, R2.
  set (w := mkWorld ls x r hp (mkHost hf hr hl hli ho) lg).
  destruct (OGLXRLayer.createFallback l w) as [[] w1|e w1] eqn:E;
    unfold w, OGLXRLayer.createFallback, OGLXRLayer._createFallbackLayers,
      OGLXRLayer.new_QuadPrimitive, OGLXRLayer.addChild in E;
    destruct (OGLXRLayer.wants_stereo o) eqn:Est;
    repeat progress
      (cbv -[upd app Nat.eqb existsb OGLXRLayer.wants_stereo] in E;
       rewrite ?EL, ?Est, ?upd_same, ?X0, ?X2 in E);
    try discriminate E; injection E as <-;
    [exists [hf; S hf] | exists [hf]];
    (eexists; split; [reflexivity|]);
    unfold OGLXRLayer.createFallback, OGLXRLayer.destroyFallback,
      OGLXRLayer._removeFallbackLayers, OGLXRLayer.removeChild;
    repeat progress
      (cbv -[upd app Nat.eqb existsb OGLXRLayer.remove_first
             OGLXRLayer.wants_stereo];
       rewrite ?EL, ?Est, ?upd_same);
    rewrite <- ?app_assoc; simpl app;
    rewrite ?R0, ?R1, ?R2;
    repeat (split; [reflexivity|]); try reflexivity.
Qed.

Lemma fallback_geometry_round_trip_witness :
  exists (ms : list Mesh) w1,
    OGLXRLayer.createFallback 0
      (XRRenderer.new_XRRenderer (fun _ => COGLQuadLayer)
                                 (fun _ => no_options)) = Ok tt w1
    /\ List.length ms = 1
    /\ l_children (heap (OGLXRLayer.destroyFallback 0 w1) 0) = [].
Proof.
  destruct (fallback_geometry_round_trip 0
              (XRRenderer.new_XRRenderer (fun _ => COGLQuadLayer)
                                         (fun _ => no_options))
              eq_refl eq_refl)
    as (ms & w1 & E & _ & Hlen & _ & _ & _ & _ & _ & Hch & _).
  - intros m [].
  - exists ms, w1. split; [exact E|]. split; [exact Hlen | exact Hch].
Defined.

(** ** A granted session, end to end *)

Lemma bindNativeLayerTo_makes_native l w s :
  layersSupport w = true -> session (xr w) = Some s ->
  l_class (heap w l) = COGLQuadLayer ->
  exists w',
    XRRenderer.bindNativeLayerTo l w = Ok true w'
    /\ OGLXRLayer.isNative (heap w' l) = true
    /\ layer_frame true w w'
    /\ elsewhere l w w'.
Proof.
  intros Hs Hx Hc.
  pose proof (lf_bindNativeLayerTo w true l w (lf_refl _ _)) as Hlf.
  pose proof (ew_bindNativeLayerTo l w w (ew_refl _ _)) as Hew.
  destruct (bindNativeLayerTo_quad_split l w Hc) as (n & w1 & E & Hf & Hn).
  rewrite Hs in Hn. unfold XRState.active in Hn. rewrite Hx in Hn.
  destruct n as [n|]; [clear Hn | discriminate Hn].
  assert (Hc1 : l_class (heap w1 l) = COGLQuadLayer)
    by (rewrite (lf_class _ _ _ Hf); exact Hc).
  destruct (bindLayer_quad_returns l (Some n) w1 Hc1) as (w2 & E2).
  pose proof (bindLayer_repr l (Some n) w1) as Hr. cbv zeta in Hr.
  rewrite E2 in Hr. simpl in Hr.
  assert (Eall : XRRenderer.bindNativeLayerTo l w = Ok true w2).
  { rewrite E. unfold bind. rewrite E2. reflexivity. }
  rewrite Eall in Hlf, Hew. simpl in Hlf, Hew.
  exists w2. split; [exact Eall|]. split; [|split; assumption].
  unfold repr in Hr. injection Hr as Hr1 Hr2.
  unfold OGLXRLayer.isNative. rewrite Hr1, Hr2. reflexivity.
Qed.

Lemma for_each_bindNative_any ls : forall w s,
  layersSupport w = true -> session (xr w) = Some s ->
  (forall l, In l ls -> l_class (heap w l) = COGLQuadLayer) ->
  exists w',
    for_each (fun l => XRRenderer.bindNativeLayerTo l ;;; ret tt) ls w
    = Ok tt w'
    /\ (forall l, In l ls -> OGLXRLayer.isNative (heap w' l) = true)
    /\ layer_frame true w w'
    /\ (forall l, ~ In l ls -> heap w' l = heap w l).
Proof.
  induction ls as [|a ls IH]; intros w s Hs Hx Hq.
  - exists w. split; [reflexivity|]. split; [intros l []|].
    split; [apply lf_refl | reflexivity].
  - assert (Ha : l_class (heap w a) = COGLQuadLayer)
      by (apply Hq; left; reflexivity).
    destruct (bindNativeLayerTo_makes_native a w s Hs Hx Ha)
      as (w1 & E1 & Hn & Hf1 & He1).
    assert (Hs1 : layersSupport w1 = true)
      by (rewrite (lf_support _ _ _ Hf1); exact Hs).
    assert (Hx1 : session (xr w1) = Some s)
      by (rewrite (lf_session _ _ _ Hf1); exact Hx).
    assert (Hq1 : forall l, In l ls -> l_class (heap w1 l) = COGLQuadLayer).
    { intros l Hl. rewrite (lf_class _ _ _ Hf1). apply Hq. right. exact Hl. }
    destruct (IH w1 s Hs1 Hx1 Hq1) as (w' & E' & Hall & Hf' & Hrest).
    exists w'. simpl. unfold bind at 1. unfold bind at 1. rewrite E1.
    unfold ret at 1. split; [exact E'|].
    split; [|split; [eapply lf_trans; eassumption|]].
    + intros l [<-|Hl]; [|apply Hall, Hl].
      destruct (in_dec Nat.eq_dec a ls) as [Hi|Hi]; [apply Hall, Hi|].
      rewrite (Hrest a Hi). exact Hn.
    + intros l Hl. rewrite Hrest by tauto. apply He1.
      intros ->. apply Hl. left. reflexivity.
Qed.

(** With a session, [getLayer(gl, "base")] returns (a layer or null). *)
Lemma getLayer_base_returns w s :
  session (xr w) = Some s ->
  exists r w', XRState.getLayer TBase None w = Ok r w'.
Proof.
  destruct w as [ls [ses sp lys bl blt lf gb f1 f2] r hp ho lg]. simpl.
  intros ->. destruct ls, gb; cbv -[app Nat.ltb List.length];
    try destruct (1 <? List.length lys); eauto.
Qed.

(** [onSessionStart()] with the session in place and quad layers in the
    registry. *)
Lemma onSessionStart_any w s :
  session (xr w) = Some s ->
  (forall l, In l (r_layers (renderer w)) ->
             l_class (heap w l) = COGLQuadLayer) ->
  exists w',
    XRRenderer.onSessionStart w = Ok tt w'
    /\ layer_frame true (attach_world w) w'
    /\ (forall l, In l (r_layers (renderer w)) ->
          if layersSupport w then OGLXRLayer.isNative (heap w' l) = true
          else in_fallback w' l).
Proof.
  intros Hx Hq.
  unfold XRRenderer.onSessionStart.
  unfold bind at 1. rewrite attachLoop_returns.
  assert (Ha : heap (attach_world w) = heap w
               /\ xr (attach_world w) = xr w
               /\ layersSupport (attach_world w) = layersSupport w
               /\ r_layers (renderer (attach_world w))
                  = r_layers (renderer w)).
  { unfold attach_world. rewrite attachLoop_spec. repeat split. }
  destruct Ha as (Hah & Hax & Has & Har).
  assert (Hx1 : session (xr (attach_world w)) = Some s)
    by (rewrite Hax; exact Hx).
  destruct (getLayer_base_returns (attach_world w) s Hx1) as (r & w2 & E2).
  pose proof (lf_getLayer true (attach_world w) TBase None
                (attach_world w) (lf_refl _ _)) as Hg.
  rewrite E2 in Hg. simpl in Hg.
  unfold bind at 1. rewrite E2. rewrite bind_gets.
  rewrite (lf_registry _ _ _ Hg eq_refl), Har.
  assert (Hq2 : forall l, In l (r_layers (renderer w)) ->
                  l_class (heap w2 l) = COGLQuadLayer).
  { intros l Hin. rewrite (lf_class _ _ _ Hg), Hah. apply Hq, Hin. }
  assert (Hs2 : layersSupport w2 = layersSupport w)
    by (rewrite (lf_support _ _ _ Hg); exact Has).
  assert (Hx2 : session (xr w2) = Some s)
    by (rewrite (lf_session _ _ _ Hg); exact Hx1).
  destruct (layersSupport w) eqn:Hs.
  - destruct (for_each_bindNative_any (r_layers (renderer w)) w2 s
                Hs2 Hx2 Hq2) as (w' & E' & Hall & Hf' & _).
    exists w'. split; [exact E'|].
    split; [eapply lf_trans; eassumption | exact Hall].
  - destruct (for_each_bindNative_legacy (r_layers (renderer w)) w2
                Hs2 Hq2) as (w' & E' & Hall & _ & Hf' & _).
    exists w'. split; [exact E'|].
    split; [eapply lf_trans; eassumption | exact Hall].
Qed.

Lemma clear_keeps w :
  heap (XRState.clear w) = heap w
  /\ renderer (XRState.clear w) = renderer w
  /\ layersSupport (XRState.clear w) = layersSupport w
  /\ h_live (host (XRState.clear w)) = h_live (host w).
Proof.
  destruct (session (xr w)) as [s|] eqn:Hs.
  - destruct (clear_with_session w s Hs)
      as (_ & _ & _ & _ & _ & _ & _ & Hr & Hh & Hl & _).
    destruct (clear_sched w) as (_ & _ & Hlive & _). auto.
  - rewrite (clear_without_session w Hs). auto.
Qed.

(** What [init] hands to the "xrstart" listener. *)
Lemma init_announce_start s w :
  exists w1,
    init_announce s w
    = Ok tt (world_of (XRRenderer.onSessionStart w1))
    /\ xr w1 = xr w /\ heap w1 = heap w /\ renderer w1 = renderer w
    /\ layersSupport w1 = layersSupport w
    /\ h_live (host w1) = h_live (host w).
Proof.
  eexists. split; [reflexivity|]. simpl. auto.
Qed.

(** X14.  In every world a renderer can be in, when the host grants the
    session and the reference space, [requestXR] resolves with [XRState]
    holding the new session and the host's layers flag; the registry is
    the same; on a host with native layers every registered layer is
    native afterwards, on a host without them every registered layer is in
    fallback state; and the loop is attached. *)
Theorem requestXR_granted_binds_registered_layers b w :
  reachable w ->
  exists w',
    XRRenderer.requestXR_settle (XRState.Granted b) w = Ok tt w'
    /\ layersSupport w' = b
    /\ session (xr w') = Some (h_fresh (host w))
    /\ h_live (host w') = Some (h_fresh (host w))
    /\ r_layers (renderer w') = r_layers (renderer w)
    /\ (forall l, In l (r_layers (renderer w)) ->
          if b then OGLXRLayer.isNative (heap w' l) = true
          else in_fallback w' l)
    /\ frame_pending w'.
Proof.
  intros Hr. apply reachable_registry_quads in Hr. destruct Hr as [_ Hq].
  unfold XRRenderer.requestXR_settle. rewrite try_finally_attach.
  rewrite settle_granted, init_split.
  set (s := h_fresh (host w)).
  set (w0 := init_enter s (S s) (granted_world b w)).
  assert (H0 : session (xr w0) = Some s
               /\ heap w0 = heap w /\ renderer w0 = renderer w
               /\ layersSupport w0 = b
               /\ h_live (host w0) = Some s).
  { unfold w0, init_enter. simpl.
    destruct (XRState.active (granted_world b w)).
    - destruct (clear_keeps (granted_world b w)) as (Hh & Hr & Hl & Hlive).
      rewrite Hh, Hr, Hl, Hlive. simpl. auto.
    - simpl. auto. }
  destruct H0 as (Hx0 & Hh0 & Hr0 & Hs0 & Hl0).
  destruct (init_announce_start s w0) as (w1 & E1 & Hx1 & Hh1 & Hr1 & Hs1 & Hl1).
  rewrite E1.
  assert (Hx1' : session (xr w1) = Some s) by (rewrite Hx1; exact Hx0).
  assert (Hq1 : forall l, In l (r_layers (renderer w1)) ->
                  l_class (heap w1 l) = COGLQuadLayer).
  { intros l. rewrite Hr1, Hr0, Hh1, Hh0. apply Hq. }
  destruct (onSessionStart_any w1 s Hx1' Hq1) as (w2 & E2 & Hf & Hall).
  rewrite E2. simpl world_of. cbv iota.
  assert (Ha1 : heap (attach_world w1) = heap w1
               /\ xr (attach_world w1) = xr w1
               /\ layersSupport (attach_world w1) = layersSupport w1
               /\ r_layers (renderer (attach_world w1))
                  = r_layers (renderer w1)
               /\ h_live (host (attach_world w1)) = h_live (host w1)).
  { unfold attach_world. rewrite attachLoop_spec. repeat split. }
  assert (Ha2 : heap (attach_world w2) = heap w2
               /\ xr (attach_world w2) = xr w2
               /\ layersSupport (attach_world w2) = layersSupport w2
               /\ r_layers (renderer (attach_world w2))
                  = r_layers (renderer w2)
               /\ h_live (host (attach_world w2)) = h_live (host w2)).
  { unfold attach_world. rewrite attachLoop_spec. repeat split. }
  destruct Ha1 as (A1h & A1x & A1s & A1r & A1l).
  destruct Ha2 as (A2h & A2x & A2s & A2r & A2l).
  exists (attach_world w2). split; [reflexivity|].
  split; [rewrite A2s, (lf_support _ _ _ Hf), A1s, Hs1; exact Hs0|].
  split; [rewrite A2x, (lf_session _ _ _ Hf), A1x; exact Hx1'|].
  split; [rewrite A2l, (lf_live _ _ _ Hf), A1l, Hl1; exact Hl0|].
  split; [rewrite A2r, (lf_registry _ _ _ Hf eq_refl), A1r, Hr1, Hr0;
          reflexivity|].
  split; [|apply attach_world_pending].
  intros l Hin. rewrite <- Hr0, <- Hr1 in Hin. specialize (Hall l Hin).
  rewrite Hs1, Hs0 in Hall. unfold in_fallback. rewrite A2h. exact Hall.
Qed.

Lemma requestXR_granted_binds_registered_layers_witness :
  exists w',
    XRRenderer.requestXR_settle (XRState.Granted true)
      (world_of (XRRenderer.registerLayer 0
         (XRRenderer.new_XRRenderer (fun _ => COGLQuadLayer)
                                    (fun _ => no_options)))) = Ok tt w'
    /\ OGLXRLayer.isNative (heap w' 0) = true.
Proof.
  destruct (requestXR_granted_binds_registered_layers true
              (world_of (XRRenderer.registerLayer 0
                 (XRRenderer.new_XRRenderer (fun _ => COGLQuadLayer)
                                            (fun _ => no_options)))))
    as (w' & E & _ & _ & _ & _ & Hall & _).
  - exists (fun _ => COGLQuadLayer), (fun _ => no_options),
      [EvRegisterLayer 0]. reflexivity.
  - exists w'. split; [exact E|]. apply (Hall 0). vm_compute. auto.
Defined.

(** ** Pausing the loop *)

(** X15.  [_clearLoop()] pauses the loop, in every world a renderer can be
    in: afterwards no cancellation closure is stored and no frame request
    is outstanding with a running clock, so the host cannot fire a tick;
    the callbacks wait in the map; and a second [_clearLoop()] changes
    nothing. *)
Theorem clearLoop_pauses_the_loop w :
  reachable w ->
  let w' := XRRenderer._clearLoop w in
  _clearLoopDel (renderer w') = None
  /\ (forall src id, In (src, id) (h_outstanding (host w')) ->
                     XRRenderer.live w' src = false)
  /\ (forall src id time frame, step (EvFrame src id time frame) w' = None)
  /\ _rafCallbacks (renderer w') = _rafCallbacks (renderer w)
  /\ XRRenderer._clearLoop w' = w'.
Proof.
  intros Hr w'. apply reachable_loop_inv in Hr.
  destruct (li_clearLoop w Hr) as [_ Hdead].
  assert (Hlive : forall src, XRRenderer.live w' src = XRRenderer.live w src).
  { intros src. apply live_same. unfold w'. rewrite clearLoop_spec.
    reflexivity. }
  assert (Hd : forall src id, In (src, id) (h_outstanding (host w')) ->
                              XRRenderer.live w' src = false).
  { intros src id Hin. rewrite Hlive. eapply Hdead, Hin. }
  split; [unfold w'; rewrite clearLoop_spec; reflexivity|].
  split; [exact Hd|]. split; [|split].
  - intros src id time frame. unfold step.
    destruct (existsb (same_request (src, id)) (h_outstanding (host w')))
      eqn:Ex; [|reflexivity].
    apply existsb_exists in Ex. destruct Ex as ([src' id'] & Hin & Hsame).
    assert (src' = src).
    { unfold same_request in Hsame. simpl in Hsame.
      destruct (Source_eq_dec src src'); [congruence | discriminate]. }
    subst src'. rewrite (Hd src id' Hin). reflexivity.
  - unfold w'. rewrite clearLoop_spec. reflexivity.
  - unfold w'. rewrite !clearLoop_spec.
    unfold cancel_events, after_cancel. simpl. rewrite app_nil_r.
    reflexivity.
Qed.

Lemma clearLoop_pauses_the_loop_witness :
  _clearLoopDel (renderer (XRRenderer._clearLoop layers_session_started))
  = None.
Proof.
  exact (proj1 (clearLoop_pauses_the_loop layers_session_started
                  layers_session_started_reachable)).
Defined.

(** ** render() *)

(** What [update()] leaves behind for a layer whose dirty flag is set: a
    layer without a native layer is untouched, a layer with one holds a
    transform made from its pose during the call, which was pushed to the
    native layer. *)
Definition updated_in (w w' : World) (l : LayerId) : Prop :=
  match nativeLayer (heap w l) with
  | Some n =>
      exists t,
        nativeTransform (heap w' l) = Some t
        /\ h_fresh (host w) <= t_id t
        /\ t_pose t = l_pose (heap w l)
        /\ In (HSetTransform n (Some t)) (log w')
  | None => heap w' l = heap w l
  end.

Lemma ew_update l w0 : preserves (elsewhere l w0) (OGLXRLayer.update l).
Proof.
  pose proof (ew_updateNative l w0). unfold OGLXRLayer.update. ew_pres.
Qed.

Lemma la_update ok l0 l :
  (forall t, ok (HNewTransform t)) -> (forall n t, ok (HSetTransform n t)) ->
  preserves (log_adds ok l0) (OGLXRLayer.update l).
Proof.
  intros H1 H2. pose proof (la_updateNative ok l0 l H1 H2).
  unfold OGLXRLayer.update. pres_with la_leaf.
Qed.

Lemma update_quad l w :
  l_class (heap w l) = COGLQuadLayer ->
  transformDirty (heap w l) = true ->
  exists w',
    OGLXRLayer.update l w = Ok tt w'
    /\ elsewhere l w w'
    /\ layer_frame true w w'
    /\ log_adds (fun _ => True) (log w) w'
    /\ updated_in w w' l.
Proof.
  intros Hc Hd.
  pose proof (ew_update l w w (ew_refl _ _)) as Hew.
  pose proof (lf_update true w l w (lf_refl _ _)) as Hlf.
  pose proof (la_update (fun _ => True) (log w) l (fun _ => I)
                (fun _ _ => I) w (la_refl _ _)) as Hla.
  unfold updated_in.
  destruct (nativeLayer (heap w l)) as [n|] eqn:En.
  - destruct (update_dirty_native l n w En Hd) as (w' & E & Ht & Hl).
    rewrite E in Hew, Hlf, Hla. simpl in Hew, Hlf, Hla.
    exists w'. repeat (split; [assumption|]).
    eexists. split; [exact Ht|]. simpl.
    split; [apply Nat.le_refl|]. split; [reflexivity|].
    rewrite Hl, Hc. apply in_or_app. right. right. left. reflexivity.
  - exists w. unfold OGLXRLayer.update. rewrite bind_gets, En.
    split; [reflexivity|]. split; [apply ew_refl|].
    split; [apply lf_refl|]. split; [apply la_refl | reflexivity].
Qed.

Lemma for_each_update ls : forall w,
  NoDup ls ->
  (forall l, In l ls -> l_class (heap w l) = COGLQuadLayer) ->
  (forall l, transformDirty (heap w l) = true) ->
  exists w',
    for_each OGLXRLayer.update ls w = Ok tt w'
    /\ layer_frame true w w'
    /\ (forall l, ~ In l ls -> heap w' l = heap w l)
    /\ log_adds (fun _ => True) (log w) w'
    /\ forall l, In l ls -> updated_in w w' l.
Proof.
  induction ls as [|a ls IH]; intros w Hnd Hq Hd.
  - exists w. split; [reflexivity|]. split; [apply lf_refl|].
    split; [reflexivity|]. split; [apply la_refl | intros l []].
  - inversion Hnd as [|? ? Ha Hnd']; subst.
    assert (Hca : l_class (heap w a) = COGLQuadLayer)
      by (apply Hq; left; reflexivity).
    destruct (update_quad a w Hca (Hd a)) as (w1 & E1 & He1 & Hf1 & Hl1 & Hu1).
    assert (Hq1 : forall l, In l ls -> l_class (heap w1 l) = COGLQuadLayer).
    { intros l Hl. rewrite (lf_class _ _ _ Hf1). apply Hq. right. exact Hl. }
    assert (Hd1 : forall l, transformDirty (heap w1 l) = true).
    { intros l. apply (lf_dirty _ _ _ Hf1), Hd. }
    destruct (IH w1 Hnd' Hq1 Hd1) as (w' & E' & Hf' & Hrest & Hl' & Hall).
    exists w'. simpl. unfold bind. rewrite E1.
    split; [exact E'|]. split; [eapply lf_trans; eassumption|].
    split; [|split].
    + intros l Hl. rewrite Hrest by tauto. apply He1.
      intros ->. apply Hl. left. reflexivity.
    + destruct Hl1 as (e1 & El1 & _). destruct Hl' as (e2 & El2 & _).
      exists (e1 ++ e2). split; [|auto].
      rewrite El2, El1. apply eq_sym, app_assoc.
    + intros l [<-|Hl].
      * unfold updated_in in *. rewrite (Hrest a Ha).
        destruct (nativeLayer (heap w a)); [|exact Hu1].
        destruct Hu1 as (t & Ht & Hi & Hp & Hin).
        exists t. repeat (split; [assumption|]).
        apply (la_in _ _ _ _ Hl' Hin).
      * assert (Hne : l <> a) by (intros ->; contradiction).
        specialize (Hall l Hl). unfold updated_in in *.
        rewrite (He1 l Hne) in Hall.
        destruct (nativeLayer (heap w l)); [|congruence].
        destruct Hall as (t & Ht & Hi & Hp & Hin).
        exists t. split; [exact Ht|].
        split; [pose proof (lf_fresh _ _ _ Hf1); lia|].
        split; assumption.
Qed.

(** [render] and [renderXR].  The drawing itself is done by the base class
    [Renderer] and by the host: [super_render] is [super.render(options)];
    [draw_views frame] is the part of [renderXR] from the first use of the
    poses to [this.bindFramebuffer()].  The flag [target] says whether
    [options.target] is given, [poses] whether the host's
    [getViewerPose] answers with poses. *)
Section Render.
Variable super_render : M unit.
Variable draw_views : Frame -> M unit.

(** [this.layers.forEach((e) => e.update(...))] *)
Definition update_layers : M unit :=
  ls <- gets (fun w => r_layers (renderer w)) ;;
  for_each OGLXRLayer.update ls.

(** [renderXR(options)] *)
Definition renderXR (poses : bool) : M unit :=
  f <- gets (fun w => lastXRFrame (xr w)) ;;
  a <- gets XRState.active ;;
  match f with
  | Some frame =>
      if a then
        if poses then draw_views frame ;;; update_layers else ret tt
      else ret tt
  | None => ret tt
  end.

(** [render(options)]: render to XR if there is no target and a session. *)
Definition render (target poses : bool) : M unit :=
  a <- gets XRState.active ;;
  if negb target && a then renderXR poses
  else update_layers ;;; super_render.

(** X16.  [render(options)], in every world a renderer can be in.  With a
    target, or without a session, every registered layer is updated first
    (a layer that holds a native layer gets a transform made from its
    current pose pushed to it; a layer in fallback state is untouched) and
    then the scene is drawn by the base class.  Without a target and with
    a session, outside a frame callback of the session, or when the host
    has no poses, nothing is done at all: no layer is updated. *)
Theorem render_updates_registered_layers w :
  reachable w ->
  (forall target poses,
      target = true \/ XRState.active w = false ->
      exists w1,
        update_layers w = Ok tt w1
        /\ render target poses w = super_render w1
        /\ r_layers (renderer w1) = r_layers (renderer w)
        /\ (forall l, In l (r_layers (renderer w)) -> updated_in w w1 l)
        /\ (forall l, ~ In l (r_layers (renderer w)) ->
                      heap w1 l = heap w l))
  /\ (forall poses,
        XRState.active w = true ->
        lastXRFrame (xr w) = None \/ poses = false ->
        render false poses w = Ok tt w).
Proof.
  intros Hr. split.
  - intros target poses Hcase.
    destruct (reachable_registry_quads w Hr) as [Hnd Hq].
    assert (Hd : forall l, transformDirty (heap w l) = true).
    { destruct Hr as (classes & options & evs & Hrun).
      apply run_heap_frame in Hrun. intros l.
      apply (hf_dirty _ _ _ Hrun). reflexivity. }
    destruct (for_each_update (r_layers (renderer w)) w Hnd Hq Hd)
      as (w1 & E & Hf & Hrest & _ & Hall).
    exists w1. unfold render, update_layers. rewrite !bind_gets.
    split; [exact E|]. split.
    + replace (negb target && XRState.active w) with false
        by (destruct Hcase as [-> | ->]; [reflexivity | apply eq_sym, andb_false_r]).
      unfold bind at 1. rewrite bind_gets, E. reflexivity.
    + split; [apply (lf_registry _ _ _ Hf eq_refl)|]. split; assumption.
  - intros poses Ha Hcase. unfold render, renderXR.
    rewrite !bind_gets, Ha. simpl. rewrite !bind_gets, Ha.
    destruct Hcase as [-> | ->]; [reflexivity|].
    destruct (lastXRFrame (xr w)); reflexivity.
Qed.
End Render.

Lemma render_updates_registered_layers_witness :
  render (ret tt) (fun _ => ret tt) false true layers_session_started
  = Ok tt layers_session_started.
Proof.
  apply (proj2 (render_updates_registered_layers (ret tt) (fun _ => ret tt)
                  layers_session_started layers_session_started_reachable)).
  - reflexivity.
  - left. reflexivity.
Defined.

(** ** The end of a session, end to end *)

(** [sess_frame w0 w]: the session of [XRState], the running session, the
    listeners attached to sessions and the functions bound in the
    constructor are in [w] what they were in [w0]. *)
Record sess_frame (w0 w : World) : Prop := mk_sess_frame {
  sf_session : session (xr w) = session (xr w0);
  sf_live : h_live (host w) = h_live (host w0);
  sf_listeners : h_listeners (host w) = h_listeners (host w0);
  sf_onEnd : onEnd_fn (xr w) = onEnd_fn (xr w0);
  sf_onInput : onInputChanged_fn (xr w) = onInputChanged_fn (xr w0);
  sf_fresh : h_fresh (host w0) <= h_fresh (host w)
}.

Lemma sf_refl w : sess_frame w w.
Proof. constructor; auto. Qed.

Lemma sf_trans w0 w1 w2 :
  sess_frame w0 w1 -> sess_frame w1 w2 -> sess_frame w0 w2.
Proof. intros [] []. constructor; try congruence; lia. Qed.

Lemma sf_of_layer_frame reg w0 w : layer_frame reg w0 w -> sess_frame w0 w.
Proof. intros []. destruct lf_fns0. constructor; auto. Qed.

Lemma sf_quiet w w' :
  xr w' = xr w \/ (session (xr w') = session (xr w)
                   /\ onEnd_fn (xr w') = onEnd_fn (xr w)
                   /\ onInputChanged_fn (xr w') = onInputChanged_fn (xr w)) ->
  h_live (host w') = h_live (host w) ->
  h_listeners (host w') = h_listeners (host w) ->
  h_fresh (host w) <= h_fresh (host w') ->
  sess_frame w w'.
Proof.
  intros [Hx | (H1 & H2 & H3)] Hl Hli Hf; constructor; auto;
    rewrite Hx; reflexivity.
Qed.

Lemma sf_preserves_of_frames {A} (m : M A) :
  (forall w, sess_frame w (world_of (m w))) ->
  forall w0, preserves (sess_frame w0) m.
Proof. intros H w0 w Hw. eapply sf_trans; [exact Hw | apply H]. Qed.

Lemma sf_preserves_of_layer_frame {A} reg (m : M A) :
  (forall w0, preserves (layer_frame reg w0) m) ->
  forall w0, preserves (sess_frame w0) m.
Proof.
  intros H. apply sf_preserves_of_frames. intros w.
  eapply sf_of_layer_frame, lf_frames, H.
Qed.

Lemma sf_clearLoop w : sess_frame w (XRRenderer._clearLoop w).
Proof. rewrite clearLoop_spec. apply sf_quiet; simpl; auto. Qed.

Lemma sf_emit e w : sess_frame w (emit e w).
Proof. apply sf_quiet; simpl; auto. Qed.

Lemma sf_attachLoop w0 : preserves (sess_frame w0) XRRenderer._attachLoop.
Proof.
  apply sf_preserves_of_frames. intros w. rewrite attachLoop_spec.
  apply sf_quiet; simpl; auto.
Qed.

Lemma sf_getLayer w0 t o : preserves (sess_frame w0) (XRState.getLayer t o).
Proof.
  apply (sf_preserves_of_layer_frame true). intros. apply lf_getLayer.
Qed.

Lemma sf_bindLayer w0 l n :
  preserves (sess_frame w0) (XRRenderer.bindLayer l n).
Proof.
  apply (sf_preserves_of_layer_frame true). intros. apply lf_bindLayer.
Qed.

Lemma sf_bindNativeLayerTo w0 l :
  preserves (sess_frame w0) (XRRenderer.bindNativeLayerTo l).
Proof.
  apply (sf_preserves_of_layer_frame true). intros.
  apply lf_bindNativeLayerTo.
Qed.

#[global] Hint Resolve sf_refl sf_clearLoop sf_emit sf_attachLoop
  sf_getLayer sf_bindLayer sf_bindNativeLayerTo : pres.

Ltac sf_leaf :=
  let w := fresh "w" in
  let H := fresh "H" in
  intros w H; eapply sf_trans; [exact H|];
  first [ solve [auto with pres]
        | apply sf_quiet; simpl; solve [auto] ].

Ltac sf_pres := intros; pres_with sf_leaf.

Lemma sf_requestAnimationFrame w0 c :
  preserves (sess_frame w0) (XRRenderer.requestAnimationFrame c).
Proof. unfold XRRenderer.requestAnimationFrame. sf_pres. Qed.
#[global] Hint Resolve sf_requestAnimationFrame : pres.

Lemma sf_internalLoop w0 time frame :
  preserves (sess_frame w0) (XRRenderer._internalLoop time frame).
Proof.
  unfold XRRenderer._internalLoop, XRRenderer.call, XRRenderer.run_action.
  sf_pres.
Qed.
#[global] Hint Resolve sf_internalLoop : pres.

Lemma sf_fire w0 src id time frame :
  preserves (sess_frame w0) (XRRenderer.fire src id time frame).
Proof. unfold XRRenderer.fire, XRState.frameCallback. sf_pres. Qed.

Lemma sf_onSessionLost w0 : preserves (sess_frame w0) XRRenderer.onSessionLost.
Proof. unfold XRRenderer.onSessionLost. sf_pres. Qed.

Lemma sf_onSessionStart w0 : preserves (sess_frame w0) XRRenderer.onSessionStart.
Proof. unfold XRRenderer.onSessionStart. sf_pres. Qed.

Lemma sf_dispatchEvent e w :
  sess_frame w (XRState.dispatchEvent XRRenderer.onSessionStart
                  XRRenderer.onSessionLost e w).
Proof.
  destruct e; simpl; try apply sf_emit;
    (eapply sf_trans; [apply sf_emit|]).
  - apply sf_onSessionStart, sf_refl.
  - apply sf_onSessionLost, sf_refl.
Qed.

(** The listeners of [XRState] on its session: the functions attached to a
    session are not the ones [clear] tries to remove; the session
    [XRState] holds has exactly one "end" listener, which forwards to
    [onEnd]. *)
Record sess_core (w : World) : Prop := mk_sess_core {
  sc_onEnd : fn_id (onEnd_fn (xr w)) < h_fresh (host w);
  sc_onInput : fn_id (onInputChanged_fn (xr w)) < h_fresh (host w);
  sc_listeners : forall s e f,
    In (s, e, f) (h_listeners (host w)) ->
    s < h_fresh (host w)
    /\ f <> onEnd_fn (xr w) /\ f <> onInputChanged_fn (xr w);
  sc_end : forall s,
    session (xr w) = Some s ->
    exists f, XRState.end_listeners s w = [f] /\ fn_target f = MOnEnd
}.

(** ... and the session [XRState] holds is the one the host is running. *)
Definition sess_inv (w : World) : Prop :=
  sess_core w /\ forall s, session (xr w) = Some s -> h_live (host w) = Some s.

Lemma end_listeners_same s w w' :
  h_listeners (host w') = h_listeners (host w) ->
  XRState.end_listeners s w' = XRState.end_listeners s w.
Proof. intros H. unfold XRState.end_listeners. rewrite H. reflexivity. Qed.

Lemma sc_keep w w' :
  session (xr w') = session (xr w) \/ session (xr w') = None ->
  h_listeners (host w') = h_listeners (host w) ->
  onEnd_fn (xr w') = onEnd_fn (xr w) ->
  onInputChanged_fn (xr w') = onInputChanged_fn (xr w) ->
  h_fresh (host w) <= h_fresh (host w') ->
  sess_core w -> sess_core w'.
Proof.
  intros Hs Hl H1 H2 Hf [A B C D]. constructor.
  - rewrite H1. lia.
  - rewrite H2. lia.
  - intros s e f Hin. rewrite Hl in Hin. rewrite H1, H2.
    destruct (C s e f Hin) as (C1 & C2 & C3). repeat split; auto. lia.
  - intros s Hx. rewrite (end_listeners_same s w w' Hl).
    destruct Hs as [Hs|Hs]; [apply D; congruence | congruence].
Qed.

Lemma sc_frame w w' : sess_frame w w' -> sess_core w -> sess_core w'.
Proof.
  intros []. apply sc_keep; auto.
Qed.

Lemma si_frame w w' : sess_frame w w' -> sess_inv w -> sess_inv w'.
Proof.
  intros Hf [Hc Hl]. split; [eapply sc_frame; eassumption|].
  intros s. rewrite (sf_session _ _ Hf), (sf_live _ _ Hf). apply Hl.
Qed.

Lemma filter_all {A} (f : A -> bool) (l : list A) :
  (forall x, In x l -> f x = true) -> filter f l = l.
Proof.
  induction l as [|a l IH]; simpl; intros H; [reflexivity|].
  rewrite (H a) by auto. rewrite IH; auto.
Qed.

Lemma same_listener_fn l s e f :
  snd l <> f -> same_listener l (s, e, f) = false.
Proof.
  destruct l as [[s' e'] f']. simpl. intros H.
  destruct (Fn_eq_dec f' f); [contradiction|].
  apply andb_false_r.
Qed.

Lemma clear_fns w :
  onEnd_fn (xr (XRState.clear w)) = onEnd_fn (xr w)
  /\ onInputChanged_fn (xr (XRState.clear w)) = onInputChanged_fn (xr w).
Proof.
  destruct (session (xr w)) as [s|] eqn:Hs.
  - unfold XRState.clear. rewrite Hs. cbv zeta. rewrite fold_destroy.
    destruct (baseLayerTarget _), (baseLayer _);
      unfold XRState.destroy_if_able; try destruct (has_destroy _);
      simpl; auto.
  - rewrite (clear_without_session w Hs). auto.
Qed.

(** [clear()] removes no listener. *)
Lemma clear_listeners_stay w :
  sess_core w ->
  h_listeners (host (XRState.clear w)) = h_listeners (host w).
Proof.
  intros [_ _ C _]. destruct (session (xr w)) as [s|] eqn:Hs.
  - destruct (clear_with_session w s Hs)
      as (_ & _ & _ & _ & _ & _ & _ & _ & _ & _ & Hl & _).
    rewrite Hl. rewrite (filter_all _ (h_listeners (host w))).
    + apply filter_all. intros [[s' e'] f'] Hin.
      rewrite same_listener_fn; [reflexivity|]. simpl.
      apply (C s' e' f' Hin).
    + intros [[s' e'] f'] Hin.
      rewrite same_listener_fn; [reflexivity|]. simpl.
      apply (C s' e' f' Hin).
  - rewrite (clear_without_session w Hs). reflexivity.
Qed.

Lemma sc_clear w :
  sess_core w ->
  sess_core (XRState.clear w)
  /\ session (xr (XRState.clear w)) = None
  /\ h_live (host (XRState.clear w)) = h_live (host w).
Proof.
  intros Hc. destruct (clear_sched w) as (Hx & _ & Hl & _ & _ & Hf).
  destruct (clear_fns w) as [F1 F2].
  split; [|split; assumption].
  apply (sc_keep w); auto.
  - apply clear_listeners_stay, Hc.
  - rewrite Hf. apply Nat.le_refl.
Qed.

Lemma sc_after_onEnd w :
  sess_core w ->
  let w' := XRState.onEnd XRRenderer.onSessionStart XRRenderer.onSessionLost w in
  sess_core w' /\ session (xr w') = None
  /\ h_live (host w') = h_live (host w).
Proof.
  intros Hc w'. destruct (sc_clear w Hc) as (Hc1 & Hx1 & Hl1).
  unfold w', XRState.onEnd, XRState.onInputChanged.
  set (w1 := emit _ (XRState.clear w)).
  pose proof (sf_dispatchEvent XREnd w1) as Hf.
  assert (Hc2 : sess_core w1).
  { apply (sc_keep (XRState.clear w)); auto. }
  split; [eapply sc_frame; eassumption|].
  split; [rewrite (sf_session _ _ Hf); exact Hx1|].
  rewrite (sf_live _ _ Hf). exact Hl1.
Qed.

Lemma sc_call_fn f w :
  sess_core w ->
  let w' := XRState.call_fn XRRenderer.onSessionStart
              XRRenderer.onSessionLost f w in
  sess_core w'
  /\ h_live (host w') = h_live (host w)
  /\ (session (xr w) = None \/ fn_target f = MOnEnd ->
      session (xr w') = None).
Proof.
  intros Hc w'. unfold w', XRState.call_fn.
  destruct (fn_target f).
  - destruct (sc_after_onEnd w Hc) as (H1 & H2 & H3). auto.
  - unfold XRState.onInputChanged. split; [|split].
    + apply (sc_keep w); auto.
    + reflexivity.
    + intros [H|H]; [exact H | discriminate H].
Qed.

Lemma sc_fold_call_fn fs : forall w,
  sess_core w ->
  let w' := fold_left (fun w f => XRState.call_fn XRRenderer.onSessionStart
                                    XRRenderer.onSessionLost f w) fs w in
  sess_core w'
  /\ h_live (host w') = h_live (host w)
  /\ (session (xr w) = None \/ (exists f, In f fs /\ fn_target f = MOnEnd) ->
      session (xr w') = None).
Proof.
  induction fs as [|f fs IH]; intros w Hc; simpl.
  - split; [exact Hc|]. split; [reflexivity|].
    intros [H|(f & [] & _)]. exact H.
  - destruct (sc_call_fn f w Hc) as (Hc1 & Hl1 & Hx1). cbv zeta in *.
    destruct (IH _ Hc1) as (Hc2 & Hl2 & Hx2). cbv zeta in *.
    split; [exact Hc2|]. split; [congruence|].
    intros H. apply Hx2. destruct H as [H|(f' & [<-|Hin] & Ht)].
    + left. apply Hx1. left. exact H.
    + left. apply Hx1. right. exact Ht.
    + right. exists f'. split; assumption.
Qed.

Lemma si_host_endSession s w :
  sess_inv w -> sess_inv (XRRenderer.host_endSession s w).
Proof.
  intros [Hc Hl]. unfold XRRenderer.host_endSession, XRState.host_endSession.
  destruct (h_live (host w)) as [s'|] eqn:El; [|split; [exact Hc|]].
  - destruct (Nat.eqb_spec s' s) as [->|Hne]; [|split; [exact Hc|]].
    + set (w0 := emit (HEndSession s) (set_host (with_live None) w)).
      assert (Hc0 : sess_core w0) by (apply (sc_keep w); auto).
      destruct (sc_fold_call_fn (XRState.end_listeners s w) w0 Hc0)
        as (Hc1 & Hl1 & Hx1). cbv zeta in *.
      split; [exact Hc1|].
      assert (Hnone : session
                (xr (fold_left (fun w f => XRState.call_fn
                        XRRenderer.onSessionStart XRRenderer.onSessionLost
                        f w) (XRState.end_listeners s w) w0)) = None).
      { apply Hx1. destruct (session (xr w)) as [s1|] eqn:Ex;
          [|left; exact Ex].
        right. pose proof (Hl s1 eq_refl) as Hs1.
        assert (s1 = s) by congruence. subst s1.
        destruct (sc_end w Hc s Ex) as (f & Ef & Ht).
        exists f. split; [|exact Ht].
        rewrite Ef. left. reflexivity. }
      intros s1 H. rewrite Hnone in H. discriminate.
    + intros s1 H. rewrite El. apply Hl in H. congruence.
  - intros s1 H. apply Hl in H. congruence.
Qed.

Lemma si_end w : sess_inv w -> sess_inv (XRRenderer.xr_end w).
Proof.
  intros Hi. unfold XRRenderer.xr_end, XRState.end_.
  destruct (session (xr w)) as [s|] eqn:Ex; [|exact Hi].
  apply si_host_endSession.
  destruct Hi as [Hc Hl]. destruct (sc_clear w Hc) as (Hc1 & Hx1 & Hl1).
  unfold XRState.onInputChanged. split.
  - apply (sc_keep (XRState.clear w)); auto.
  - intros s1 H. simpl in H. congruence.
Qed.

Lemma si_negotiate w :
  sess_inv w -> sess_inv (XRRenderer.requestXR_negotiate w).
Proof.
  intros Hi. unfold XRRenderer.requestXR_negotiate,
    XRState.requestSession_begin.
  assert (H1 : sess_inv (XRRenderer._clearLoop w))
    by (eapply si_frame; [apply sf_clearLoop | exact Hi]).
  destruct (XRState.active _); [apply si_end, H1 | exact H1].
Qed.

Lemma sf_attach_world w : sess_frame w (attach_world w).
Proof.
  pose proof (sf_attachLoop w w (sf_refl w)) as H.
  rewrite attachLoop_returns in H. exact H.
Qed.

Lemma end_listeners_none s w :
  (forall s' e f, In (s', e, f) (h_listeners (host w)) -> s' <> s) ->
  XRState.end_listeners s w = [].
Proof.
  unfold XRState.end_listeners. induction (h_listeners (host w))
    as [|[[s' e] f] ls IH]; simpl; intros H; [reflexivity|].
  rewrite IH by (intros; eapply H; right; eassumption).
  destruct e; [|reflexivity].
  destruct (Nat.eqb_spec s' s) as [->|]; [|reflexivity].
  exfalso. apply (H s SEnd f); auto.
Qed.

(** [XRState] takes a session the host has just started and attaches its
    two listeners. *)
Lemma si_init_listen b w :
  sess_inv w ->
  h_live (host w) = None ->
  let s := h_fresh (host w) in
  let w1 := init_enter s (S s) (granted_world b w) in
  let w2 := host_addEventListener (s, SEnd, mkFn (S (S s)) MOnEnd)
              (set_host (fun h => with_fresh (S (h_fresh h)) h) w1) in
  let w3 := host_addEventListener
              (s, SInputSourcesChange, mkFn (S (S (S s))) MOnInputChanged)
              (set_host (fun h => with_fresh (S (h_fresh h)) h) w2) in
  sess_inv w3.
Proof.
  intros [Hc Hl] Hlive s w1 w2 w3.
  assert (Hx : session (xr w) = None).
  { destruct (session (xr w)) as [s1|] eqn:E; [|reflexivity].
    rewrite (Hl s1 eq_refl) in Hlive. discriminate. }
  assert (Ha : XRState.active (granted_world b w) = false).
  { unfold XRState.active. simpl. rewrite Hx. reflexivity. }
  assert (E1 : w1 = set_xr (with_session (Some s))
                      (set_xr (with_space (Some (S s))) (granted_world b w))).
  { unfold w1, init_enter. rewrite Ha. reflexivity. }
  destruct Hc as [A B C D].
  assert (Hnone : XRState.end_listeners s w = []).
  { apply end_listeners_none. intros s' e f Hin.
    destruct (C s' e f Hin) as (Hlt & _). unfold s. lia. }
  split.
  - constructor.
    + unfold w3, w2. rewrite E1. simpl. lia.
    + unfold w3, w2. rewrite E1. simpl. lia.
    + unfold w3, w2. rewrite E1. simpl. intros s' e f Hin.
      rewrite !in_app_iff in Hin. simpl in Hin.
      destruct Hin as [[Hin|[Hin|[]]]|[Hin|[]]].
      * destruct (C s' e f Hin) as (C1 & C2 & C3). repeat split; auto. lia.
      * injection Hin as <- <- <-. split; [unfold s; lia|].
        split; intros H; rewrite <- H in *; simpl in *; unfold s in *; lia.
      * injection Hin as <- <- <-. split; [unfold s; lia|].
        split; intros H; rewrite <- H in *; simpl in *; unfold s in *; lia.
    + unfold w3, w2. rewrite E1. simpl. intros s' [= <-].
      exists (mkFn (S (S s)) MOnEnd). split; [|reflexivity].
      unfold XRState.end_listeners in *. simpl.
      rewrite !flat_map_app. rewrite Hnone. simpl.
      rewrite Nat.eqb_refl. reflexivity.
  - unfold w3, w2. rewrite E1. simpl. intros s' [= <-]. reflexivity.
Qed.

Lemma init_announce_world s w :
  init_announce s w
  = Ok tt (XRState.dispatchEvent XRRenderer.onSessionStart
             XRRenderer.onSessionLost XRStart
             (host_addEventListener
                (s, SInputSourcesChange,
                 mkFn (S (h_fresh (host w))) MOnInputChanged)
                (set_host (fun h => with_fresh (S (h_fresh h)) h)
                   (host_addEventListener
                      (s, SEnd, mkFn (h_fresh (host w)) MOnEnd)
                      (set_host (fun h => with_fresh (S (h_fresh h)) h)
                         w))))).
Proof. reflexivity. Qed.

Lemma si_settle o w :
  sess_inv w ->
  (grants o = true -> h_live (host w) = None) ->
  sess_inv (world_of (XRRenderer.requestXR_settle o w)).
Proof.
  intros Hi Hg. unfold XRRenderer.requestXR_settle.
  rewrite try_finally_attach.
  assert (H1 : sess_inv
                 (world_of (XRState.requestSession_settle
                              XRRenderer.onSessionStart
                              XRRenderer.onSessionLost o w))).
  { destruct o as [|b|b].
    - exact Hi.
    - pose proof (Hg eq_refl) as Hlive. destruct Hi as [Hc Hl].
      assert (Hx : session (xr w) = None).
      { destruct (session (xr w)) as [s1|] eqn:E; [|reflexivity].
        rewrite (Hl s1 eq_refl) in Hlive. discriminate. }
      split.
      + apply (sc_keep w); simpl; auto.
      + simpl. intros s1 H. congruence.
    - rewrite settle_granted, init_split, init_announce_world.
      pose proof (si_init_listen b w Hi (Hg eq_refl)) as H3.
      cbv zeta in H3. cbv [world_of].
      assert (Hf : h_fresh (host (init_enter (h_fresh (host w))
                                    (S (h_fresh (host w)))
                                    (granted_world b w)))
                   = S (S (h_fresh (host w)))).
      { unfold init_enter. destruct (XRState.active _); [|reflexivity].
        simpl. destruct (clear_sched (granted_world b w))
          as (_ & _ & _ & _ & _ & ->). reflexivity. }
      eapply si_frame; [apply sf_dispatchEvent|].
      rewrite Hf. exact H3. }
  destruct (XRState.requestSession_settle _ _ o w); simpl in *;
    (eapply si_frame; [apply sf_attach_world | exact H1]).
Qed.

Lemma si_new classes options :
  sess_inv (XRRenderer.new_XRRenderer classes options).
Proof.
  split; [constructor|]; simpl; try lia; try discriminate;
    try (intros s e f []).
Qed.

Lemma step_sess_inv e w w' : sess_inv w -> step e w = Some w' -> sess_inv w'.
Proof.
  intros Hi. destruct e; simpl; intros H.
  - injection H as <-. eapply si_frame; [|exact Hi].
    apply sf_requestAnimationFrame, sf_refl.
  - injection H as <-. eapply si_frame; [|exact Hi].
    apply sf_quiet; simpl; auto.
  - destruct (_ && _); [|discriminate]. injection H as <-.
    eapply si_frame; [|exact Hi]. apply sf_fire, sf_refl.
  - injection H as <-. rewrite attachLoop_returns.
    eapply si_frame; [apply sf_attach_world | exact Hi].
  - injection H as <-. exact Hi.
  - destruct ok; injection H as <-; [apply si_negotiate, Hi | exact Hi].
  - destruct (grants o && is_some (h_live (host w))) eqn:E; [discriminate|].
    injection H as <-. apply si_settle; [exact Hi|].
    intros Hg. rewrite Hg in E. simpl in E.
    destruct (h_live (host w)); [discriminate | reflexivity].
  - destruct (h_live (host w)); [|discriminate]. injection H as <-.
    apply si_host_endSession, Hi.
  - injection H as <-. apply si_end, Hi.
  - injection H as <-. eapply si_frame; [|exact Hi].
    eapply sf_of_layer_frame, (lf_registerLayer w l), lf_refl.
  - injection H as <-. eapply si_frame; [|exact Hi].
    eapply sf_of_layer_frame, (lf_destroy w l), lf_refl.
  - destruct (composition_layer n); [|discriminate]. injection H as <-.
    eapply si_frame; [|exact Hi].
    eapply sf_of_layer_frame, (lf_bindLayer w true l n), lf_refl.
  - injection H as <-. eapply si_frame; [|exact Hi].
    eapply sf_of_layer_frame, (lf_update true w l), lf_refl.
  - injection H as <-. eapply si_frame; [|exact Hi].
    apply sf_quiet; simpl; auto.
  - injection H as <-. eapply si_frame; [|exact Hi].
    apply sf_quiet; simpl; auto.
Qed.

Lemma run_sess_inv evs : forall w w',
  sess_inv w -> run evs w = Some w' -> sess_inv w'.
Proof.
  induction evs as [|e evs IH]; simpl; intros w w' Hi H.
  - injection H as <-. exact Hi.
  - destruct (step e w) as [w1|] eqn:E; [|discriminate].
    eapply IH; [|exact H]. eapply step_sess_inv; eassumption.
Qed.

Lemma reachable_sess_inv w : reachable w -> sess_inv w.
Proof.
  intros (classes & options & evs & H).
  eapply run_sess_inv; [apply si_new | exact H].
Qed.

(** The renderer's notification does nothing to [XRState] when native
    layers are not supported or no session is active. *)
Definition xr_ignores_layers (w : World) : bool :=
  negb (layersSupport w) || negb (XRState.active w).

Lemma call_onLayerDestroy_ignored l w :
  xr_ignores_layers w = true ->
  OGLXRLayer.call_onLayerDestroy XRRenderer._onLayerDestroy l true w
  = Ok tt w.
Proof.
  intros Hs. unfold OGLXRLayer.call_onLayerDestroy,
    XRRenderer._onLayerDestroy.
  rewrite bind_gets. destruct (onLayerDestroy_cb (heap w l)); [reflexivity|].
  simpl. unfold bind at 1. unfold ret at 1. rewrite bind_gets.
  destruct (nativeLayer (heap w l)); [|reflexivity].
  unfold XRState.onLayerDestroy. rewrite bind_gets.
  unfold xr_ignores_layers in Hs. rewrite Hs. reflexivity.
Qed.

Lemma bindLayer_null_ignored_xr l w :
  xr_ignores_layers w = true ->
  xr (world_of (XRRenderer.bindLayer l None w)) = xr w.
Proof.
  intros Hs. unfold XRRenderer.bindLayer, OGLXRLayer.bindLayer.
  rewrite bind_gets. unfold bind at 1.
  destruct (nativeLayer (heap w l)) as [n|] eqn:En.
  - simpl. unfold bind at 1. rewrite (call_onLayerDestroy_ignored l w Hs).
    unfold lift. rewrite <- (xr_destroyNative l w).
    apply (xr_createFallback l _ _ eq_refl).
  - unfold ret. apply (xr_createFallback l _ _ eq_refl).
Qed.

Lemma for_each_bindLayer_null_xr ls : forall w,
  xr_ignores_layers w = true ->
  xr (world_of (for_each (fun l => XRRenderer.bindLayer l None) ls w)) = xr w.
Proof.
  induction ls as [|a ls IH]; intros w Hs; simpl; [reflexivity|].
  pose proof (bindLayer_null_ignored_xr a w Hs) as Hx.
  pose proof (lf_bindLayer w true a None w (lf_refl _ _)) as Hf.
  unfold bind.
  destruct (XRRenderer.bindLayer a None w) as [[] w1|e w1]; simpl in *;
    [|exact Hx].
  rewrite IH; [exact Hx|].
  unfold xr_ignores_layers, XRState.active in *.
  rewrite (lf_support _ _ _ Hf), Hx. exact Hs.
Qed.

(** [onSessionLost()] on a registry of quad layers. *)
Lemma onSessionLost_world w :
  (forall l, In l (r_layers (renderer w)) ->
             l_class (heap w l) = COGLQuadLayer) ->
  exists w',
    XRRenderer.onSessionLost w = Ok tt w'
    /\ r_layers (renderer w') = r_layers (renderer w)
    /\ (forall l, In l (r_layers (renderer w)) -> in_fallback w' l)
    /\ (forall l, ~ In l (r_layers (renderer w)) -> heap w' l = heap w l)
    /\ frame_pending w'
    /\ (xr_ignores_layers w = true -> xr w' = xr w).
Proof.
  intros Hq.
  unfold XRRenderer.onSessionLost. rewrite bind_lift. cbv beta.
  rewrite bind_gets. cbv beta.
  assert (H1 : heap (XRRenderer._clearLoop w) = heap w
               /\ r_layers (renderer (XRRenderer._clearLoop w))
                  = r_layers (renderer w)
               /\ xr (XRRenderer._clearLoop w) = xr w
               /\ layersSupport (XRRenderer._clearLoop w) = layersSupport w)
    by (rewrite clearLoop_spec; repeat split; reflexivity).
  destruct H1 as (Hh & Hl & Hx & Hs). rewrite Hl.
  pose proof (for_each_bindLayer_null_xr (r_layers (renderer w))
                (XRRenderer._clearLoop w)) as Hxr.
  destruct (for_each_bindLayer_null (r_layers (renderer w))
              (XRRenderer._clearLoop w))
    as (w2 & E2 & Hall & Hf & Hrest).
  { intros l Hin. rewrite Hh. apply Hq, Hin. }
  rewrite E2 in Hxr. simpl in Hxr.
  unfold bind. rewrite E2, attachLoop_returns. unfold lift.
  eexists. split; [reflexivity|].
  assert (Ha : heap (attach_world w2) = heap w2
               /\ r_layers (renderer (attach_world w2))
                  = r_layers (renderer w2)
               /\ xr (attach_world w2) = xr w2).
  { unfold attach_world. rewrite attachLoop_spec. repeat split; reflexivity. }
  destruct Ha as (Hah & Hal & Hax). simpl.
  split; [rewrite Hal, (lf_registry _ _ _ Hf eq_refl); exact Hl|].
  split; [|split; [|split]].
  - intros l Hin. unfold in_fallback. simpl. rewrite Hah.
    apply (Hall l Hin).
  - intros l Hin. rewrite Hah, Hrest, Hh; auto.
  - apply frame_pending_emit, attach_world_pending.
  - intros Hi. rewrite Hax, Hxr; [exact Hx|].
    unfold xr_ignores_layers, XRState.active in *. rewrite Hs, Hx. exact Hi.
Qed.

(** X17.  The session ends on the host's side (the user leaves the
    immersive mode) while [XRState] holds it, in any world a renderer can be
    in.  The host's "end" event reaches [onEnd], which clears [XRState] and
    dispatches "xrend"; the renderer's [onSessionLost] answers.  Afterwards
    [XRState] holds no session, no layer and no base layer; the registry is
    the same, every registered layer is in fallback state and the other
    layers are as before; and the render loop has its request outstanding
    with the display. *)
Theorem session_end_returns_to_display w s :
  reachable w ->
  session (xr w) = Some s ->
  let w' := XRRenderer.host_endSession s w in
  step EvSessionEnd w = Some w'
  /\ h_live (host w') = None
  /\ session (xr w') = None
  /\ layers (xr w') = []
  /\ baseLayer (xr w') = None
  /\ r_layers (renderer w') = r_layers (renderer w)
  /\ (forall l, In l (r_layers (renderer w)) -> in_fallback w' l)
  /\ (forall l, ~ In l (r_layers (renderer w)) -> heap w' l = heap w l)
  /\ clock w' = Display
  /\ frame_pending w'.
Proof.
  intros Hr Hx.
  destruct (reachable_sess_inv w Hr) as [Hc Hl].
  destruct (reachable_registry_quads w Hr) as [_ Hq].
  pose proof (Hl s Hx) as Hlive.
  destruct (sc_end w Hc s Hx) as (f & Ef & Ht).
  cbv zeta. split; [simpl; rewrite Hlive; reflexivity|].
  unfold XRRenderer.host_endSession, XRState.host_endSession.
  rewrite Hlive, Nat.eqb_refl, Ef. simpl fold_left.
  unfold XRState.call_fn. rewrite Ht.
  unfold XRState.onEnd, XRState.onInputChanged, XRState.dispatchEvent.
  set (w0 := emit (HEndSession s) (set_host (with_live None) w)).
  destruct (clear_with_session w0 s Hx)
    as (C1 & _ & C3 & C4 & _ & _ & _ & C8 & C9 & C10 & _).
  destruct (clear_keeps w0) as (_ & _ & _ & K4).
  set (w3 := emit (XDispatch XREnd)
               (emit (XDispatch XRInputSourcesChange) (XRState.clear w0))).
  destruct (onSessionLost_world w3)
    as (w' & E & Hreg & Hfb & Hrest & Hp & Hxr).
  { intros l Hin. unfold w3. simpl. rewrite C9. apply Hq.
    unfold w3 in Hin. simpl in Hin. rewrite C8 in Hin. exact Hin. }
  assert (Hig : xr_ignores_layers w3 = true).
  { unfold xr_ignores_layers, XRState.active, w3. simpl. rewrite C1.
    apply orb_true_r. }
  specialize (Hxr Hig).
  pose proof (sf_onSessionLost w3 w3 (sf_refl w3)) as Hsf.
  rewrite E in *. simpl world_of in *.
  assert (R3 : r_layers (renderer w3) = r_layers (renderer w))
    by (unfold w3; simpl; rewrite C8; reflexivity).
  assert (H3 : heap w3 = heap w) by (unfold w3; simpl; rewrite C9; reflexivity).
  assert (X3 : xr w3 = xr (XRState.clear w0)) by reflexivity.
  rewrite R3 in *. rewrite H3 in *.
  split; [rewrite (sf_live _ _ Hsf); unfold w3; simpl; rewrite K4;
          reflexivity|].
  split; [rewrite Hxr, X3; exact C1|].
  split; [rewrite Hxr, X3; exact C3|].
  split; [rewrite Hxr, X3; exact C4|].
  split; [exact Hreg|].
  split; [exact Hfb|].
  split; [exact Hrest|].
  split; [unfold clock; rewrite Hxr, X3, C1; reflexivity | exact Hp].
Qed.

Lemma session_end_returns_to_display_witness :
  session (xr quad_registered_in_session) = Some 2
  /\ session (xr (XRRenderer.host_endSession 2 quad_registered_in_session))
     = None
  /\ in_fallback (XRRenderer.host_endSession 2 quad_registered_in_session) 0.
Proof.
  split; [reflexivity|].
  destruct (session_end_returns_to_display quad_registered_in_session 2
              quad_registered_in_session_reachable eq_refl)
    as (_ & _ & Hs & _ & _ & _ & Hfb & _).
  split; [exact Hs|]. apply Hfb. vm_compute. auto.
Defined.

(** X18.  [end()] while a session is held, in any world a renderer can be
    in: [XRState] is cleared, the host ends the session, and the "end"
    listener that [clear()] failed to remove still runs [onEnd], so "xrend"
    is dispatched and the renderer falls back exactly as when the session
    ends on the host's side: no session anywhere, no layer in [XRState],
    registered layers in fallback state, the loop requested from the
    display. *)
Theorem end_returns_to_display w s :
  reachable w ->
  session (xr w) = Some s ->
  let w' := XRRenderer.xr_end w in
  h_live (host w') = None
  /\ session (xr w') = None
  /\ layers (xr w') = []
  /\ baseLayer (xr w') = None
  /\ r_layers (renderer w') = r_layers (renderer w)
  /\ (forall l, In l (r_layers (renderer w)) -> in_fallback w' l)
  /\ (forall l, ~ In l (r_layers (renderer w)) -> heap w' l = heap w l)
  /\ clock w' = Display
  /\ frame_pending w'.
Proof.
  intros Hr Hx.
  destruct (reachable_sess_inv w Hr) as [Hc Hl].
  destruct (reachable_registry_quads w Hr) as [_ Hq].
  pose proof (Hl s Hx) as Hlive.
  destruct (sc_end w Hc s Hx) as (f & Ef & Ht).
  cbv zeta. unfold XRRenderer.xr_end, XRState.end_. rewrite Hx.
  unfold XRState.onInputChanged.
  destruct (clear_with_session w s Hx)
    as (C1 & _ & C3 & C4 & _ & _ & _ & C8 & C9 & C10 & _).
  destruct (clear_keeps w) as (_ & _ & _ & K4).
  pose proof (clear_listeners_stay w Hc) as Hls.
  set (w2 := emit (XDispatch XRInputSourcesChange) (XRState.clear w)).
  assert (L2 : h_live (host w2) = Some s)
    by (unfold w2; simpl; rewrite K4; exact Hlive).
  assert (E2 : XRState.end_listeners s w2 = [f]).
  { rewrite <- Ef. apply end_listeners_same. exact Hls. }
  unfold XRState.host_endSession. rewrite L2, Nat.eqb_refl, E2.
  simpl fold_left. unfold XRState.call_fn. rewrite Ht.
  unfold XRState.onEnd, XRState.onInputChanged, XRState.dispatchEvent.
  set (w0 := emit (HEndSession s) (set_host (with_live None) w2)).
  assert (X0 : xr w0 = xr (XRState.clear w)) by reflexivity.
  rewrite (clear_without_session w0) by (rewrite X0; exact C1).
  set (w3 := emit (XDispatch XREnd)
               (emit (XDispatch XRInputSourcesChange) w0)).
  assert (R3 : r_layers (renderer w3) = r_layers (renderer w))
    by (unfold w3, w0, w2; simpl; rewrite C8; reflexivity).
  assert (H3 : heap w3 = heap w)
    by (unfold w3, w0, w2; simpl; rewrite C9; reflexivity).
  assert (X3 : xr w3 = xr (XRState.clear w)) by reflexivity.
  destruct (onSessionLost_world w3)
    as (w' & E & Hreg & Hfb & Hrest & Hp & Hxr).
  { intros l Hin. rewrite H3. apply Hq. rewrite <- R3. exact Hin. }
  assert (Hig : xr_ignores_layers w3 = true).
  { unfold xr_ignores_layers, XRState.active. rewrite X3, C1.
    apply orb_true_r. }
  specialize (Hxr Hig).
  pose proof (sf_onSessionLost w3 w3 (sf_refl w3)) as Hsf.
  rewrite E in *. simpl world_of in *.
  rewrite R3 in *. rewrite H3 in *.
  split; [rewrite (sf_live _ _ Hsf); reflexivity|].
  split; [rewrite Hxr, X3; exact C1|].
  split; [rewrite Hxr, X3; exact C3|].
  split; [rewrite Hxr, X3; exact C4|].
  split; [exact Hreg|].
  split; [exact Hfb|].
  split; [exact Hrest|].
  split; [unfold clock; rewrite Hxr, X3, C1; reflexivity|].
  exact Hp.
Qed.

Lemma end_returns_to_display_witness :
  session (xr quad_registered_in_session) = Some 2
  /\ session (xr (XRRenderer.xr_end quad_registered_in_session)) = None
  /\ in_fallback (XRRenderer.xr_end quad_registered_in_session) 0.
Proof.
  split; [reflexivity|].
  destruct (end_returns_to_display quad_registered_in_session 2
              quad_registered_in_session_reachable eq_refl)
    as (_ & Hs & _ & _ & _ & Hfb & _).
  split; [exact Hs|]. apply Hfb. vm_compute. auto.
Defined.
